(** * Contract-boundary extractors and the MDX validator

    A shallow embedding of [platform/03-intelligence/agents/shared]:
    [contract_extractor.py], [yaml_extractor.py], [python_extractor.py],
    [rego_extractor.py], [markdown_extractor.py] and [mdx_validator.py].

    Text is ASCII text ([string]); Python exceptions are the [Raise] branch of
    [result]; the file system and the parsers the code calls ([yaml.safe_load],
    [ast.parse]) are parameters of the functions that use them. *)

From Stdlib Require Import List String Ascii Bool Arith ZArith Lia Permutation.
From Stdlib Require Import Floats.SpecFloat DecimalString.
From Equations Require Import Equations.
Import ListNotations.
Open Scope string_scope.
Open Scope list_scope.

Set Implicit Arguments.
Set Warnings "-register-all".


(** ** Exceptions *)

Inductive exn : Type :=
| ContractExtractionError (msg : string)
| AttributeError (msg : string)
| TypeError (msg : string)
| KeyError (key : string).

Inductive result (A : Type) : Type :=
| Ok (a : A)
| Raise (e : exn).
Arguments Ok {A} a.
Arguments Raise {A} e.

Definition bind {A B : Type} (r : result A) (k : A -> result B) : result B :=
  match r with
  | Ok a => k a
  | Raise e => Raise e
  end.

Notation "x <- r ;; k" := (bind r (fun x => k))
  (at level 61, r at next level, right associativity).

(** ** Python strings *)

Module Str.

Definition nl : string := String "010" "".

(** [str.isspace] on ASCII: tab, LF, VT, FF, CR, the separators FS..US, space.
    The same set is the regular expressions' [\s]. *)
Definition is_space (c : ascii) : bool :=
  let n := nat_of_ascii c in
  (Nat.leb 9 n && Nat.leb n 13) || (Nat.leb 28 n && Nat.leb n 32).

Definition is_digit (c : ascii) : bool :=
  let n := nat_of_ascii c in Nat.leb 48 n && Nat.leb n 57.

Definition is_lower (c : ascii) : bool :=
  let n := nat_of_ascii c in Nat.leb 97 n && Nat.leb n 122.

Definition is_upper (c : ascii) : bool :=
  let n := nat_of_ascii c in Nat.leb 65 n && Nat.leb n 90.

(** The regular expressions' [\w] on ASCII. *)
Definition is_word (c : ascii) : bool :=
  is_digit c || is_lower c || is_upper c || Ascii.eqb c "_".

Definition is_newline (c : ascii) : bool := Ascii.eqb c "010".

(** [s.startswith(p)] *)
Fixpoint startswith (p s : string) : bool :=
  match p, s with
  | EmptyString, _ => true
  | String a p', String b s' => Ascii.eqb a b && startswith p' s'
  | String _ _, EmptyString => false
  end.

(** [p in s] for two strings *)
Fixpoint contains (p s : string) : bool :=
  startswith p s ||
  match s with
  | EmptyString => false
  | String _ s' => contains p s'
  end.

Fixpoint lstrip (s : string) : string :=
  match s with
  | String c s' => if is_space c then lstrip s' else s
  | EmptyString => EmptyString
  end.

Fixpoint rstrip (s : string) : string :=
  match s with
  | EmptyString => EmptyString
  | String c s' =>
      match rstrip s' with
      | EmptyString => if is_space c then EmptyString else String c EmptyString
      | r => String c r
      end
  end.

(** [s.strip()] *)
Definition strip (s : string) : string := rstrip (lstrip s).

Fixpoint endswith_char (c : ascii) (s : string) : bool :=
  match s with
  | EmptyString => false
  | String a EmptyString => Ascii.eqb a c
  | String _ s' => endswith_char c s'
  end.

Definition lower_char (c : ascii) : ascii :=
  if is_upper c then ascii_of_nat (nat_of_ascii c + 32) else c.

(** [s.lower()] *)
Fixpoint lower (s : string) : string :=
  match s with
  | EmptyString => EmptyString
  | String c s' => String (lower_char c) (lower s')
  end.

(** [s.count('\n')] *)
Fixpoint count_newlines (s : string) : nat :=
  match s with
  | EmptyString => 0
  | String c s' => (if is_newline c then 1 else 0) + count_newlines s'
  end.

(** [s.split(sep)] for a one-character separator *)
Fixpoint split (sep : ascii) (s : string) : list string :=
  match s with
  | EmptyString => [EmptyString]
  | String c s' =>
      if Ascii.eqb c sep then EmptyString :: split sep s'
      else match split sep s' with
           | w :: ws => String c w :: ws
           | [] => [String c EmptyString]
           end
  end.

(** [sep.join(l)] *)
Fixpoint join (sep : string) (l : list string) : string :=
  match l with
  | [] => ""
  | [x] => x
  | x :: rest => x ++ sep ++ join sep rest
  end.

(** [s[:n]] *)
Definition take (n : nat) (s : string) : string := substring 0 n s.

Definition is_empty (s : string) : bool :=
  match s with EmptyString => true | _ => false end.

(** Every character of [s] satisfies [p]. *)
Fixpoint all_chars (p : ascii -> bool) (s : string) : bool :=
  match s with
  | EmptyString => true
  | String c s' => p c && all_chars p s'
  end.

(** A character of ASCII.  On these characters the classes above are the
    classes of Python: [str.isspace] and the regular expressions' [\s], [\w]
    and [\d].  Beyond ASCII Python's classes and [str.strip] take further
    characters (the no-break space, accented letters), which no class here
    takes: what is stated about the scan of a text is stated about ASCII
    text. *)
Definition is_ascii_char (c : ascii) : bool := Nat.ltb (nat_of_ascii c) 128.

(** [s.isascii()] *)
Definition is_ascii (s : string) : bool := all_chars is_ascii_char s.

(** The longest prefix whose characters satisfy [p], and the rest: a greedy
    [[class]*]. *)
Fixpoint span (p : ascii -> bool) (s : string) : string * string :=
  match s with
  | EmptyString => (EmptyString, EmptyString)
  | String c s' =>
      if p c then let (a, b) := span p s' in (String c a, b)
      else (EmptyString, s)
  end.

(** The text up to the end of the line, and the rest (which starts with the
    newline, when there is one): [.*] followed by a multi-line [$]. *)
Definition break_line (s : string) : string * string :=
  span (fun c => negb (is_newline c)) s.

(** [s[len(p):]] when [s.startswith(p)] *)
Fixpoint strip_prefix (p s : string) : option string :=
  match p, s with
  | EmptyString, _ => Some s
  | String a p', String b s' => if Ascii.eqb a b then strip_prefix p' s' else None
  | String _ _, EmptyString => None
  end.

(** The first occurrence of [pat] in [s]: the text before it and the text
    after it. *)
Fixpoint find_sub (pat s : string) : option (string * string) :=
  match strip_prefix pat s with
  | Some rest => Some (EmptyString, rest)
  | None =>
      match s with
      | EmptyString => None
      | String c s' =>
          match find_sub pat s' with
          | Some (before, rest) => Some (String c before, rest)
          | None => None
          end
      end
  end.

(** The suffix of [s] that starts at its last character other than a
    newline. *)
Fixpoint last_line_start (s : string) : option string :=
  match s with
  | EmptyString => None
  | String c s' =>
      match last_line_start s' with
      | Some r => Some r
      | None => if is_newline c then None else Some s
      end
  end.

(** [s[n:]] *)
Fixpoint skip (n : nat) (s : string) : string :=
  match n, s with
  | O, _ => s
  | S n', String _ s' => skip n' s'
  | S _, EmptyString => EmptyString
  end.

(** A match of [\s+(.+)$] (for [min_ws = 1]) or [\s*(.+)$] (for [min_ws = 0])
    at the head of [s], in multi-line mode: the group and the text after the
    match.  The white space is taken greedily, newlines included; the group
    is one line's text and has at least one character.  When the white space
    runs to the end of the text the matcher gives characters back until one
    that is not a newline is left for the group. *)
Definition ws_then_text (min_ws : nat) (s : string) : option (string * string) :=
  let (w, rest) := span is_space s in
  if Nat.ltb (String.length w) min_ws then None
  else match rest with
       | String _ _ => Some (break_line rest)
       | EmptyString =>
           match last_line_start (skip min_ws w) with
           | Some g => Some (break_line g)
           | None => None
           end
       end.

(** A match of [^marker] followed by [ws_then_text], at a line start [s]. *)
Definition line_match (marker : string) (min_ws : nat) (s : string)
  : option (string * string) :=
  match strip_prefix marker s with
  | Some s' => ws_then_text min_ws s'
  | None => None
  end.

(** [re.search] of such a pattern in multi-line mode: group 1 of the first
    match.  [bol] tells whether [s] starts a line. *)
Fixpoint search_line_match (marker : string) (min_ws : nat) (bol : bool)
         (s : string) : option string :=
  match s with
  | EmptyString => None
  | String c s' =>
      match (if bol then line_match marker min_ws s else None) with
      | Some (g, _) => Some g
      | None => search_line_match marker min_ws (is_newline c) s'
      end
  end.

(** [re.search('^' + p, s, re.MULTILINE)] for a literal [p]: some line of [s]
    starts with [p]. *)
Fixpoint line_startswith (p : string) (bol : bool) (s : string) : bool :=
  (bol && startswith p s) ||
  match s with
  | EmptyString => false
  | String c s' => line_startswith p (is_newline c) s'
  end.

Lemma span_append (p : ascii -> bool) (s : string) :
  (fst (span p s) ++ snd (span p s))%string = s.
Proof.
  induction s as [|c s IH]; simpl; [reflexivity|].
  destruct (p c); [|reflexivity].
  destruct (span p s); simpl in *. now rewrite IH.
Qed.

Lemma append_length (a b : string) :
  String.length (a ++ b)%string = String.length a + String.length b.
Proof. induction a as [|c a IH]; simpl; [reflexivity | now rewrite IH]. Qed.

Lemma span_length (p : ascii -> bool) (s : string) :
  String.length (fst (span p s)) + String.length (snd (span p s))
  = String.length s.
Proof. rewrite <- append_length, span_append. reflexivity. Qed.

Lemma strip_prefix_length (p s r : string) :
  strip_prefix p s = Some r ->
  String.length r + String.length p = String.length s.
Proof.
  revert s; induction p as [|a p IH]; intros [|b s]; simpl; intros H;
    try discriminate; try (injection H as <-; simpl; lia).
  destruct (Ascii.eqb a b); [|discriminate].
  apply IH in H. lia.
Qed.

Lemma last_line_start_length (s r : string) :
  last_line_start s = Some r -> String.length r <= String.length s.
Proof.
  revert r; induction s as [|c s IH]; simpl; intros r H; [discriminate|].
  destruct (last_line_start s) as [r'|].
  - injection H as <-. specialize (IH _ eq_refl). lia.
  - destruct (is_newline c); [discriminate|]. injection H as <-. simpl; lia.
Qed.

Lemma skip_length (n : nat) (s : string) :
  String.length (skip n s) <= String.length s.
Proof.
  revert s; induction n as [|n IH]; intros [|c s]; simpl; try lia.
  specialize (IH s). lia.
Qed.

Lemma ws_then_text_length (min_ws : nat) (s g r : string) :
  ws_then_text min_ws s = Some (g, r) -> String.length r <= String.length s.
Proof.
  unfold ws_then_text, break_line.
  pose proof (span_length is_space s) as Hs.
  destruct (span is_space s) as [w rest]; simpl in Hs.
  destruct (Nat.ltb (String.length w) min_ws); [discriminate|].
  destruct rest as [|c rest].
  - destruct (last_line_start (skip min_ws w)) as [g'|] eqn:E; [|discriminate].
    intros H.
    pose proof (span_length (fun c => negb (is_newline c)) g') as Hg.
    destruct (span (fun c => negb (is_newline c)) g') as [x y].
    injection H as _ <-. simpl in *.
    apply last_line_start_length in E.
    pose proof (skip_length min_ws w). lia.
  - intros H.
    pose proof (span_length (fun c => negb (is_newline c)) (String c rest)) as Hg.
    destruct (span (fun c => negb (is_newline c)) (String c rest)) as [x y].
    injection H as _ <-. simpl in *. lia.
Qed.

Lemma line_match_length (marker : string) (min_ws : nat) (s g r : string) :
  line_match marker min_ws s = Some (g, r) ->
  String.length r + String.length marker <= String.length s.
Proof.
  unfold line_match.
  destruct (strip_prefix marker s) as [s'|] eqn:E; [|discriminate].
  intros H. apply ws_then_text_length in H.
  apply strip_prefix_length in E. lia.
Qed.

End Str.

(** ** Python values

    What [yaml.safe_load] returns, and what [Parameter.default] and the
    [metadata] dictionary hold.  A dictionary is the list of its items in
    insertion order (its keys are distinct and, as the annotations
    [Dict[str, Any]] have it, strings).  [VOther] stands for the remaining
    scalars of the loader (timestamps, binary data), which support neither
    [in] nor indexing. *)

Inductive value : Type :=
| VNone
| VBool (b : bool)
| VInt (z : Z)
| VFloat (f : spec_float)
| VStr (s : string)
| VList (l : list value)
| VSet (l : list value)
| VDict (d : list (string * value))
| VOther (repr : string).

(** A dictionary with string keys: its items in insertion order. *)
Module Dict.

Definition t (V : Type) : Type := list (string * V).

(** [d.get(k)] as an option: [k in d] is [mem], [d[k]] the content. *)
Fixpoint get {V : Type} (d : t V) (k : string) : option V :=
  match d with
  | [] => None
  | (k', v) :: rest => if String.eqb k' k then Some v else get rest k
  end.

Definition mem {V : Type} (d : t V) (k : string) : bool :=
  match get d k with Some _ => true | None => false end.

(** [d[k] = v]: the value is replaced in place, a new key goes last. *)
Fixpoint set {V : Type} (d : t V) (k : string) (v : V) : t V :=
  match d with
  | [] => [(k, v)]
  | (k', v') :: rest =>
      if String.eqb k' k then (k', v) :: rest else (k', v') :: set rest k v
  end.

(** [list(d.keys())] *)
Definition keys {V : Type} (d : t V) : list string := map fst d.

End Dict.

Definition dict : Type := Dict.t value.

(** An [Optional[...]] field: Python's [None] is the absent value. *)
Definition optional (v : value) : option value :=
  match v with
  | VNone => None
  | _ => Some v
  end.

(** ** contract_extractor.py: the data model *)

Inductive FileType : Type := YAML | PYTHON | REGO | MARKDOWN | UNKNOWN.

(** [Parameter] in the source; the word is reserved here. *)
Record Param : Type := mkParam {
  name : string;
  type : option string;
  required : bool;
  default : option value;
  description : option string
}.

Record ContractBoundary : Type := mkContractBoundary {
  file_path : string;
  file_type : FileType;
  parameters : list Param;
  metadata : dict
}.

(** ** yaml_extractor.py *)

Module YAMLContractExtractor.

Definition _infer_type (v : value) : string :=
  match v with
  | VBool _ => "boolean"
  | VInt _ => "integer"
  | VFloat _ => "number"
  | VStr _ => "string"
  | VList _ => "array"
  | VDict _ => "object"
  | _ => "unknown"
  end.

(** [f"{prefix}{key}" if prefix else key] *)
Definition param_name (prefix key : string) : string :=
  if Str.is_empty prefix then key else prefix ++ key.

(** The [Parameter] the loop body builds for one item. *)
Definition item_param (prefix key : string) (v : value) : Param :=
  {| name := param_name prefix key;
     type := Some (_infer_type v);
     required := false;
     default := match v with
                | VDict _ | VList _ => None
                | _ => optional v
                end;
     description := None |}.

(** The loop of [_extract_for_provider] together with its guarded recursive
    call: [nested prefix v] is [_extract_for_provider(v, prefix)] when [v]
    is a dictionary and the empty list otherwise
    ([if isinstance(value, dict): ...]). *)
Fixpoint nested (prefix : string) (v : value) {struct v} : list Param :=
  match v with
  | VDict d =>
      flat_map (fun kv =>
                  item_param prefix (fst kv) (snd kv)
                  :: nested (param_name prefix (fst kv) ++ ".") (snd kv)) d
  | _ => []
  end.

Definition type_name (v : value) : string :=
  match v with
  | VNone => "NoneType"
  | VBool _ => "bool"
  | VInt _ => "int"
  | VFloat _ => "float"
  | VStr _ => "str"
  | VList _ => "list"
  | VSet _ => "set"
  | VDict _ => "dict"
  | VOther r => r
  end.

(** [for_provider.items()] exists on a dictionary only. *)
Definition _extract_for_provider (for_provider : value) (prefix : string)
  : result (list Param) :=
  match for_provider with
  | VDict _ => Ok (nested prefix for_provider)
  | _ => Raise (AttributeError
                  ("'" ++ type_name for_provider ++ "' object has no attribute 'items'"))
  end.

Definition is_str (k : string) (v : value) : bool :=
  match v with VStr s => String.eqb s k | _ => false end.

(** [key in container] for a string key *)
Definition py_in (k : string) (container : value) : result bool :=
  match container with
  | VDict d => Ok (Dict.mem d k)
  | VStr s => Ok (Str.contains k s)
  | VList l | VSet l => Ok (existsb (is_str k) l)
  | _ => Raise (TypeError
                  ("argument of type '" ++ type_name container ++ "' is not iterable"))
  end.

(** [container[key]] for a string key, after [key in container] held *)
Definition py_getitem (container : value) (k : string) : result value :=
  match container with
  | VDict d =>
      match Dict.get d k with
      | Some v => Ok v
      | None => Raise (KeyError k)
      end
  | VStr _ => Raise (TypeError "string indices must be integers, not 'str'")
  | VList _ => Raise (TypeError "list indices must be integers or slices, not str")
  | _ => Raise (TypeError
                  ("'" ++ type_name container ++ "' object is not subscriptable"))
  end.

Fixpoint copy_keys (ks : list string) (metadata_dict : value) (acc : dict)
  : result dict :=
  match ks with
  | [] => Ok acc
  | key :: rest =>
      present <- py_in key metadata_dict ;;
      if present : bool then
        v <- py_getitem metadata_dict key ;;
        copy_keys rest metadata_dict (Dict.set acc key v)
      else copy_keys rest metadata_dict acc
  end.

Definition _extract_metadata (metadata_dict : value) : result dict :=
  copy_keys ["name"; "namespace"; "labels"; "annotations"] metadata_dict [].

(** [extract], from the loaded document on: [data] is the result of
    [yaml.safe_load], an error message when opening or parsing failed. *)
Definition extract_loaded (loaded : string + value) (path : string)
  : result ContractBoundary :=
  match loaded with
  | inl e => Raise (ContractExtractionError ("Failed to parse YAML: " ++ e))
  | inr (VDict data) =>
      md <- match Dict.get data "metadata" with
            | Some m => _extract_metadata m
            | None => Ok []
            end ;;
      match Dict.get data "spec" with
      | Some (VDict spec) =>
          params <- match Dict.get spec "forProvider" with
                    | Some fp => _extract_for_provider fp ""
                    | None => Ok []
                    end ;;
          let md' := match Dict.get spec "compositeTypeRef" with
                     | Some ref => Dict.set md "compositeTypeRef" ref
                     | None => md
                     end in
          Ok {| file_path := path; file_type := YAML;
                parameters := params; metadata := md' |}
      | _ =>
          Ok {| file_path := path; file_type := YAML;
                parameters := []; metadata := md |}
      end
  | inr _ => Raise (ContractExtractionError "YAML file must contain a dictionary")
  end.

Section WithLoader.
(** [open(file_path)] followed by [yaml.safe_load]. *)
Variable safe_load : string -> string + value.

Definition extract (path : string) : result ContractBoundary :=
  extract_loaded (safe_load path) path.
End WithLoader.

End YAMLContractExtractor.

(** ** python_extractor.py *)

Module PythonContractExtractor.

(** An annotation, as [ast.unparse] renders it: the trees are those whose
    annotations it renders (on an expression nested too deep it raises
    [RecursionError], outside the [try] of [extract]). *)
Definition expr : Type := string.

(** [ast.arg] *)
Record ast_arg : Type := mk_arg {
  arg : string;
  annotation : option expr
}.

(** The target of an annotated assignment: [ast.Name] or anything else
    (an attribute, a subscript). *)
Inductive target : Type :=
| Name (id : string)
| OtherTarget.

(** The syntax tree, as far as the extractor looks at it.  [args] is
    [node.args.args]; [Other] is any other node under which statements can
    occur (a compound statement, an exception handler, a match case), with
    those children in field order.  Expression nodes hold no declaration and
    are left out: [ast.walk] yields them, and the loop skips them. *)
Inductive node : Type :=
| Module (body : list node)
| FunctionDef (nm : string) (args : list ast_arg) (body : list node)
              (returns : option expr)
| AsyncFunctionDef (nm : string) (args : list ast_arg) (body : list node)
                   (returns : option expr)
| ClassDef (nm : string) (body : list node)
| AnnAssign (tgt : target) (ann : expr)
| Other (children : list node).

(** [ast.iter_child_nodes] *)
Definition iter_child_nodes (n : node) : list node :=
  match n with
  | Module body => body
  | FunctionDef _ _ body _ => body
  | AsyncFunctionDef _ _ body _ => body
  | ClassDef _ body => body
  | AnnAssign _ _ => []
  | Other children => children
  end.

Fixpoint size (n : node) : nat :=
  let sizes := fix sizes (l : list node) : nat :=
    match l with
    | [] => 0
    | c :: rest => size c + sizes rest
    end in
  match n with
  | Module body => S (sizes body)
  | FunctionDef _ _ body _ => S (sizes body)
  | AsyncFunctionDef _ _ body _ => S (sizes body)
  | ClassDef _ body => S (sizes body)
  | AnnAssign _ _ => 1
  | Other children => S (sizes children)
  end.

Fixpoint forest_size (l : list node) : nat :=
  match l with
  | [] => 0
  | c :: rest => size c + forest_size rest
  end.

Lemma size_children (n : node) : size n = S (forest_size (iter_child_nodes n)).
Proof.
  assert (H : forall l, (fix sizes (l : list node) : nat :=
                           match l with
                           | [] => 0
                           | c :: rest => size c + sizes rest
                           end) l = forest_size l).
  { induction l as [|c l IH]; simpl; [reflexivity | now rewrite IH]. }
  destruct n; simpl; rewrite ?H; reflexivity.
Qed.

Lemma forest_size_app (a b : list node) :
  forest_size (a ++ b) = forest_size a + forest_size b.
Proof. induction a as [|c a IH]; simpl; [reflexivity | rewrite IH; lia]. Qed.

(** [ast.walk], on its queue:
    [while todo: node = todo.popleft(); todo.extend(iter_child_nodes(node)); yield node] *)
Equations? walk_queue (todo : list node) : list node
  by wf (forest_size todo) lt :=
  walk_queue [] := [];
  walk_queue (n :: rest) := n :: walk_queue (rest ++ iter_child_nodes n).
Proof.
  rewrite forest_size_app, (size_children n). lia.
Qed.

Definition walk (tree : node) : list node := walk_queue [tree].

Definition is_self_or_cls (s : string) : bool :=
  String.eqb s "self" || String.eqb s "cls".

Definition _extract_function_params (nm : string) (args : list ast_arg)
           (returns : option expr) : list Param :=
  flat_map (fun a =>
              if is_self_or_cls (arg a) then []
              else [{| name := nm ++ "." ++ arg a;
                       type := annotation a;
                       required := true;
                       default := None;
                       description := None |}]) args
  ++ match returns with
     | Some r => [{| name := nm ++ ".return";
                     type := Some r;
                     required := false;
                     default := None;
                     description := None |}]
     | None => []
     end.

(** The flag [is_dataclass] is computed and never read; an [AnnAssign]
    always has its annotation. *)
Definition _extract_class_params (nm : string) (body : list node) : list Param :=
  flat_map (fun item =>
              match item with
              | AnnAssign (Name attr_name) attr_type =>
                  [{| name := nm ++ "." ++ attr_name;
                      type := Some attr_type;
                      required := true;
                      default := None;
                      description := None |}]
              | _ => []
              end) body.

(** [metadata['classes'].append(name)], the list created on first use. *)
Definition append_class (md : dict) (nm : string) : dict :=
  match Dict.get md "classes" with
  | Some (VList l) => Dict.set md "classes" (VList (l ++ [VStr nm]))
  | _ => Dict.set md "classes" (VList [VStr nm])
  end.

(** What one node of the walk adds to [parameters]. *)
Definition node_params (n : node) : list Param :=
  match n with
  | FunctionDef nm args _ returns
  | AsyncFunctionDef nm args _ returns =>
      if Str.startswith "_" nm then []
      else _extract_function_params nm args returns
  | ClassDef nm body => _extract_class_params nm body
  | _ => []
  end.

(** One turn of the loop over [ast.walk(tree)]. *)
Definition visit (st : list Param * dict) (n : node) : list Param * dict :=
  let (params, md) := st in
  match n with
  | ClassDef nm _ => (params ++ node_params n, append_class md nm)
  | _ => (params ++ node_params n, md)
  end.

Definition extract_parsed (parsed : string + node) (path : string)
  : result ContractBoundary :=
  match parsed with
  | inl e => Raise (ContractExtractionError ("Failed to parse Python file: " ++ e))
  | inr tree =>
      let (params, md) := fold_left visit (walk tree) ([], []) in
      Ok {| file_path := path; file_type := PYTHON;
            parameters := params; metadata := md |}
  end.

Section WithParser.
(** [open(file_path).read()] followed by [ast.parse]. *)
Variable parse : string -> string + node.

Definition extract (path : string) : result ContractBoundary :=
  extract_parsed (parse path) path.
End WithParser.

End PythonContractExtractor.


(** ** rego_extractor.py *)

Module RegoContractExtractor.

Section WithScans.
(** The three scans of the text are parameters:
    - [package_search]: group 1 of [re.search(r'package\s+([\w.]+)', content)];
    - [rule_heads]: groups 1 and 2 of each match of [rule_pattern], in order;
    - [input_refs]: the elements of [set(re.findall(input_pattern, content))]
      in the order the loop meets them (a set has no order of its own). *)
Variable package_search : string -> option string.
Variable rule_heads : string -> list (string * option string).
Variable input_refs : string -> list string.

Definition is_keyword (rule_name : string) : bool :=
  String.eqb rule_name "package" || String.eqb rule_name "import"
  || String.eqb rule_name "default".

Definition rule_param (rule_name : string) : Param :=
  {| name := rule_name; type := Some "rule"; required := false;
     default := None; description := None |}.

Definition input_param (nm : string) (req : bool) : Param :=
  {| name := nm; type := Some "input"; required := req;
     default := None; description := None |}.

(** [if rule_params: ... for p in rule_params.split(',')] *)
Definition head_params (rule_name : string) (rule_params : option string)
  : list Param :=
  match rule_params with
  | Some ps =>
      if Str.is_empty ps then []
      else map (fun p => input_param (rule_name ++ "." ++ Str.strip p) true)
               (Str.split "," ps)
  | None => []
  end.

Definition is_rule (p : Param) : bool :=
  match type p with
  | Some t => String.eqb t "rule"
  | None => false
  end.

Definition extract_text (text : string + string) (path : string)
  : result ContractBoundary :=
  match text with
  | inl e => Raise (ContractExtractionError ("Failed to read Rego file: " ++ e))
  | inr content =>
      let md := match package_search content with
                | Some p => Dict.set [] "package" (VStr p)
                | None => []
                end in
      let rules :=
        flat_map (fun head =>
                    if is_keyword (fst head) then []
                    else rule_param (fst head) :: head_params (fst head) (snd head))
                 (rule_heads content) in
      let inputs :=
        map (fun r => input_param ("input." ++ r) false) (input_refs content) in
      let params := rules ++ inputs in
      Ok {| file_path := path; file_type := REGO;
            parameters := params;
            metadata := Dict.set md "rules"
                          (VList (map (fun p => VStr (name p))
                                      (filter is_rule params))) |}
  end.

(** [open(file_path).read()]: an error message or the content. *)
Variable read_text : string -> string + string.

Definition extract (path : string) : result ContractBoundary :=
  extract_text (read_text path) path.

End WithScans.

End RegoContractExtractor.

(** ** markdown_extractor.py *)

Module MarkdownContractExtractor.

Definition inspect {A : Type} (a : A) : {b : A | a = b} := exist _ a eq_refl.

(** [re.split(r'^##\s+(.+?)$', content, flags=re.MULTILINE)]: the text before
    the first match, then for each match its group and the text up to the
    next match.  [acc] is the text since the last match, [bol] tells whether
    [s] starts a line. *)
Equations? split_from (bol : bool) (acc : string) (s : string) : list string
  by wf (String.length s) lt :=
split_from bol acc EmptyString := [acc];
split_from bol acc (String c s')
  with inspect (if bol then Str.line_match "##" 1 (String c s') else None) := {
  | exist _ (Some (g, rest)) _ := acc :: g :: split_from false EmptyString rest;
  | exist _ None _ :=
      split_from (Str.is_newline c) (acc ++ String c EmptyString) s' }.
Proof.
  destruct bol; [|discriminate].
  apply Str.line_match_length in e. simpl in *. lia.
Qed.

Definition re_split (content : string) : list string :=
  split_from true EmptyString content.

(** The loop [for i in range(1, len(parts), 2): if i + 1 < len(parts): ...]
    over [parts[1:]]. *)
Fixpoint fill_sections (sections : Dict.t string) (parts : list string)
  : Dict.t string :=
  match parts with
  | section_name :: section_content :: rest =>
      fill_sections
        (Dict.set sections (Str.strip section_name) (Str.strip section_content))
        rest
  | _ => sections
  end.

Definition _extract_sections (content : string) : Dict.t string :=
  fill_sections [] (tl (re_split content)).

Definition section_param (section : string * string) : Param :=
  {| name := fst section;
     type := Some "section";
     required := false;
     default := None;
     description := if Str.is_empty (snd section) then None
                    else Some (Str.take 200 (snd section)) |}.

Definition extract_text (text : string + string) (path : string)
  : result ContractBoundary :=
  match text with
  | inl e => Raise (ContractExtractionError ("Failed to read Markdown file: " ++ e))
  | inr content =>
      let md := match Str.search_line_match "#" 1 true content with
                | Some title => Dict.set [] "title" (VStr (Str.strip title))
                | None => []
                end in
      let sections := _extract_sections content in
      Ok {| file_path := path; file_type := MARKDOWN;
            parameters := map section_param sections;
            metadata := Dict.set md "sections"
                          (VList (map VStr (Dict.keys sections))) |}
  end.

Section WithReader.
(** [open(file_path).read()]: an error message or the content. *)
Variable read_text : string -> string + string.

Definition extract (path : string) : result ContractBoundary :=
  extract_text (read_text path) path.
End WithReader.

End MarkdownContractExtractor.

(** ** pathlib *)

Module Path.

(** The text before and after the last [c] of [s]. *)
Fixpoint rsplit (c : ascii) (s : string) : option (string * string) :=
  match s with
  | EmptyString => None
  | String a s' =>
      match rsplit c s' with
      | Some (b, e) => Some (String a b, e)
      | None => if Ascii.eqb a c then Some (EmptyString, s') else None
      end
  end.

(** The components of a path: what is between the slashes, the empty
    components and the [.] components dropped. *)
Definition components (p : string) : list string :=
  filter (fun x => negb (Str.is_empty x) && negb (String.eqb x "."))
         (Str.split "/" p).

(** [Path(p).name]: the last component, empty when there is none. *)
Definition name (p : string) : string := last (components p) EmptyString.

(** [Path(p).suffix]: [i = name.rfind('.')], and [name[i:]] when
    [0 < i < len(name) - 1]. *)
Definition suffix (p : string) : string :=
  match rsplit "." (name p) with
  | Some (b, e) =>
      if Str.is_empty b || Str.is_empty e then EmptyString
      else String "." e
  | None => EmptyString
  end.

(** [Path(p).stem]: [name[:i]] in the same case, else the whole name. *)
Definition stem (p : string) : string :=
  match rsplit "." (name p) with
  | Some (b, e) =>
      if Str.is_empty b || Str.is_empty e then name p
      else b
  | None => name p
  end.

End Path.

(** ** contract_extractor.py: the dispatcher *)

(** What the code reaches outside itself: the file system, the two parsers
    and the scans of the policy extractor.  [path_exists] is the answer of
    [Path.exists()] in a call in which it answers; a call in which the
    check itself raises [OSError] (a name too long, a directory that may
    not be searched) has no answer and is not described here. *)
Record World : Type := mkWorld {
  path_exists : string -> bool;
  read_text : string -> string + string;
  yaml_safe_load : string -> string + value;
  ast_parse : string -> string + PythonContractExtractor.node;
  rego_package_search : string -> option string;
  rego_rule_heads : string -> list (string * option string);
  rego_input_refs : string -> list string
}.

(** [open] followed by a parser, both inside one [try]. *)
Definition read_then {A : Type} (w : World) (parser : string -> string + A)
           (path : string) : string + A :=
  match read_text w path with
  | inl e => inl e
  | inr content => parser content
  end.

Definition mem_string (s : string) (l : list string) : bool :=
  existsb (String.eqb s) l.

Definition _detect_file_type (path : string) : FileType :=
  let suffix := Str.lower (Path.suffix path) in
  if mem_string suffix [".yaml"; ".yml"] then YAML
  else if String.eqb suffix ".py" then PYTHON
  else if String.eqb suffix ".rego" then REGO
  else if mem_string suffix [".md"; ".markdown"] then MARKDOWN
  else UNKNOWN.

Definition extract_contract_boundary (w : World) (path : string)
  : result ContractBoundary :=
  if negb (path_exists w path)
  then Raise (ContractExtractionError ("File not found: " ++ path))
  else
    match _detect_file_type path with
    | UNKNOWN => Raise (ContractExtractionError ("Unsupported file type: " ++ path))
    | YAML =>
        YAMLContractExtractor.extract (read_then w (yaml_safe_load w)) path
    | PYTHON =>
        PythonContractExtractor.extract (read_then w (ast_parse w)) path
    | REGO =>
        RegoContractExtractor.extract (rego_package_search w) (rego_rule_heads w)
          (rego_input_refs w) (read_text w) path
    | MARKDOWN =>
        MarkdownContractExtractor.extract (read_text w) path
    end.

(** ** mdx_validator.py *)

Module MdxValidator.

Record ValidationError : Type := mkValidationError {
  line : option nat;
  message : string;
  severity : string
}.

(** [ValidationError(line, message)], the severity left at its default. *)
Definition error (line : option nat) (message : string) : ValidationError :=
  {| line := line; message := message; severity := "error" |}.

Record ValidationResult : Type := mkValidationResult {
  valid : bool;
  errors : list ValidationError;
  warnings : list ValidationError
}.

(** [[c.value for c in ComponentType]] *)
Definition valid_components : list string :=
  ["ParamField"; "Step"; "Steps"; "CodeBlock"; "Callout"].

(** *** The filename *)

Definition str_of_nat (n : nat) : string :=
  DecimalString.NilEmpty.string_of_uint (Nat.to_uint n).

(** [s] without the newline it may end with: where a [$] can match. *)
Fixpoint chomp (s : string) : string :=
  match s with
  | EmptyString => EmptyString
  | String c EmptyString => if Str.is_newline c then EmptyString else s
  | String c s' => String c (chomp s')
  end.

(** [re.match(r'^[a-z0-9]+(-[a-z0-9]+)*$', filename)] *)
Definition is_kebab (filename : string) : bool :=
  forallb (fun word =>
             negb (Str.is_empty word)
             && Str.all_chars (fun c => Str.is_lower c || Str.is_digit c) word)
          (Str.split "-" (chomp filename)).

(** [n] digits at the head of [s]: the text after them. *)
Fixpoint digits (n : nat) (s : string) : option string :=
  match n, s with
  | O, _ => Some s
  | S n', String c s' => if Str.is_digit c then digits n' s' else None
  | S _, EmptyString => None
  end.

Definition then_dash (s : option string) : option string :=
  match s with
  | Some (String "-" s') => Some s'
  | _ => None
  end.

Definition is_some {A : Type} (o : option A) : bool :=
  match o with Some _ => true | None => false end.

(** A match of [\d{4}-\d{2}-\d{2}|\d{8}|\d{10}] at the head of [s]. *)
Definition timestamp_at (s : string) : bool :=
  is_some (match then_dash (digits 4 s) with
           | Some s1 => match then_dash (digits 2 s1) with
                        | Some s2 => digits 2 s2
                        | None => None
                        end
           | None => None
           end)
  || is_some (digits 8 s)
  || is_some (digits 10 s).

(** [re.search] of that pattern *)
Fixpoint has_timestamp (s : string) : bool :=
  timestamp_at s ||
  match s with
  | EmptyString => false
  | String _ s' => has_timestamp s'
  end.

Definition _validate_filename (path : string) : list ValidationError :=
  let filename := Path.stem path in
  let words := Str.split "-" filename in
  (if String.eqb (Path.suffix path) ".mdx" then []
   else [error None ("File must have .mdx extension, got: " ++ Path.suffix path)])
  ++ (if is_kebab filename then []
      else [error None ("Filename must be kebab-case: " ++ filename)])
  ++ (if Nat.ltb 3 (List.length words)
      then [error None ("Filename must have max 3 words, got "
                        ++ str_of_nat (List.length words) ++ ": " ++ filename)]
      else [])
  ++ (if has_timestamp filename
      then [error None ("Filename must not contain timestamps: " ++ filename)]
      else []).

(** *** The frontmatter *)

(** Group 1 of [re.match(r'^---\n(.*?)\n---', content, re.DOTALL)] *)
Definition frontmatter_of (content : string) : option string :=
  match Str.strip_prefix ("---" ++ Str.nl) content with
  | Some rest =>
      match Str.find_sub (Str.nl ++ "---") rest with
      | Some (frontmatter, _) => Some frontmatter
      | None => None
      end
  | None => None
  end.

Definition required_fields : list string := ["title"; "category"; "description"].

Definition valid_categories : list string := ["spec"; "runbook"; "adr"].

Definition _validate_frontmatter (content : string) : list ValidationError :=
  match frontmatter_of content with
  | None => [error (Some 1) "Missing frontmatter section (must start with ---)"]
  | Some frontmatter =>
      flat_map (fun field =>
                  if Str.line_startswith (field ++ ":") true frontmatter then []
                  else [error None ("Missing required frontmatter field: " ++ field)])
               required_fields
      ++ match Str.search_line_match "category:" 0 true frontmatter with
         | Some g =>
             let category := Str.strip g in
             if mem_string category valid_categories then []
             else [error None ("Invalid category '" ++ category
                               ++ "', must be one of: "
                               ++ Str.join ", " valid_categories)]
         | None => []
         end
  end.

(** *** The components *)

(** A match of [tag_pattern] (with [closing_ok]) or of [component_pattern]
    (without): a [<], for the tag pattern an optional slash, a name of word
    characters, any characters other than [>], an optional slash, a [>].
    The record holds where the match starts, whether the slash group matched,
    the name and the attribute group. *)
Record tag_match : Type := mkTagMatch {
  start : nat;
  slash : bool;
  tag : string;
  attributes : string
}.

(** The match at a [<], [s] being the text after it: the groups and the text
    after the match.  The name is the longest run of word characters; the
    attribute group runs to the first [>] and takes a final slash with it. *)
Definition match_tag (closing_ok : bool) (s : string)
  : option (bool * string * string * string) :=
  let (is_closing, s1) :=
    match s with
    | String "/" s' => if closing_ok then (true, s') else (false, s)
    | _ => (false, s)
    end in
  let (nm, s2) := Str.span Str.is_word s1 in
  if Str.is_empty nm then None
  else match Str.find_sub ">" s2 with
       | Some (attrs, rest) => Some (is_closing, nm, attrs, rest)
       | None => None
       end.

Lemma find_sub_length (pat s b r : string) :
  Str.find_sub pat s = Some (b, r) ->
  String.length b + String.length pat + String.length r = String.length s.
Proof.
  revert b r; induction s as [|c s IH]; intros b r; simpl.
  - destruct (Str.strip_prefix pat "") as [x|] eqn:E; [|discriminate].
    intros H; injection H as <- <-. apply Str.strip_prefix_length in E.
    simpl in *. lia.
  - destruct (Str.strip_prefix pat (String c s)) as [x|] eqn:E.
    + intros H; injection H as <- <-. apply Str.strip_prefix_length in E.
      simpl in *. lia.
    + destruct (Str.find_sub pat s) as [[b' r']|]; [|discriminate].
      intros H; injection H as <- <-. specialize (IH _ _ eq_refl).
      simpl. lia.
Qed.

Lemma match_tag_length (closing_ok : bool) (s : string) m (rest : string) :
  match_tag closing_ok s = Some (m, rest) ->
  String.length rest < String.length s.
Proof.
  unfold match_tag.
  set (p := match s with
            | String "/" s' => if closing_ok then (true, s') else (false, s)
            | _ => (false, s)
            end).
  assert (Hp : String.length (snd p) <= String.length s).
  { subst p. destruct s as [|c s]; simpl; [lia|].
    destruct c as [[] [] [] [] [] [] [] []]; simpl; try lia.
    destruct closing_ok; simpl; lia. }
  destruct p as [is_closing s1]; simpl in Hp.
  pose proof (Str.span_length Str.is_word s1) as Hs.
  destruct (Str.span Str.is_word s1) as [nm s2]; simpl in Hs.
  destruct (Str.is_empty nm); [discriminate|].
  destruct (Str.find_sub ">" s2) as [[attrs r]|] eqn:E; [|discriminate].
  intros H; injection H as _ <-.
  apply find_sub_length in E. simpl in E. lia.
Qed.

(** [re.finditer] of the tag pattern over the text [s], which starts at
    offset [pos] of the content. *)
Equations? finditer (closing_ok : bool) (pos : nat) (s : string)
  : list tag_match by wf (String.length s) lt :=
finditer closing_ok pos EmptyString := [];
finditer closing_ok pos (String c s')
  with MarkdownContractExtractor.inspect
         (if Ascii.eqb c "<" then match_tag closing_ok s' else None) := {
  | exist _ (Some (is_closing, nm, attrs, rest)) _ :=
      {| start := pos; slash := is_closing; tag := nm; attributes := attrs |}
      :: finditer closing_ok (pos + (S (String.length s') - String.length rest)) rest;
  | exist _ None _ := finditer closing_ok (S pos) s' }.
Proof.
  destruct (Ascii.eqb c "<"); [|discriminate].
  apply match_tag_length in e. simpl. lia.
Qed.

(** [content[:match.start()].count('\n') + 1] *)
Definition line_of (content : string) (m : tag_match) : nat :=
  Str.count_newlines (Str.take (start m) content) + 1.

(** ['a=' not in attributes and 'a =' not in attributes] *)
Definition lacks (attr attributes : string) : bool :=
  negb (Str.contains (attr ++ "=") attributes)
  && negb (Str.contains (attr ++ " =") attributes).

(** The body of the loop over the component matches. *)
Definition component_errors (component_name attributes : string) (line_num : nat)
  : list ValidationError :=
  if negb (mem_string component_name valid_components)
  then [error (Some line_num)
              ("Unknown component: " ++ component_name ++ ". Allowed: "
               ++ Str.join ", " valid_components)]
  else if String.eqb component_name "ParamField"
  then (if lacks "path" attributes
        then [error (Some line_num) "ParamField requires 'path' attribute"]
        else [])
       ++ (if lacks "type" attributes
           then [error (Some line_num) "ParamField requires 'type' attribute"]
           else [])
  else if String.eqb component_name "Step"
  then (if lacks "title" attributes
        then [error (Some line_num) "Step requires 'title' attribute"]
        else [])
  else [].

(** What the balance check reads off a match of the tag pattern. *)
Record tag_token : Type := mkTagToken {
  is_closing : bool;
  tag_name : string;
  is_self_closing : bool;
  line_num : nat
}.

Definition token_of (content : string) (m : tag_match) : tag_token :=
  {| is_closing := slash m;
     tag_name := tag m;
     is_self_closing := Str.endswith_char "/" (attributes m);
     line_num := line_of content m |}.

Definition tag_tokens (content : string) : list tag_token :=
  map (token_of content) (finditer true 0 content).

(** [tag_stack[-1]], when the list is not empty *)
Fixpoint top {A : Type} (stack : list A) : option A :=
  match stack with
  | [] => None
  | [x] => Some x
  | _ :: rest => top rest
  end.

Definition closing_error (t : tag_token) : ValidationError :=
  error (Some (line_num t))
        ("Closing tag </" ++ tag_name t ++ "> without matching opening tag").

Definition unclosed_error (open : string * nat) : ValidationError :=
  error (Some (snd open)) ("Unclosed tag: <" ++ fst open ++ ">").

(** One turn of the loop over the tag matches: the errors so far and the
    stack, whose top is its last element ([append], [pop]). *)
Definition tag_step (st : list ValidationError * list (string * nat))
           (t : tag_token) : list ValidationError * list (string * nat) :=
  let (errs, tag_stack) := st in
  if is_closing t then
    match top tag_stack with
    | Some (open_name, _) =>
        if String.eqb open_name (tag_name t)
        then (errs, removelast tag_stack)
        else (errs ++ [closing_error t], tag_stack)
    | None => (errs ++ [closing_error t], tag_stack)
    end
  else if negb (is_self_closing t)
       then (errs, tag_stack ++ [(tag_name t, line_num t)])
       else (errs, tag_stack).

(** The loop, and the report of what is left on the stack. *)
Definition check_tokens (tokens : list tag_token) : list ValidationError :=
  let (errs, tag_stack) := fold_left tag_step tokens ([], []) in
  errs ++ map unclosed_error tag_stack.

Definition _check_unclosed_tags (content : string) : list ValidationError :=
  check_tokens (tag_tokens content).

Definition _validate_components (content : string) : list ValidationError :=
  flat_map (fun m => component_errors (tag m) (attributes m) (line_of content m))
           (finditer false 0 content)
  ++ _check_unclosed_tags content.

Definition is_nil {A : Type} (l : list A) : bool :=
  match l with [] => true | _ => false end.

Definition validate_mdx (w : World) (path : string) : ValidationResult :=
  if negb (path_exists w path)
  then {| valid := false;
          errors := [error None ("File not found: " ++ path)];
          warnings := [] |}
  else
    match read_text w path with
    | inl e => {| valid := false;
                  errors := [error None ("Failed to read file: " ++ e)];
                  warnings := [] |}
    | inr content =>
        let errs := _validate_filename path
                    ++ _validate_frontmatter content
                    ++ _validate_components content in
        {| valid := is_nil errs; errors := errs; warnings := [] |}
    end.

End MdxValidator.

(** * The vocabulary of the statements

    What the claims speak of and the code has no name for, and the inputs
    the claims are tried on. *)

(** ** Texts and worlds for the examples *)

Module Fixtures.

(** The double quote. *)
Definition q : string := String "034" EmptyString.

(** A text, from its lines, each ended by a newline. *)
Fixpoint text (lines : list string) : string :=
  match lines with
  | [] => EmptyString
  | l :: rest => (l ++ Str.nl ++ text rest)%string
  end.

(** A world with the given files and nothing to parse. *)
Definition world_of (files : Dict.t string) : World :=
  {| path_exists := Dict.mem files;
     read_text := fun p => match Dict.get files p with
                           | Some content => inr content
                           | None => inl "No such file or directory"
                           end;
     yaml_safe_load := fun _ => inl "no YAML here";
     ast_parse := fun _ => inl "no Python here";
     rego_package_search := fun _ => None;
     rego_rule_heads := fun _ => [];
     rego_input_refs := fun _ => [] |}.

End Fixtures.

(** ** The structured-data extractor *)

Module YAMLSpec.
Import YAMLContractExtractor.

(** The [metadata] step of [extract]. *)
Definition metadata_step (data : dict) : result dict :=
  match Dict.get data "metadata" with
  | Some m => _extract_metadata m
  | None => Ok []
  end.

(** [spec.forProvider], when [spec] is a mapping that has the key. *)
Definition for_provider_of (data : dict) : option value :=
  match Dict.get data "spec" with
  | Some (VDict spec) => Dict.get spec "forProvider"
  | _ => None
  end.

(** The keys [spec.forProvider] has at its first level. *)
Definition for_provider_keys (data : dict) : list string :=
  match for_provider_of data with
  | Some (VDict fp) => Dict.keys fp
  | _ => []
  end.

(** The key [status], or a key that starts with [status.] itself. *)
Definition is_status_key (k : string) : bool :=
  String.eqb k "status" || Str.startswith "status." k.

Definition is_dict (v : value) : bool :=
  match v with VDict _ => true | _ => false end.

(** The scenario's [tags] entry of [spec.forProvider]. *)
Definition tags : string * value :=
  ("tags", VDict [("environment", VStr "production"); ("team", VStr "platform")]).

Definition tags_params : list Param :=
  [ {| name := "tags"; type := Some "object"; required := false;
       default := None; description := None |};
    {| name := "tags.environment"; type := Some "string"; required := false;
       default := Some (VStr "production"); description := None |};
    {| name := "tags.team"; type := Some "string"; required := false;
       default := Some (VStr "platform"); description := None |} ].

(** The manifest [spec: {forProvider: {status: {ready: true}}}]. *)
Definition status_manifest : value :=
  VDict [("spec", VDict [("forProvider",
                          VDict [("status", VDict [("ready", VBool true)])])])].

(** The manifest of [test_extract_crossplane_yaml]. *)
Definition test_manifest : dict :=
  [ ("apiVersion", VStr "example.com/v1");
    ("kind", VStr "WebService");
    ("metadata", VDict [("name", VStr "test-service"); ("namespace", VStr "default")]);
    ("spec", VDict [ ("forProvider",
                      VDict [ ("region", VStr "us-east-1");
                              ("instanceType", VStr "t3.micro");
                              tags ]);
                     ("compositeTypeRef",
                      VDict [ ("apiVersion", VStr "example.com/v1");
                              ("kind", VStr "XWebService") ]) ]);
    ("status", VDict [("ready", VBool true)]) ].

Definition test_boundary : ContractBoundary :=
  Eval vm_compute in
    match extract_loaded (inr (VDict test_manifest)) "test.yaml" with
    | Ok b => b
    | Raise _ => {| file_path := ""; file_type := UNKNOWN;
                    parameters := []; metadata := [] |}
    end.

End YAMLSpec.

(** ** The source-code extractor *)

Module PythonSpec.
Import PythonContractExtractor.

(** Breadth-first order: a forest, then the children of its nodes, and so on,
    [fuel] levels deep. *)
Fixpoint levels (fuel : nat) (forest : list node) : list node :=
  match fuel with
  | O => []
  | S fuel' => forest ++ levels fuel' (flat_map iter_child_nodes forest)
  end.

(** Depth-first declaration order: a node, then each of its children with
    all that is below it, as the spec words the traversal. *)
Fixpoint dfs (n : node) : list node :=
  n :: match n with
       | Module body => flat_map dfs body
       | FunctionDef _ _ body _ => flat_map dfs body
       | AsyncFunctionDef _ _ body _ => flat_map dfs body
       | ClassDef _ body => flat_map dfs body
       | AnnAssign _ _ => []
       | Other children => flat_map dfs children
       end.

(** What the loop does to [metadata] at one node. *)
Definition visit_metadata (md : dict) (n : node) : dict :=
  match n with
  | ClassDef nm _ => append_class md nm
  | _ => md
  end.

(** [pass] *)
Definition Pass : node := Other [].

(** class A:
        x: int
        def m(self, a: int): pass
    def f(b: int): pass *)
Definition nested_module : node :=
  Module [ ClassDef "A" [ AnnAssign (Name "x") "int";
                          FunctionDef "m" [mk_arg "self" None; mk_arg "a" (Some "int")]
                                      [Pass] None ];
           FunctionDef "f" [mk_arg "b" (Some "int")] [Pass] None ].

(** class _Config:
        host: str
    def _helper(x: int): pass *)
Definition private_module : node :=
  Module [ ClassDef "_Config" [AnnAssign (Name "host") "str"];
           FunctionDef "_helper" [mk_arg "x" (Some "int")] [Pass] None ].

Definition private_boundary : ContractBoundary :=
  Eval vm_compute in
    match extract_parsed (inr private_module) "m.py" with
    | Ok b => b
    | Raise _ => {| file_path := ""; file_type := UNKNOWN;
                    parameters := []; metadata := [] |}
    end.

End PythonSpec.

(** ** The documentation validator *)

Module MdxSpec.
Import MdxValidator Fixtures.

Definition shift (n : nat) (m : tag_match) : tag_match :=
  {| start := n + start m; slash := slash m; tag := tag m;
     attributes := attributes m |}.

(** The token an entry of the stack was pushed for. *)
Definition opened_by (tokens : list tag_token) (entry : string * nat) : Prop :=
  exists t, In t tokens /\ is_closing t = false /\ is_self_closing t = false
            /\ entry = (tag_name t, line_num t).

(** No tag-balance violation: every opening tag that is not self-closing is
    closed by a tag of its name, and the pairs nest. *)
Inductive balanced : list tag_token -> Prop :=
| balanced_nil : balanced []
| balanced_self (t : tag_token) (rest : list tag_token) :
    is_closing t = false -> is_self_closing t = true ->
    balanced rest -> balanced (t :: rest)
| balanced_pair (o : tag_token) (inner : list tag_token) (c : tag_token)
                (rest : list tag_token) :
    is_closing o = false -> is_self_closing o = false ->
    is_closing c = true -> tag_name c = tag_name o ->
    balanced inner -> balanced rest ->
    balanced (o :: inner ++ c :: rest).

(** The attribute is written, with or without a space before the equals
    sign, anywhere among the attributes: after any text and before any
    text. *)
Definition has_attr (attr attributes : string) : Prop :=
  exists before after : string,
    attributes = (before ++ attr ++ "=" ++ after)%string
    \/ attributes = (before ++ attr ++ " =" ++ after)%string.

Definition has_required_attributes (m : tag_match) : Prop :=
  (tag m = "ParamField" ->
   has_attr "path" (attributes m) /\ has_attr "type" (attributes m))
  /\ (tag m = "Step" -> has_attr "title" (attributes m)).

Definition well_formed_component (m : tag_match) : Prop :=
  In (tag m) valid_components /\ has_required_attributes m.

Definition unknown_error (nm : string) (line_num : nat) : ValidationError :=
  error (Some line_num)
        ("Unknown component: " ++ nm
         ++ ". Allowed: ParamField, Step, Steps, CodeBlock, Callout").

Definition frontmatter_lines : list string :=
  ["---"; "title: Test"; "category: runbook"; "description: Test runbook"; "---"; ""].

(** A [Step] without title inside a [Steps] that is never closed. *)
Definition steps_doc : string :=
  text (frontmatter_lines
        ++ ["<Steps>"; "  <Step>"; "    Do something"; "  </Step>"]).

(** A [ParamField] with its attributes in the order type, path. *)
Definition param_doc : string :=
  text (frontmatter_lines
        ++ [ ("<ParamField type=" ++ q ++ "string" ++ q
              ++ " path=" ++ q ++ "config.host" ++ q ++ ">")%string;
             "  Test parameter";
             "</ParamField>" ]).

(** A self-closing component that is not on the whitelist. *)
Definition diagram_doc : string :=
  text (frontmatter_lines ++ ["<Diagram />"]).

End MdxSpec.

(** ** The dispatcher *)

Module DispatcherSpec.

(** A world whose one file is the manifest of the extractor's test. *)
Definition yaml_world : World :=
  {| path_exists := String.eqb "test.yaml";
     read_text := fun _ => inr "apiVersion: example.com/v1";
     yaml_safe_load := fun _ => inr (VDict YAMLSpec.test_manifest);
     ast_parse := fun _ => inl "invalid syntax";
     rego_package_search := fun _ => None;
     rego_rule_heads := fun _ => [];
     rego_input_refs := fun _ => [] |}.

End DispatcherSpec.

(** ** The section extractor *)

Module MarkdownSpec.
Import MarkdownContractExtractor.

(** The parts of [re.split] after the first, two by two: each level-2 heading
    the pattern finds, with the text up to the next one, both trimmed. *)
Fixpoint pairs (parts : list string) : list (string * string) :=
  match parts with
  | heading :: body :: rest => (Str.strip heading, Str.strip body) :: pairs rest
  | _ => []
  end.

(** The level-2 sections of a document, in document order. *)
Definition heading_sections (content : string) : list (string * string) :=
  pairs (tl (re_split content)).

(** The level-2 headings of a document, one per occurrence. *)
Definition headings (content : string) : list string :=
  map fst (heading_sections content).

(** The elements of [l] that are not in [seen], each at its first
    occurrence. *)
Fixpoint first_occurrences (seen l : list string) : list string :=
  match l with
  | [] => []
  | x :: rest =>
      if mem_string x seen then first_occurrences seen rest
      else x :: first_occurrences (seen ++ [x]) rest
  end.

(** The body of the last section named [nm]. *)
Fixpoint last_body (nm : string) (sections : list (string * string))
  : option string :=
  match sections with
  | [] => None
  | (heading, body) :: rest =>
      match last_body nm rest with
      | Some b => Some b
      | None => if String.eqb heading nm then Some body else None
      end
  end.

(** A line in which no newline is written. *)
Definition one_line (l : string) : Prop :=
  Str.all_chars (fun c => negb (Str.is_newline c)) l = true.

(** A line at which the pattern can start a match: [##], then white space
    or the end of the line. *)
Definition heading_like (l : string) : bool :=
  match Str.strip_prefix "##" l with
  | Some EmptyString => true
  | Some (String c _) => Str.is_space c
  | None => false
  end.

(** A line of narrative or of a section body. *)
Definition plain_line (l : string) : Prop :=
  one_line l /\ heading_like l = false.

(** The text of a heading: one line that starts with a character other than
    white space. *)
Definition title (t : string) : Prop :=
  one_line t /\ match t with
                | String c _ => Str.is_space c = false
                | EmptyString => False
                end.

(** A level-2 section as it is written: the heading line, then the lines of
    the body. *)
Definition render_section (section : string * list string) : string :=
  ("## " ++ fst section ++ Str.nl ++ Fixtures.text (snd section))%string.

Fixpoint render_sections (sections : list (string * list string)) : string :=
  match sections with
  | [] => EmptyString
  | s :: rest => (render_section s ++ render_sections rest)%string
  end.

(** A document as it is written: lines of narrative, then the sections. *)
Definition render (preamble : list string)
           (sections : list (string * list string)) : string :=
  (Fixtures.text preamble ++ render_sections sections)%string.

Definition written_section (section : string * list string) : Prop :=
  title (fst section) /\ Forall plain_line (snd section).

(** The runbook of [test_ignores_anecdotes]. *)
Definition runbook_preamble : list string :=
  [""; "# Issue Title"; "";
   "This is some background information that should be ignored."; ""].

Definition runbook_sections : list (string * list string) :=
  [ ("Symptoms", [""; "Actual symptoms here."; "";
                  "Some more anecdotal information between sections."; ""]);
    ("Resolution", [""; "Steps to resolve."]) ].

(** A runbook in which the heading [Steps] comes twice. *)
Definition repeated_doc : string :=
  Fixtures.text ["# Restart"; ""; "Background."; "";
                    "## Steps"; "first"; ""; "## Steps"; "second"].

Definition repeated_boundary : ContractBoundary :=
  Eval vm_compute in
    match extract_text (inr repeated_doc) "r.md" with
    | Ok b => b
    | Raise _ => {| file_path := ""; file_type := UNKNOWN;
                    parameters := []; metadata := [] |}
    end.

Definition set_section (d : Dict.t string) (section : string * string)
  : Dict.t string :=
  Dict.set d (fst section) (snd section).

End MarkdownSpec.

(** ** More on the structured-data extractor *)

Module YAMLTerms.
Import YAMLContractExtractor.

(** The keys [_extract_metadata] copies. *)
Definition metadata_keys : list string :=
  ["name"; "namespace"; "labels"; "annotations"].

(** [spec.compositeTypeRef], when [spec] is a mapping that has the key. *)
Definition composite_type_ref (data : dict) : option value :=
  match Dict.get data "spec" with
  | Some (VDict spec) => Dict.get spec "compositeTypeRef"
  | _ => None
  end.


(** The paths of keys in a value, a mapping before what it holds, in the
    order of the items. *)
Fixpoint key_paths (v : value) : list (list string) :=
  match v with
  | VDict d =>
      flat_map (fun kv => [fst kv] :: map (cons (fst kv)) (key_paths (snd kv))) d
  | _ => []
  end.

(** The names [_infer_type] gives. *)
Definition type_names : list string :=
  ["boolean"; "integer"; "number"; "string"; "array"; "object"; "unknown"].

(** A default is absent or a scalar: never a mapping, a list or [None]. *)
Definition scalar_default (p : Param) : bool :=
  match default p with
  | Some (VDict _) | Some (VList _) | Some VNone => false
  | _ => true
  end.


End YAMLTerms.

(** ** More on the source-code extractor *)

Module PythonTerms.
Import PythonContractExtractor.

(** [d] is the node [n] or lies below it, at any depth. *)
Inductive within : node -> node -> Prop :=
| within_self (n : node) : within n n
| within_child (n c d : node) :
    In c (iter_child_nodes n) -> within c d -> within n d.

(** The name of a class definition. *)
Definition class_name (n : node) : list string :=
  match n with
  | ClassDef nm _ => [nm]
  | _ => []
  end.

Definition class_names (l : list node) : list string := flat_map class_name l.

(** def _outer():
        async def fetch(self, url: str) -> bytes: pass *)
Definition hidden_module : node :=
  Module [ FunctionDef "_outer" []
             [ AsyncFunctionDef "fetch"
                 [mk_arg "self" None; mk_arg "url" (Some "str")]
                 [PythonSpec.Pass] (Some "bytes") ]
             None ].

End PythonTerms.

(** ** More on the runbook extractor *)

Module MarkdownTerms.
Import MarkdownContractExtractor MarkdownSpec.

(** A line at which the title pattern can start a match: [#], then white
    space or the end of the line. *)
Definition title_like (l : string) : bool :=
  match l with
  | String "#" EmptyString => true
  | String "#" (String c _) => Str.is_space c
  | _ => false
  end.

(** A line that is not a level-1 heading; a level-2 heading is one. *)
Definition untitled_line (l : string) : Prop :=
  one_line l /\ title_like l = false.

(** The values of a dictionary. *)
Definition values {V : Type} (d : Dict.t V) : list V := map snd d.

(** A text that was trimmed and is not empty: it starts with a character
    other than white space. *)
Definition starts_with_text (s : string) : Prop :=
  match s with
  | String c _ => Str.is_space c = false
  | EmptyString => False
  end.

(** Notes with a title below the first section. *)
Definition late_title_lines : list string :=
  ["## Symptoms"; "Pods restart."; ""].

End MarkdownTerms.

(** ** More on the documentation validator *)

Module MdxTerms.
Import MdxValidator MdxSpec.

(** What has been read when the stack is [stack]: balanced tags, and for
    each entry of the stack the tag that opened it, followed by balanced
    tags. *)
Inductive open_prefix : list (string * nat) -> list tag_token -> Prop :=
| open_none (read : list tag_token) :
    balanced read -> open_prefix [] read
| open_push (stack : list (string * nat)) (read : list tag_token)
            (o : tag_token) (inner : list tag_token) :
    open_prefix stack read ->
    is_closing o = false -> is_self_closing o = false ->
    balanced inner ->
    open_prefix (stack ++ [(tag_name o, line_num o)]) (read ++ o :: inner).

(** The character [c] is not written in [s]. *)
Definition lacks_char (c : ascii) (s : string) : bool :=
  Str.all_chars (fun x => negb (Ascii.eqb x c)) s.

(** [s.count(c)] *)
Fixpoint count_char (c : ascii) (s : string) : nat :=
  match s with
  | EmptyString => 0
  | String x s' => (if Ascii.eqb x c then 1 else 0) + count_char c s'
  end.

(** The error of the word limit. *)
Definition is_word_limit_error (e : ValidationError) : bool :=
  Str.startswith "Filename must have max 3 words" (message e).

(** The error of the timestamp check. *)
Definition timestamp_error (filename : string) : ValidationError :=
  error None ("Filename must not contain timestamps: " ++ filename).

(** A word of lower-case letters. *)
Definition lower_word (w : string) : Prop :=
  w <> EmptyString /\ Str.all_chars Str.is_lower w = true.






End MdxTerms.

(** ** More on the dispatcher and the policy extractor *)

Module DispatcherTerms.

(** The extensions the dispatcher knows, without their dot. *)
Definition extension_types : Dict.t FileType :=
  [ ("yaml", YAML); ("yml", YAML); ("py", PYTHON); ("rego", REGO);
    ("md", MARKDOWN); ("markdown", MARKDOWN) ].

Definition type_of_extension (ext : string) : FileType :=
  match Dict.get extension_types ext with
  | Some t => t
  | None => UNKNOWN
  end.

(** A path whose last component is [file]: the name alone, or the name
    behind a directory. *)
Definition in_directory (path file : string) : Prop :=
  path = file \/ exists dir, path = (dir ++ "/" ++ file)%string.

(** A name without extension: no dot, or one dot only, at its head. *)
Definition no_extension (file : string) : Prop :=
  file <> EmptyString
  /\ (MdxTerms.lacks_char "." file = true
      \/ exists rest, file = String "." rest /\ rest <> EmptyString
                      /\ MdxTerms.lacks_char "." rest = true).

End DispatcherTerms.

(** ** The scans of the policy extractor *)

Module RegoScan.
Import MarkdownContractExtractor.

(** The class [[\w.]]. *)
Definition is_word_or_dot (c : ascii) : bool :=
  Str.is_word c || Ascii.eqb c ".".

(** A match of [package\s+([\w.]+)] at the head of [s]: its group. *)
Definition package_at (s : string) : option string :=
  match Str.strip_prefix "package" s with
  | Some s1 =>
      let (w, s2) := Str.span Str.is_space s1 in
      if Str.is_empty w then None
      else let (g, _) := Str.span is_word_or_dot s2 in
           if Str.is_empty g then None else Some g
  | None => None
  end.

(** [re.search] of that pattern: group 1 of the first match. *)
Fixpoint package_search (s : string) : option string :=
  match package_at s with
  | Some g => Some g
  | None =>
      match s with
      | EmptyString => None
      | String _ s' => package_search s'
      end
  end.

(** [(?::=|=|\{)] at the head of [s]: the text after it. *)
Definition head_operator (s : string) : option string :=
  match s with
  | String ":" (String "=" r) => Some r
  | String "=" r => Some r
  | String "{" r => Some r
  | _ => None
  end.

(** [\s*(?::=|=|\{)] *)
Definition ws_operator (s : string) : option string :=
  head_operator (snd (Str.span Str.is_space s)).

(** The bracket with its group at the head of [s]: the group, which is not
    empty and holds no closing bracket, and the text after the bracket. *)
Definition bracket_group (s : string) : option (string * string) :=
  match s with
  | String "[" s1 =>
      let (inner, s2) := Str.span (fun c => negb (Ascii.eqb c "]")) s1 in
      if Str.is_empty inner then None
      else match s2 with
           | String "]" s3 => Some (inner, s3)
           | _ => None
           end
  | _ => None
  end.

(** A match of [rule_pattern] at the head of [s]: groups 1 and 2 and the
    text after the match.  The name is the longest run of word characters;
    the bracket is tried first and, when the match cannot be completed with
    it, left out. *)
Definition rule_at (s : string) : option (string * option string * string) :=
  let (nm, s1) := Str.span Str.is_word s in
  if Str.is_empty nm then None
  else
    let with_bracket :=
      match bracket_group s1 with
      | Some (inner, s2) =>
          match ws_operator s2 with
          | Some rest => Some (nm, Some inner, rest)
          | None => None
          end
      | None => None
      end in
    match with_bracket with
    | Some m => Some m
    | None =>
        match ws_operator s1 with
        | Some rest => Some (nm, None, rest)
        | None => None
        end
    end.

Lemma head_operator_length (s r : string) :
  head_operator s = Some r -> String.length r < String.length s.
Proof.
  unfold head_operator. intros H.
  destruct s as [|c s]; [discriminate|].
  destruct c as [[] [] [] [] [] [] [] []]; try discriminate;
    try (injection H as <-; simpl; lia).
  destruct s as [|d s]; [discriminate|].
  destruct d as [[] [] [] [] [] [] [] []]; try discriminate.
  injection H as <-. simpl. lia.
Qed.

Lemma ws_operator_length (s r : string) :
  ws_operator s = Some r -> String.length r < String.length s.
Proof.
  unfold ws_operator. intros H. apply head_operator_length in H.
  pose proof (Str.span_length Str.is_space s). lia.
Qed.

Lemma bracket_group_length (s inner r : string) :
  bracket_group s = Some (inner, r) -> String.length r < String.length s.
Proof.
  unfold bracket_group. destruct s as [|c s]; [discriminate|].
  destruct c as [[] [] [] [] [] [] [] []]; try discriminate.
  pose proof (Str.span_length (fun c => negb (Ascii.eqb c "]")) s) as Hs.
  destruct (Str.span (fun c => negb (Ascii.eqb c "]")) s) as [i s2].
  cbn [fst snd] in Hs. destruct (Str.is_empty i); [discriminate|].
  destruct s2 as [|d s3]; [discriminate|].
  destruct d as [[] [] [] [] [] [] [] []]; try discriminate.
  intros H; injection H as _ <-. simpl in *. lia.
Qed.

Lemma rule_at_length (s nm : string) (ps : option string) (rest : string) :
  rule_at s = Some (nm, ps, rest) -> String.length rest < String.length s.
Proof.
  unfold rule_at. pose proof (Str.span_length Str.is_word s) as Hs.
  destruct (Str.span Str.is_word s) as [w s1]. cbn [fst snd] in Hs.
  destruct (Str.is_empty w); [discriminate|].
  destruct (bracket_group s1) as [[inner s2]|] eqn:Eb.
  - apply bracket_group_length in Eb.
    destruct (ws_operator s2) as [r|] eqn:Eo.
    + intros H; injection H as _ _ <-. apply ws_operator_length in Eo. lia.
    + destruct (ws_operator s1) as [r|] eqn:Eo1; [|discriminate].
      intros H; injection H as _ _ <-. apply ws_operator_length in Eo1. lia.
  - destruct (ws_operator s1) as [r|] eqn:Eo1; [|discriminate].
    intros H; injection H as _ _ <-. apply ws_operator_length in Eo1. lia.
Qed.

(** [re.finditer(rule_pattern, content)]: groups 1 and 2 of each match. *)
Equations? rule_heads (s : string) : list (string * option string)
  by wf (String.length s) lt :=
rule_heads EmptyString := [];
rule_heads (String c s') with inspect (rule_at (String c s')) := {
  | exist _ (Some (nm, ps, rest)) _ := (nm, ps) :: rule_heads rest;
  | exist _ None _ := rule_heads s' }.
Proof.
  apply rule_at_length in e. exact e.
Qed.

(** [\w+(?:\.\w+)*] at the head of [s], and the rest: word characters, and
    dots that a word character follows. *)
Fixpoint dotted_name (s : string) : string * string :=
  match s with
  | EmptyString => (EmptyString, EmptyString)
  | String c s' =>
      if Str.is_word c
      then let (g, r) := dotted_name s' in (String c g, r)
      else if Ascii.eqb c "."
      then match s' with
           | String d _ =>
               if Str.is_word d
               then let (g, r) := dotted_name s' in (String c g, r)
               else (EmptyString, s)
           | EmptyString => (EmptyString, s)
           end
      else (EmptyString, s)
  end.

(** A match of [input_pattern] at the head of [s]: its group and the text
    after the match. *)
Definition input_at (s : string) : option (string * string) :=
  match Str.strip_prefix "input." s with
  | Some (String c r) =>
      if Str.is_word c then Some (dotted_name (String c r)) else None
  | _ => None
  end.

Lemma dotted_name_length (s : string) :
  String.length (snd (dotted_name s)) <= String.length s.
Proof.
  induction s as [|c s IH]; [simpl; lia|]. cbn [dotted_name].
  destruct (Str.is_word c).
  - destruct (dotted_name s); simpl in *; lia.
  - destruct (Ascii.eqb c "."); [|simpl; lia].
    destruct s as [|d s]; [simpl; lia|].
    destruct (Str.is_word d); [|simpl; lia].
    destruct (dotted_name (String d s)); simpl in *; lia.
Qed.

Lemma input_at_length (s g rest : string) :
  input_at s = Some (g, rest) -> String.length rest < String.length s.
Proof.
  unfold input_at. destruct (Str.strip_prefix "input." s) as [s1|] eqn:E;
    [|discriminate].
  apply Str.strip_prefix_length in E. destruct s1 as [|c r]; [discriminate|].
  destruct (Str.is_word c); [|discriminate].
  pose proof (dotted_name_length (String c r)) as Hd.
  remember (dotted_name (String c r)) as dn eqn:Hdn. clear Hdn.
  intros H. injection H as ->. simpl in *. lia.
Qed.

(** [re.findall(input_pattern, content)] *)
Equations? input_findall (s : string) : list string
  by wf (String.length s) lt :=
input_findall EmptyString := [];
input_findall (String c s') with inspect (input_at (String c s')) := {
  | exist _ (Some (g, rest)) _ := g :: input_findall rest;
  | exist _ None _ := input_findall s' }.
Proof.
  apply input_at_length in e. exact e.
Qed.

(** An iteration order of [set(l)]: the elements of [l], each once. *)
Definition set_order (l s : list string) : Prop :=
  NoDup s /\ forall x, In x s <-> In x l.

(** The extractor on a text, the input references met in the order
    [order] gives the set. *)
Definition extract_content (order : list string -> list string)
           (content path : string) : result ContractBoundary :=
  RegoContractExtractor.extract_text
    package_search rule_heads (fun c => order (input_findall c))
    (inr content) path.

End RegoScan.

(** ** Terms for the policy scans *)

Module RegoTerms.
Import RegoScan MdxTerms.

(** A name: a run of word characters that is not empty. *)
Definition word (w : string) : Prop :=
  w <> EmptyString /\ Str.all_chars Str.is_word w = true.

(** Text in which no name is written. *)
Definition no_word (s : string) : Prop :=
  Str.all_chars (fun c => negb (Str.is_word c)) s = true.

Definition blank (s : string) : Prop :=
  Str.all_chars Str.is_space s = true.

(** What ends a rule head. *)
Definition operator (op : string) : Prop :=
  op = ":=" \/ op = "=" \/ op = "{".

(** An argument as it is written between the brackets of a head: trimmed,
    not empty, without comma and closing bracket. *)
Definition argument (a : string) : Prop :=
  a <> EmptyString /\ Str.strip a = a
  /\ lacks_char "," a = true /\ lacks_char "]" a = true.

(** A parameter made from an input reference. *)
Definition is_input_reference (p : Param) : bool :=
  negb (required p)
  && match type p with
     | Some t => String.eqb t "input"
     | None => false
     end.

(** The order in which the references are first found. *)
Definition first_found (l : list string) : list string :=
  MarkdownSpec.first_occurrences [] l.

(** package authz

    allow {
      input.user.role == admin
      level = input.level
    } *)
Definition authz_policy : string :=
  Fixtures.text
    [ "package authz"; ""; "allow {"; "  input.user.role == admin";
      "  level = input.level"; "}" ].

End RegoTerms.

(** * Lemmas and theorems *)

(** ** Strings *)

Module StrFacts.
Import Str.

Lemma eqb_ascii_refl (c : ascii) : Ascii.eqb c c = true.
Proof. apply Ascii.eqb_eq. reflexivity. Qed.

Lemma append_assoc (a b c : string) :
  ((a ++ b) ++ c)%string = (a ++ (b ++ c))%string.
Proof. induction a as [|x a IH]; simpl; [reflexivity | now rewrite IH]. Qed.

Lemma startswith_refl (s : string) : startswith s s = true.
Proof. induction s as [|c s IH]; simpl; [reflexivity|]. now rewrite eqb_ascii_refl. Qed.

Lemma startswith_append (p r : string) : startswith p (p ++ r)%string = true.
Proof. induction p as [|c p IH]; simpl; [reflexivity|]. now rewrite eqb_ascii_refl. Qed.

(** A prefix of [s] is what [s[:n]] gives for its length [n]. *)
Lemma startswith_take (k s : string) :
  startswith k s = true -> k = take (String.length k) s.
Proof.
  unfold take. revert s; induction k as [|c k IH]; intros [|d s]; simpl;
    try reflexivity; try discriminate.
  intros H. apply andb_prop in H as [Hc Hk].
  apply Ascii.eqb_eq in Hc as <-. f_equal. now apply IH.
Qed.

Lemma startswith_length (k s : string) :
  startswith k s = true -> String.length k <= String.length s.
Proof.
  revert s; induction k as [|c k IH]; intros [|d s]; simpl; try lia; try discriminate.
  intros H. apply andb_prop in H as [_ Hk]. apply IH in Hk. lia.
Qed.

(** Two prefixes of one string: one is a prefix of the other. *)
Lemma startswith_comparable (p a b : string) :
  startswith p (a ++ b)%string = true ->
  startswith p a = true \/ startswith a p = true.
Proof.
  revert a; induction p as [|c p IH]; intros a H; [now left|].
  destruct a as [|d a]; [now right|].
  simpl in *. apply andb_prop in H as [Hc Hp].
  destruct (IH _ Hp) as [H1 | H1]; [left | right]; rewrite H1.
  - now rewrite Hc.
  - apply Ascii.eqb_eq in Hc as <-. now rewrite eqb_ascii_refl.
Qed.

End StrFacts.

(** ** Dictionaries *)

Module DictFacts.

Lemma get_set_other {V : Type} (d : Dict.t V) (k k' : string) (v : V) :
  String.eqb k k' = false -> Dict.get (Dict.set d k v) k' = Dict.get d k'.
Proof.
  intros Hk. induction d as [|[k0 v0] d IH]; simpl.
  - now rewrite Hk.
  - destruct (String.eqb k0 k) eqn:E0; simpl.
    + apply String.eqb_eq in E0 as ->. now rewrite Hk.
    + destruct (String.eqb k0 k'); [reflexivity | exact IH].
Qed.

Lemma get_set_same {V : Type} (d : Dict.t V) (k : string) (v : V) :
  Dict.get (Dict.set d k v) k = Some v.
Proof.
  induction d as [|[k0 v0] d IH]; simpl.
  - now rewrite String.eqb_refl.
  - destruct (String.eqb k0 k) eqn:E0; simpl; rewrite E0; [reflexivity | exact IH].
Qed.

End DictFacts.

(** ** The structured-data extractor *)

Module YAMLFacts.
Import YAMLContractExtractor.

(** Induction on a value, with the property known for what it holds. *)
Section ValueInd.
Variable P : value -> Prop.
Hypothesis HNone : P VNone.
Hypothesis HBool : forall b, P (VBool b).
Hypothesis HInt : forall z, P (VInt z).
Hypothesis HFloat : forall f, P (VFloat f).
Hypothesis HStr : forall s, P (VStr s).
Hypothesis HList : forall l, Forall P l -> P (VList l).
Hypothesis HSet : forall l, Forall P l -> P (VSet l).
Hypothesis HDict : forall d, Forall (fun kv => P (snd kv)) d -> P (VDict d).
Hypothesis HOther : forall r, P (VOther r).

Fixpoint value_induction (v : value) : P v :=
  match v with
  | VNone => HNone
  | VBool b => HBool b
  | VInt z => HInt z
  | VFloat f => HFloat f
  | VStr s => HStr s
  | VList l =>
      HList ((fix all (l : list value) : Forall P l :=
                match l with
                | [] => Forall_nil P
                | x :: r => Forall_cons x (value_induction x) (all r)
                end) l)
  | VSet l =>
      HSet ((fix all (l : list value) : Forall P l :=
               match l with
               | [] => Forall_nil P
               | x :: r => Forall_cons x (value_induction x) (all r)
               end) l)
  | VDict d =>
      HDict ((fix all (d : list (string * value))
                : Forall (fun kv => P (snd kv)) d :=
                match d with
                | [] => Forall_nil _
                | kv :: r => Forall_cons kv (value_induction (snd kv)) (all r)
                end) d)
  | VOther r => HOther r
  end.
End ValueInd.

Lemma param_name_append (prefix key : string) :
  param_name prefix key = (prefix ++ key)%string.
Proof. destruct prefix; reflexivity. Qed.

Lemma nested_dict (prefix : string) (d : dict) :
  nested prefix (VDict d)
  = flat_map (fun kv => item_param prefix (fst kv) (snd kv)
                        :: nested (param_name prefix (fst kv) ++ ".") (snd kv)) d.
Proof. reflexivity. Qed.

Lemma nested_app (prefix : string) (d1 d2 : dict) :
  nested prefix (VDict (d1 ++ d2))
  = nested prefix (VDict d1) ++ nested prefix (VDict d2).
Proof. rewrite !nested_dict. apply flat_map_app. Qed.

(** Every name the flattening gives starts with the prefix it was called
    with. *)
Lemma nested_names (v : value) :
  forall prefix p, In p (nested prefix v) ->
                   exists rest, name p = (prefix ++ rest)%string.
Proof.
  induction v using value_induction; intros prefix p Hin;
    try (simpl in Hin; contradiction).
  rewrite nested_dict in Hin. apply in_flat_map in Hin as [[k v] [Hkv Hin]].
  simpl in Hin. destruct Hin as [<- | Hin].
  - exists k. apply param_name_append.
  - rewrite Forall_forall in H. apply (H _ Hkv) in Hin as [rest Hrest].
    exists (k ++ "." ++ rest)%string. rewrite Hrest, param_name_append.
    now rewrite !StrFacts.append_assoc.
Qed.

(** A name of the flattening of a dictionary is one of its keys, or such a
    key, a dot and more. *)
Lemma nested_top_names (d : dict) (p : Param) :
  In p (nested "" (VDict d)) ->
  exists k, In k (Dict.keys d)
            /\ (name p = k \/ exists rest, name p = (k ++ "." ++ rest)%string).
Proof.
  rewrite nested_dict. intros Hin.
  apply in_flat_map in Hin as [[k v] [Hkv Hin]].
  exists k. split; [apply in_map_iff; now exists (k, v)|].
  simpl in Hin. destruct Hin as [<- | Hin]; [now left|].
  right. apply nested_names in Hin as [rest Hrest].
  exists rest. rewrite Hrest. simpl. now rewrite StrFacts.append_assoc.
Qed.

End YAMLFacts.

Module YAMLTheorems.
Import YAMLContractExtractor YAMLFacts YAMLSpec.

(** [extract], once the document is a mapping, in one equation. *)
Lemma extract_loaded_dict (data : dict) (path : string) :
  extract_loaded (inr (VDict data)) path
  = (md <- metadata_step data ;;
     match Dict.get data "spec" with
     | Some (VDict spec) =>
         params <- match Dict.get spec "forProvider" with
                   | Some fp => _extract_for_provider fp ""
                   | None => Ok []
                   end ;;
         Ok {| file_path := path; file_type := YAML; parameters := params;
               metadata := match Dict.get spec "compositeTypeRef" with
                           | Some ref => Dict.set md "compositeTypeRef" ref
                           | None => md
                           end |}
     | _ => Ok {| file_path := path; file_type := YAML;
                  parameters := []; metadata := md |}
     end).
Proof. reflexivity. Qed.

(** The parameters of a successful extraction are the flattening of
    [spec.forProvider], and nothing else. *)
Lemma parameters_of_for_provider (data : dict) (path : string) (b : ContractBoundary) :
  extract_loaded (inr (VDict data)) path = Ok b ->
  parameters b = match for_provider_of data with
                 | Some fp => nested "" fp
                 | None => []
                 end.
Proof.
  rewrite extract_loaded_dict. unfold for_provider_of.
  destruct (metadata_step data) as [md|e]; simpl; [|discriminate].
  destruct (Dict.get data "spec") as [[| | | | | | |spec|]|];
    try (intros H; injection H as <-; reflexivity).
  destruct (Dict.get spec "forProvider") as [fp|]; simpl.
  - destruct fp; simpl; try discriminate.
    intros H; injection H as <-; reflexivity.
  - intros H; injection H as <-; reflexivity.
Qed.

Lemma status_prefix_key (k rest : string) :
  Str.startswith "status." (k ++ "." ++ rest)%string = true ->
  is_status_key k = true.
Proof.
  intros H. unfold is_status_key.
  destruct (StrFacts.startswith_comparable _ _ _ H) as [H1 | H1].
  - rewrite H1. apply orb_true_r.
  - pose proof (StrFacts.startswith_length _ _ H1) as Hl.
    apply StrFacts.startswith_take in H1. simpl in Hl.
    destruct (String.length k) as [|[|[|[|[|[|[|[|n]]]]]]]];
      try lia; subst k; simpl in H; try discriminate; reflexivity.
Qed.

(** C1, as amended.  Whatever the manifest holds under its top-level [status]
    and [patches] keys, a successful extraction returns the same result; its
    parameters are the flattening of [spec.forProvider] and nothing else; and
    a parameter name is prefixed by [status.] only when [spec.forProvider]
    itself has, at its first level, the key [status] or a key that starts
    with [status.]. *)
Theorem status_outside_for_provider_ignored
  (data : dict) (path : string) (b : ContractBoundary) :
  extract_loaded (inr (VDict data)) path = Ok b ->
  (forall v, extract_loaded (inr (VDict (Dict.set data "status" v))) path = Ok b)
  /\ (forall v, extract_loaded (inr (VDict (Dict.set data "patches" v))) path = Ok b)
  /\ parameters b = match for_provider_of data with
                    | Some fp => nested "" fp
                    | None => []
                    end
  /\ (forall p, In p (parameters b) ->
                Str.startswith "status." (name p) = true ->
                exists k, In k (for_provider_keys data) /\ is_status_key k = true).
Proof.
  intros Hb. repeat split.
  - intros v. rewrite <- Hb, !extract_loaded_dict. unfold metadata_step.
    now rewrite !DictFacts.get_set_other by reflexivity.
  - intros v. rewrite <- Hb, !extract_loaded_dict. unfold metadata_step.
    now rewrite !DictFacts.get_set_other by reflexivity.
  - now apply parameters_of_for_provider with (path := path).
  - intros p Hp Hs.
    rewrite (parameters_of_for_provider _ _ Hb) in Hp.
    unfold for_provider_keys.
    destruct (for_provider_of data) as [fp|]; [|contradiction].
    destruct fp; try contradiction.
    apply nested_top_names in Hp as [k [Hk [Hn | [rest Hn]]]];
      exists k; split; try assumption; rewrite Hn in Hs.
    + unfold is_status_key. rewrite Hs. apply orb_true_r.
    + now apply status_prefix_key with (rest := rest).
Qed.

Lemma status_outside_for_provider_ignored_witness :
  extract_loaded (inr (VDict test_manifest)) "test.yaml" = Ok test_boundary
  /\ extract_loaded
       (inr (VDict (Dict.set test_manifest "status" (VStr "gone")))) "test.yaml"
     = Ok test_boundary.
Proof.
  split; [reflexivity|].
  apply (status_outside_for_provider_ignored test_manifest "test.yaml" eq_refl).
Defined.

(** C1, as the spec words it, fails: a key [status] of [spec.forProvider]
    that holds a mapping gives a parameter named [status.ready]. *)
Lemma status_key_counterexample :
  exists b,
    extract_loaded (inr status_manifest) "m.yaml" = Ok b
    /\ map name (parameters b) = ["status"; "status.ready"]
    /\ existsb (fun p => Str.startswith "status." (name p)) (parameters b) = true.
Proof. eexists. split; [reflexivity|]. split; reflexivity. Qed.

(** C5.  When [spec.forProvider] is present and is not a mapping, the call
    [for_provider.items()] raises [AttributeError], which [extract] lets
    through: neither a boundary nor a [ContractExtractionError]. *)
Theorem attribute_error_escapes
  (data spec md : dict) (fp : value) (path : string) :
  metadata_step data = Ok md ->
  Dict.get data "spec" = Some (VDict spec) ->
  Dict.get spec "forProvider" = Some fp ->
  is_dict fp = false ->
  extract_loaded (inr (VDict data)) path
  = Raise (AttributeError
             ("'" ++ type_name fp ++ "' object has no attribute 'items'")).
Proof.
  intros Hmd Hspec Hfp Hd. rewrite extract_loaded_dict, Hmd, Hspec, Hfp. simpl.
  destruct fp; try reflexivity. discriminate.
Qed.

Lemma attribute_error_escapes_witness :
  extract_loaded
    (inr (VDict [("spec", VDict [("forProvider", VStr "abc")])])) "m.yaml"
  = Raise (AttributeError "'str' object has no attribute 'items'").
Proof.
  apply (@attribute_error_escapes
           [("spec", VDict [("forProvider", VStr "abc")])]
           [("forProvider", VStr "abc")] [] (VStr "abc") "m.yaml");
    reflexivity.
Defined.

(** C8.  With [tags: {environment: production, team: platform}] among the
    entries of [spec.forProvider], the flattening holds, in this order and
    between the parameters of the entries before and after, [tags] (type
    object, no default), [tags.environment] (type string, default
    production) and [tags.team] (type string, default platform), none of them
    required; and the manifest that has only this entry yields exactly these
    three. *)
Theorem tags_scenario (pre post : dict) (path : string) :
  _extract_for_provider (VDict (pre ++ tags :: post)) ""
  = Ok (nested "" (VDict pre) ++ tags_params ++ nested "" (VDict post))
  /\ extract_loaded
       (inr (VDict [("spec", VDict [("forProvider", VDict [tags])])])) path
     = Ok {| file_path := path; file_type := YAML;
             parameters := tags_params; metadata := [] |}
  /\ forallb (fun p => negb (required p)) tags_params = true.
Proof.
  split; [|split; reflexivity].
  unfold _extract_for_provider. f_equal.
  change (pre ++ tags :: post) with (pre ++ [tags] ++ post).
  rewrite !nested_app. reflexivity.
Qed.

End YAMLTheorems.

(** ** The source-code extractor *)

Module PythonTheorems.
Import PythonContractExtractor PythonSpec.

Lemma fold_visit (l : list node) (params : list Param) (md : dict) :
  fold_left visit l (params, md)
  = (params ++ flat_map node_params l, fold_left visit_metadata l md).
Proof.
  revert params md; induction l as [|n l IH]; intros params md; simpl.
  - now rewrite app_nil_r.
  - destruct n; simpl; rewrite IH, <- ?app_assoc; reflexivity.
Qed.

Lemma extract_parsed_walk (tree : node) (path : string) :
  extract_parsed (inr tree) path
  = Ok {| file_path := path; file_type := PYTHON;
          parameters := flat_map node_params (walk tree);
          metadata := fold_left visit_metadata (walk tree) [] |}.
Proof. unfold extract_parsed. now rewrite fold_visit. Qed.

(** The queue gives its front back first and puts the children of the front
    behind what was waiting. *)
Lemma walk_queue_app (a b : list node) :
  walk_queue (a ++ b) = a ++ walk_queue (b ++ flat_map iter_child_nodes a).
Proof.
  revert b; induction a as [|n a IH]; intros b; simpl.
  - now rewrite app_nil_r.
  - rewrite walk_queue_equation_2. f_equal.
    rewrite <- app_assoc, IH, <- app_assoc. reflexivity.
Qed.

Lemma forest_size_children (q : list node) :
  forest_size q = List.length q + forest_size (flat_map iter_child_nodes q).
Proof.
  induction q as [|n q IH]; simpl; [reflexivity|].
  rewrite forest_size_app, size_children, IH. lia.
Qed.

Lemma walk_queue_levels (fuel : nat) :
  forall q, forest_size q <= fuel -> walk_queue q = levels fuel q.
Proof.
  induction fuel as [|fuel IH]; intros q Hq.
  - destruct q as [|n q]; [reflexivity|].
    simpl in Hq. rewrite size_children in Hq. lia.
  - simpl. rewrite <- (app_nil_r q) at 1. rewrite walk_queue_app. simpl.
    f_equal. apply IH. rewrite forest_size_children in Hq.
    destruct q; simpl in *; lia.
Qed.

Lemma dfs_children (n : node) :
  dfs n = n :: flat_map dfs (iter_child_nodes n).
Proof. destruct n; reflexivity. Qed.

Lemma dfs_forest_levels (q : list node) :
  Permutation (flat_map dfs q) (q ++ flat_map dfs (flat_map iter_child_nodes q)).
Proof.
  induction q as [|n q IH]; [constructor|].
  cbn [flat_map]. rewrite dfs_children, flat_map_app. cbn [app].
  constructor. rewrite IH.
  rewrite !app_assoc. apply Permutation_app_tail, Permutation_app_comm.
Qed.

(** The queue yields every node of the forest, each once. *)
Lemma walk_queue_all (fuel : nat) :
  forall q, forest_size q <= fuel -> Permutation (walk_queue q) (flat_map dfs q).
Proof.
  induction fuel as [|fuel IH]; intros q Hq.
  - destruct q as [|n q]; [rewrite walk_queue_equation_1; constructor|].
    simpl in Hq. rewrite size_children in Hq. lia.
  - rewrite <- (app_nil_r q) at 1. rewrite walk_queue_app. cbn [app].
    rewrite dfs_forest_levels. apply Permutation_app_head, IH.
    rewrite forest_size_children in Hq. destruct q; simpl in *; lia.
Qed.

(** C7, as amended.  The extractor visits the nodes breadth first, as
    [ast.walk] yields them: the module, then its top-level statements in
    source order, then the statements one level below them, and so on; the
    parameters come in that order, so those of a nested declaration follow
    those of every declaration at a smaller depth.  Every node of the tree
    is visited, once. *)
Theorem parameters_in_breadth_first_order (tree : node) (path : string) :
  walk tree = levels (size tree) [tree]
  /\ Permutation (walk tree) (dfs tree)
  /\ exists md,
      extract_parsed (inr tree) path
      = Ok {| file_path := path; file_type := PYTHON;
              parameters := flat_map node_params (levels (size tree) [tree]);
              metadata := md |}.
Proof.
  assert (H : walk tree = levels (size tree) [tree]).
  { apply walk_queue_levels. simpl. lia. }
  split; [exact H|]. split.
  - unfold walk. rewrite (@walk_queue_all (forest_size [tree]) [tree] (le_n _)).
    cbn [flat_map]. now rewrite app_nil_r.
  - eexists. rewrite extract_parsed_walk, H. reflexivity.
Qed.

(** C7, as the spec words it, fails: the method [m] of the class [A] comes
    after the function [f] that follows the class, where depth-first order
    puts it before. *)
Lemma depth_first_counterexample :
  exists b,
    extract_parsed (inr nested_module) "m.py" = Ok b
    /\ map name (parameters b) = ["A.x"; "f.b"; "m.a"]
    /\ map name (flat_map node_params (dfs nested_module)) = ["A.x"; "m.a"; "f.b"].
Proof. eexists. split; [reflexivity|]. split; reflexivity. Qed.

Lemma function_param_names (nm : string) (args : list ast_arg)
      (returns : option expr) (p : Param) :
  In p (_extract_function_params nm args returns) ->
  exists x, name p = (nm ++ "." ++ x)%string.
Proof.
  unfold _extract_function_params. intros H. apply in_app_or in H as [H | H].
  - apply in_flat_map in H as [a [_ H]].
    destruct (is_self_or_cls (arg a)); [contradiction|].
    destruct H as [<- | []]. now exists (arg a).
  - destruct returns as [r|]; [|contradiction].
    destruct H as [<- | []]. now exists "return".
Qed.

Lemma class_param_names (nm : string) (body : list node) (p : Param) :
  In p (_extract_class_params nm body) ->
  exists x, name p = (nm ++ "." ++ x)%string.
Proof.
  unfold _extract_class_params. intros H.
  apply in_flat_map in H as [item [_ H]].
  destruct item as [| | | |[attr|] ann|]; try contradiction.
  destruct H as [<- | []]. now exists attr.
Qed.

(** A dotted name starts with an underscore exactly when its first segment
    does. *)
Lemma startswith_underscore_segment (nm x : string) :
  Str.startswith "_" (nm ++ "." ++ x)%string = Str.startswith "_" nm.
Proof. destruct nm; reflexivity. Qed.

(** C2, as amended.  No parameter taken from a function declaration has a
    first segment that starts with an underscore; classes are not filtered:
    every annotated member of every class of the module, whatever the name
    of the class, is a parameter [<ClassName>.<member>].  So a parameter
    name starts with an underscore exactly when it is [<ClassName>.<member>]
    for a class of the module whose name starts with one. *)
Theorem underscore_only_from_classes
  (tree : node) (path : string) (b : ContractBoundary) :
  extract_parsed (inr tree) path = Ok b ->
  (forall p,
      In p (parameters b) ->
      Str.startswith "_" (name p) = true ->
      exists nm body attr,
        In (ClassDef nm body) (walk tree)
        /\ Str.startswith "_" nm = true
        /\ In p (_extract_class_params nm body)
        /\ name p = (nm ++ "." ++ attr)%string)
  /\ (forall nm body attr ann,
        In (ClassDef nm body) (walk tree) ->
        In (AnnAssign (Name attr) ann) body ->
        In {| name := nm ++ "." ++ attr; type := Some ann; required := true;
              default := None; description := None |}
           (parameters b)
        /\ Str.startswith "_" (nm ++ "." ++ attr) = Str.startswith "_" nm).
Proof.
  rewrite extract_parsed_walk. intros Hb. injection Hb as <-.
  cbn [parameters]. split.
  - intros p Hp Hs. apply in_flat_map in Hp as [n [Hn Hp]].
    destruct n as [body|nm args body returns|nm args body returns|nm body|tgt ann|cs];
      cbn [node_params] in Hp; try (exfalso; exact Hp).
    + destruct (Str.startswith "_" nm) eqn:E; [exfalso; exact Hp|].
      apply function_param_names in Hp as [x Hx].
      rewrite Hx, startswith_underscore_segment, E in Hs. discriminate.
    + destruct (Str.startswith "_" nm) eqn:E; [exfalso; exact Hp|].
      apply function_param_names in Hp as [x Hx].
      rewrite Hx, startswith_underscore_segment, E in Hs. discriminate.
    + destruct (class_param_names _ _ _ Hp) as [x Hx].
      exists nm, body, x. repeat split; try assumption.
      now rewrite Hx, startswith_underscore_segment in Hs.
  - intros nm body attr ann Hclass Hmember.
    split; [|apply startswith_underscore_segment].
    apply in_flat_map. exists (ClassDef nm body). split; [exact Hclass|].
    cbn [node_params]. unfold _extract_class_params.
    apply in_flat_map. exists (AnnAssign (Name attr) ann).
    split; [exact Hmember | left; reflexivity].
Qed.

Lemma underscore_only_from_classes_witness :
  (exists nm body attr,
      In (ClassDef nm body) (walk private_module)
      /\ Str.startswith "_" nm = true
      /\ In {| name := "_Config.host"; type := Some "str"; required := true;
               default := None; description := None |}
            (_extract_class_params nm body)
      /\ "_Config.host" = (nm ++ "." ++ attr)%string)
  /\ In {| name := "_Config.host"; type := Some "str"; required := true;
           default := None; description := None |}
        (parameters private_boundary).
Proof.
  assert (Hw : walk private_module
               = [ private_module;
                   ClassDef "_Config" [AnnAssign (Name "host") "str"];
                   FunctionDef "_helper" [mk_arg "x" (Some "int")] [Pass] None;
                   AnnAssign (Name "host") "str";
                   Pass ])
    by (vm_compute; reflexivity).
  destruct (@underscore_only_from_classes private_module "m.py"
              private_boundary eq_refl) as [Hfrom Hall].
  split.
  - apply (Hfrom {| name := "_Config.host"; type := Some "str";
                    required := true; default := None;
                    description := None |}).
    + left. reflexivity.
    + reflexivity.
  - apply (Hall "_Config" [AnnAssign (Name "host") "str"] "host" "str").
    + rewrite Hw. right. left. reflexivity.
    + left. reflexivity.
Defined.

(** C2, as the spec words it, fails: the class [_Config] gives the parameter
    [_Config.host], while the function [_helper] gives none. *)
Lemma private_class_counterexample :
  exists b,
    extract_parsed (inr private_module) "m.py" = Ok b
    /\ map name (parameters b) = ["_Config.host"]
    /\ existsb (fun p => Str.startswith "_" (name p)) (parameters b) = true.
Proof. eexists. split; [reflexivity|]. split; reflexivity. Qed.

End PythonTheorems.

(** ** The documentation validator *)

Module MdxFacts.
Import MdxValidator MdxSpec.

(** *** The scan for tags *)

Lemma finditer_clause (b : bool) (pos : nat) (c : ascii) (s' : string) x
  (e : (if Ascii.eqb c "<" then match_tag b s' else None) = x) :
  finditer_unfold_clause_2 b pos c s' (exist _ x e)
  = match x with
    | Some (cl, nm, attrs, rest) =>
        {| start := pos; slash := cl; tag := nm; attributes := attrs |}
        :: finditer b (pos + (S (String.length s') - String.length rest)) rest
    | None => finditer b (S pos) s'
    end.
Proof. destruct x as [[[[cl nm] attrs] rest]|]; reflexivity. Qed.

(** One step of the scan: a match at the head, or one character on. *)
Lemma finditer_cons (b : bool) (pos : nat) (c : ascii) (s' : string) :
  finditer b pos (String c s')
  = match (if Ascii.eqb c "<" then match_tag b s' else None) with
    | Some (cl, nm, attrs, rest) =>
        {| start := pos; slash := cl; tag := nm; attributes := attrs |}
        :: finditer b (pos + (S (String.length s') - String.length rest)) rest
    | None => finditer b (S pos) s'
    end.
Proof. rewrite finditer_equation_2. apply finditer_clause. Qed.

(** The matches do not depend on where the text starts, their offsets
    apart. *)
Lemma finditer_shift (b : bool) (s : string) :
  forall pos, finditer b pos s = map (shift pos) (finditer b 0 s).
Proof.
  remember (String.length s) as n eqn:Hn. revert s Hn.
  induction n as [n IH] using lt_wf_ind. intros s Hn pos.
  destruct s as [|c s']; [now rewrite !finditer_equation_1|].
  rewrite !finditer_cons.
  destruct (if Ascii.eqb c "<" then match_tag b s' else None)
    as [[[[cl nm] attrs] rest]|] eqn:E.
  - assert (Hr : String.length rest < n).
    { destruct (Ascii.eqb c "<"); [|discriminate].
      apply match_tag_length in E. subst n. simpl. lia. }
    cbn [map]. unfold shift at 1. cbn [start slash tag attributes].
    rewrite Nat.add_0_r. f_equal.
    rewrite (IH _ Hr rest eq_refl (pos + _)).
    rewrite (IH _ Hr rest eq_refl (0 + _)).
    rewrite map_map. apply map_ext. intros m. unfold shift. simpl. f_equal. lia.
  - assert (Hr : String.length s' < n) by (subst n; simpl; lia).
    rewrite (IH _ Hr s' eq_refl (S pos)), (IH _ Hr s' eq_refl 1).
    rewrite map_map. apply map_ext. intros m. unfold shift. simpl. f_equal. lia.
Qed.

Lemma span_all (p : ascii -> bool) (a : string) (c : ascii) (r : string) :
  Str.all_chars p a = true -> p c = false ->
  Str.span p (a ++ String c r)%string = (a, String c r).
Proof.
  intros Ha Hc. induction a as [|x a IH]; simpl.
  - now rewrite Hc.
  - simpl in Ha. apply andb_prop in Ha as [Hx Ha]. now rewrite Hx, IH.
Qed.

Lemma length_append (a b : string) :
  String.length (a ++ b)%string = String.length a + String.length b.
Proof. apply Str.append_length. Qed.

(** A tag [<name>] with no attribute, at the head of the text. *)
Lemma match_open_tag (b : bool) (nm rest : string) :
  nm <> EmptyString -> Str.all_chars Str.is_word nm = true ->
  match_tag b (nm ++ String ">" rest)%string = Some (false, nm, EmptyString, rest).
Proof.
  intros Hne Hw. unfold match_tag.
  destruct nm as [|c nm]; [contradiction|].
  assert (Hc : Str.is_word c = true) by (simpl in Hw; now apply andb_prop in Hw).
  assert (Hs : match (String c nm ++ String ">" rest)%string with
               | String "/" s' =>
                   if b then (true, s')
                   else (false, (String c nm ++ String ">" rest)%string)
               | _ => (false, (String c nm ++ String ">" rest)%string)
               end = (false, (String c nm ++ String ">" rest)%string)).
  { simpl. destruct c as [[] [] [] [] [] [] [] []]; try reflexivity; discriminate. }
  rewrite Hs.
  rewrite (span_all Str.is_word (String c nm) ">" rest Hw eq_refl).
  reflexivity.
Qed.

Lemma finditer_open_tag (b : bool) (pos : nat) (nm rest : string) :
  nm <> EmptyString -> Str.all_chars Str.is_word nm = true ->
  finditer b pos (String "<" (nm ++ String ">" rest))
  = {| start := pos; slash := false; tag := nm; attributes := EmptyString |}
    :: map (shift (pos + (String.length nm + 2))) (finditer b 0 rest).
Proof.
  intros Hne Hw. rewrite finditer_cons.
  change (Ascii.eqb "<" "<") with true. cbv iota.
  rewrite (match_open_tag b rest Hne Hw). f_equal.
  rewrite finditer_shift. f_equal. f_equal.
  rewrite length_append.
  change (String.length (String ">" rest)) with (S (String.length rest)). lia.
Qed.

(** *** Line numbers *)

Lemma take_append (a b : string) :
  Str.take (String.length a) (a ++ b)%string = a.
Proof. unfold Str.take. induction a as [|c a IH]; simpl; [now destruct b | now rewrite IH]. Qed.

Lemma count_newlines_append (a b : string) :
  Str.count_newlines (a ++ b)%string
  = Str.count_newlines a + Str.count_newlines b.
Proof. induction a as [|c a IH]; simpl; [reflexivity | rewrite IH; lia]. Qed.

Lemma count_newlines_word (a : string) :
  Str.all_chars Str.is_word a = true -> Str.count_newlines a = 0.
Proof.
  induction a as [|c a IH]; simpl; [reflexivity|]. intros H.
  apply andb_prop in H as [Hc Ha]. rewrite (IH Ha).
  destruct c as [[] [] [] [] [] [] [] []]; try reflexivity; discriminate.
Qed.

(** *** The stack *)

Lemma top_snoc {A : Type} (s : list A) (x : A) : top (s ++ [x]) = Some x.
Proof.
  induction s as [|a s IH]; [reflexivity|].
  change ((a :: s) ++ [x]) with (a :: (s ++ [x])).
  destruct (s ++ [x]) as [|y r] eqn:E; [destruct s; discriminate|].
  exact IH.
Qed.


Lemma removelast_snoc {A : Type} (s : list A) (x : A) : removelast (s ++ [x]) = s.
Proof. apply removelast_last. Qed.

Lemma in_removelast {A : Type} (s : list A) (x : A) :
  In x (removelast s) -> In x s.
Proof.
  induction s as [|a s IH]; [contradiction|].
  destruct s as [|b s]; [contradiction|].
  change (removelast (a :: b :: s)) with (a :: removelast (b :: s)).
  intros [-> | H]; [now left | right; now apply IH].
Qed.


(** An opening tag that is not self-closing is pushed, whatever its name. *)
Lemma push_step (errs : list ValidationError) (stack : list (string * nat))
      (t : tag_token) :
  is_closing t = false -> is_self_closing t = false ->
  tag_step (errs, stack) t = (errs, stack ++ [(tag_name t, line_num t)]).
Proof. intros Hc Hs. unfold tag_step. now rewrite Hc, Hs. Qed.

Lemma stack_entries (tokens : list tag_token) :
  forall errs stack entry,
    In entry (snd (fold_left tag_step tokens (errs, stack))) ->
    In entry stack \/ opened_by tokens entry.
Proof.
  induction tokens as [|t ts IH]; intros errs stack entry H; [now left|].
  cbn [fold_left] in H. unfold tag_step at 2 in H.
  assert (Hlater : opened_by ts entry -> opened_by (t :: ts) entry).
  { intros [u [Hu Hr]]. exists u. split; [now right | exact Hr]. }
  destruct (is_closing t) eqn:Hc.
  - destruct (top stack) as [[nm l]|].
    + destruct (String.eqb nm (tag_name t)).
      * apply IH in H as [H | H]; [left; now apply in_removelast | right; auto].
      * apply IH in H as [H | H]; [now left | right; auto].
    + apply IH in H as [H | H]; [now left | right; auto].
  - destruct (is_self_closing t) eqn:Hs; simpl in H.
    + apply IH in H as [H | H]; [now left | right; auto].
    + apply IH in H as [H | H]; [|right; auto].
      apply in_app_or in H as [H | [<- | []]]; [now left|].
      right. exists t. repeat split; auto. now left.
Qed.


(** The errors found so far are kept. *)
Lemma errors_kept (tokens : list tag_token) :
  forall errs stack e,
    In e errs -> In e (fst (fold_left tag_step tokens (errs, stack))).
Proof.
  induction tokens as [|t ts IH]; intros errs stack e H; [exact H|].
  cbn [fold_left]. unfold tag_step at 2.
  destruct (is_closing t).
  - destruct (top stack) as [[nm l]|]; [destruct (String.eqb nm (tag_name t))|];
      apply IH; auto; apply in_or_app; now left.
  - destruct (is_self_closing t); simpl; now apply IH.
Qed.

Lemma check_tokens_run (tokens : list tag_token) :
  check_tokens tokens
  = fst (fold_left tag_step tokens ([], []))
    ++ map unclosed_error (snd (fold_left tag_step tokens ([], []))).
Proof. unfold check_tokens. now destruct (fold_left tag_step tokens ([], [])). Qed.


End MdxFacts.

Module MdxTheorems.
Import MdxValidator MdxFacts MdxSpec Fixtures.

Lemma balanced_run (tokens : list tag_token) :
  balanced tokens -> forall st, fold_left tag_step tokens st = st.
Proof.
  induction 1 as [|t rest Hc Hs _ IH|o inner c rest Ho Hs Hc Hn _ IHi _ IHr];
    intros [errs stack]; [reflexivity| |].
  - cbn [fold_left]. unfold tag_step at 2. rewrite Hc, Hs. simpl. apply IH.
  - cbn [fold_left]. rewrite (push_step errs stack o Ho Hs).
    rewrite fold_left_app, IHi. cbn [fold_left]. unfold tag_step at 2.
    rewrite Hc, top_snoc, Hn, String.eqb_refl, removelast_snoc. apply IHr.
Qed.

Lemma balanced_check (tokens : list tag_token) :
  balanced tokens -> check_tokens tokens = [].
Proof. intros H. unfold check_tokens. now rewrite (balanced_run H). Qed.

Lemma mem_string_in (s : string) (l : list string) :
  In s l -> mem_string s l = true.
Proof.
  intros H. apply existsb_exists. exists s. split; [exact H | apply String.eqb_refl].
Qed.

Lemma contains_append (p a b : string) :
  Str.contains p (a ++ p ++ b)%string = true.
Proof.
  induction a as [|c a IH].
  - change (EmptyString ++ p ++ b)%string with (p ++ b)%string.
    pose proof (StrFacts.startswith_append p b) as H.
    destruct (p ++ b)%string; cbn [Str.contains]; now rewrite H.
  - change (String c a ++ p ++ b)%string with (String c (a ++ p ++ b)).
    cbn [Str.contains]. rewrite IH. apply orb_true_r.
Qed.

Lemma has_attr_not_lacks (attr attributes : string) :
  has_attr attr attributes -> lacks attr attributes = false.
Proof.
  unfold lacks. intros [before [after [-> | ->]]].
  - rewrite <- (StrFacts.append_assoc attr "=" after), contains_append.
    reflexivity.
  - rewrite <- (StrFacts.append_assoc attr " =" after), contains_append.
    apply andb_false_r.
Qed.

Lemma well_formed_no_error (m : tag_match) (line_num : nat) :
  well_formed_component m -> component_errors (tag m) (attributes m) line_num = [].
Proof.
  intros [Hin [Hpf Hstep]]. unfold component_errors.
  rewrite (mem_string_in _ _ Hin). cbn [negb].
  destruct (String.eqb_spec (tag m) "ParamField") as [E|_].
  - destruct (Hpf E) as [Hp Ht].
    now rewrite (has_attr_not_lacks Hp), (has_attr_not_lacks Ht).
  - destruct (String.eqb_spec (tag m) "Step") as [E|_]; [|reflexivity].
    now rewrite (has_attr_not_lacks (Hstep E)).
Qed.

Lemma components_ok (content : string) :
  (forall m, In m (finditer false 0 content) -> well_formed_component m) ->
  balanced (tag_tokens content) ->
  _validate_components content = [].
Proof.
  intros Hwf Hbal. unfold _validate_components, _check_unclosed_tags.
  rewrite (balanced_check Hbal), app_nil_r.
  induction (finditer false 0 content) as [|m ms IH]; [reflexivity|].
  cbn [flat_map]. rewrite well_formed_no_error by (apply Hwf; now left).
  apply IH. intros m' Hm'. apply Hwf. now right.
Qed.


Lemma count_newlines_take (n : nat) (s : string) :
  Str.count_newlines s = 0 -> Str.count_newlines (Str.take n s) = 0.
Proof.
  unfold Str.take. revert n; induction s as [|c s IH]; intros n H.
  - now destruct n.
  - destruct n as [|n]; [reflexivity|]. simpl in *.
    destruct (Str.is_newline c); [discriminate|]. now apply IH.
Qed.

Lemma line_one (content : string) (m : tag_match) :
  Str.count_newlines content = 0 -> line_of content m = 1.
Proof. intros H. unfold line_of. now rewrite count_newlines_take. Qed.

Lemma not_whitelisted (nm : string) :
  mem_string nm valid_components = false ->
  String.eqb nm "Steps" = false.
Proof.
  unfold mem_string. simpl. intros H.
  repeat (apply orb_false_elim in H as [? H]). assumption.
Qed.



(** C10.  The balance check tracks every tag, on the whitelist or not.
    For a name [nm] that is not on the whitelist: an opening tag [<nm>]
    that is not self-closing is pushed like any other; the document [<nm>]
    gets the unknown-component error and the unclosed-tag error; and in
    [<Steps><nm></Steps>] the unknown tag on top of the stack makes the
    closing tag a mismatch, so that [Steps] is reported unclosed as well. *)
Theorem unknown_tags_are_tracked (nm : string) :
  nm <> EmptyString ->
  Str.all_chars Str.is_word nm = true ->
  mem_string nm valid_components = false ->
  (forall errs stack t,
      tag_name t = nm -> is_closing t = false -> is_self_closing t = false ->
      tag_step (errs, stack) t = (errs, stack ++ [(nm, line_num t)]))
  /\ _validate_components ("<" ++ nm ++ ">")
     = [ unknown_error nm 1; unclosed_error (nm, 1) ]
  /\ _validate_components ("<Steps><" ++ nm ++ "></Steps>")
     = [ unknown_error nm 1;
         error (Some 1) "Closing tag </Steps> without matching opening tag";
         unclosed_error ("Steps", 1);
         unclosed_error (nm, 1) ].
Proof.
  intros Hne Hw Hunknown. split; [|split].
  - intros errs stack t <- Hc Hs. now apply push_step.
  - assert (Hlines : Str.count_newlines ("<" ++ nm ++ ">") = 0).
    { change ("<" ++ nm ++ ">")%string with (String "<" (nm ++ ">"))%string.
      cbn [Str.count_newlines]. rewrite count_newlines_append.
      now rewrite (count_newlines_word nm Hw). }
    unfold _validate_components, _check_unclosed_tags, tag_tokens.
    change ("<" ++ nm ++ ">")%string with (String "<" (nm ++ String ">" ""))%string
      in *.
    rewrite !(finditer_open_tag _ 0 "" Hne Hw), !finditer_equation_1.
    cbn [map flat_map app tag attributes]. unfold token_of.
    cbn [slash tag attributes]. rewrite !(fun m => @line_one _ m Hlines).
    unfold component_errors. rewrite Hunknown. reflexivity.
  - assert (Hlines : Str.count_newlines ("<Steps><" ++ nm ++ "></Steps>") = 0).
    { change ("<Steps><" ++ nm ++ "></Steps>")%string
        with ("<Steps><" ++ (nm ++ "></Steps>"))%string.
      rewrite !count_newlines_append.
      now rewrite (count_newlines_word nm Hw). }
    unfold _validate_components, _check_unclosed_tags, tag_tokens.
    change ("<Steps><" ++ nm ++ "></Steps>")%string
      with (String "<" ("Steps" ++ String ">"
                          (String "<" (nm ++ String ">" "</Steps>"))))%string
      in *.
    assert (Hsteps : "Steps" <> EmptyString) by discriminate.
    rewrite !(finditer_open_tag _ 0 _ Hsteps eq_refl).
    rewrite !(finditer_open_tag _ 0 "</Steps>" Hne Hw).
    assert (Hc : finditer true 0 "</Steps>"
                 = [{| start := 0; slash := true; tag := "Steps";
                       attributes := "" |}]) by (vm_compute; reflexivity).
    assert (Hn : finditer false 0 "</Steps>" = []) by (vm_compute; reflexivity).
    rewrite Hc, Hn.
    cbn [map flat_map app]. unfold shift, token_of.
    cbn [start slash tag attributes]. rewrite !(fun m => @line_one _ m Hlines).
    unfold component_errors. rewrite Hunknown.
    cbn [negb mem_string existsb valid_components].
    unfold check_tokens. cbn [fold_left].
    unfold tag_step.
    cbn [is_closing is_self_closing tag_name line_num negb
         Str.endswith_char app top].
    rewrite (not_whitelisted _ Hunknown).
    reflexivity.
Qed.

Lemma unknown_tags_are_tracked_witness :
  _validate_components "<CustomComponent>"
  = [ unknown_error "CustomComponent" 1; unclosed_error ("CustomComponent", 1) ].
Proof.
  apply (proj1 (proj2 (@unknown_tags_are_tracked "CustomComponent"
                         ltac:(discriminate) eq_refl eq_refl))).
Defined.

(** C6, as amended.  A file of ASCII text that exists and can be read,
    whose name passes the filename check, whose frontmatter passes the
    frontmatter check, and whose components are all on the whitelist, carry
    the required attributes
    ([path] and [type] on [ParamField], [title] on [Step], found anywhere
    among the attributes, in any order) and are balanced, is valid, with no
    error and no warning. *)
Theorem valid_when_every_check_passes (w : World) (path content : string) :
  path_exists w path = true ->
  read_text w path = inr content ->
  Str.is_ascii content = true ->
  _validate_filename path = [] ->
  _validate_frontmatter content = [] ->
  (forall m, In m (finditer false 0 content) -> well_formed_component m) ->
  balanced (tag_tokens content) ->
  validate_mdx w path = {| valid := true; errors := []; warnings := [] |}.
Proof.
  intros He Hr _ Hf Hfm Hwf Hbal. unfold validate_mdx.
  rewrite He, Hr, Hf, Hfm, (components_ok content Hwf Hbal). reflexivity.
Qed.

Lemma valid_when_every_check_passes_witness :
  validate_mdx (world_of [("test-spec.mdx", param_doc)]) "test-spec.mdx"
  = {| valid := true; errors := []; warnings := [] |}.
Proof.
  apply (@valid_when_every_check_passes
           (world_of [("test-spec.mdx", param_doc)]) "test-spec.mdx" param_doc).
  - reflexivity.
  - reflexivity.
  - reflexivity.
  - vm_compute. reflexivity.
  - vm_compute. reflexivity.
  - assert (H : finditer false 0 param_doc
                = [{| start := 65; slash := false; tag := "ParamField";
                      attributes := (" type=" ++ q ++ "string" ++ q ++ " path="
                                     ++ q ++ "config.host" ++ q)%string |}])
      by (vm_compute; reflexivity).
    rewrite H. intros m [<- | []].
    split; [left; reflexivity|].
    split; [|discriminate].
    intros _. split.
    + exists (" type=" ++ q ++ "string" ++ q ++ " ")%string,
             (q ++ "config.host" ++ q)%string.
      left. reflexivity.
    + exists " "%string,
             (q ++ "string" ++ q ++ " path=" ++ q ++ "config.host" ++ q)%string.
      left. reflexivity.
  - assert (H : tag_tokens param_doc
                = {| is_closing := false; tag_name := "ParamField";
                     is_self_closing := false; line_num := 7 |}
                  :: [] ++ {| is_closing := true; tag_name := "ParamField";
                              is_self_closing := false; line_num := 9 |} :: [])
      by (vm_compute; reflexivity).
    rewrite H. apply balanced_pair; try reflexivity; apply balanced_nil.
Defined.

(** C6, as the spec words it, fails: balanced components with their required
    attributes do not make a file valid.  The same document under a name
    that is not kebab-case is invalid, and so is a document whose only
    component is a self-closing tag that is not on the whitelist. *)
Lemma other_checks_counterexample :
  (balanced (tag_tokens param_doc)
   /\ Forall has_required_attributes (finditer false 0 param_doc)
   /\ validate_mdx (world_of [("TestSpec.mdx", param_doc)]) "TestSpec.mdx"
      = {| valid := false;
           errors := [error None "Filename must be kebab-case: TestSpec"];
           warnings := [] |})
  /\ (balanced (tag_tokens diagram_doc)
      /\ Forall has_required_attributes (finditer false 0 diagram_doc)
      /\ validate_mdx (world_of [("test-spec.mdx", diagram_doc)]) "test-spec.mdx"
         = {| valid := false;
              errors := [unknown_error "Diagram" 7];
              warnings := [] |}).
Proof.
  split; split.
  - assert (H : tag_tokens param_doc
                = {| is_closing := false; tag_name := "ParamField";
                     is_self_closing := false; line_num := 7 |}
                  :: [] ++ {| is_closing := true; tag_name := "ParamField";
                              is_self_closing := false; line_num := 9 |} :: [])
      by (vm_compute; reflexivity).
    rewrite H. apply balanced_pair; try reflexivity; apply balanced_nil.
  - split; [|vm_compute; reflexivity].
    assert (H : finditer false 0 param_doc
                = [{| start := 65; slash := false; tag := "ParamField";
                      attributes := (" type=" ++ q ++ "string" ++ q ++ " path="
                                     ++ q ++ "config.host" ++ q)%string |}])
      by (vm_compute; reflexivity).
    rewrite H. constructor; [|constructor].
    split; [|discriminate]. intros _. split.
    + exists (" type=" ++ q ++ "string" ++ q ++ " ")%string,
             (q ++ "config.host" ++ q)%string.
      left. reflexivity.
    + exists " "%string,
             (q ++ "string" ++ q ++ " path=" ++ q ++ "config.host" ++ q)%string.
      left. reflexivity.
  - assert (H : tag_tokens diagram_doc
                = [{| is_closing := false; tag_name := "Diagram";
                      is_self_closing := true; line_num := 7 |}])
      by (vm_compute; reflexivity).
    rewrite H. apply balanced_self; try reflexivity. apply balanced_nil.
  - split; [|vm_compute; reflexivity].
    assert (H : finditer false 0 diagram_doc
                = [{| start := 65; slash := false; tag := "Diagram";
                      attributes := " /" |}])
      by (vm_compute; reflexivity).
    rewrite H. constructor; [|constructor].
    split; discriminate.
Qed.

End MdxTheorems.

(** ** The dispatcher *)

Module DispatcherTheorems.
Import DispatcherSpec.

Lemma yaml_fields (loaded : string + value) (path : string) (b : ContractBoundary) :
  YAMLContractExtractor.extract_loaded loaded path = Ok b ->
  file_path b = path /\ file_type b = YAML.
Proof.
  destruct loaded as [e|data]; [discriminate|].
  destruct data; try discriminate.
  rewrite YAMLTheorems.extract_loaded_dict.
  destruct (YAMLSpec.metadata_step d) as [md|e]; [|discriminate].
  cbn [bind].
  destruct (Dict.get d "spec") as [[| | | | | | |spec|]|];
    try (intros H; injection H as <-; split; reflexivity).
  destruct (match Dict.get spec "forProvider" with
            | Some fp => YAMLContractExtractor._extract_for_provider fp ""
            | None => Ok []
            end) as [params|e]; [|discriminate].
  cbn [bind]. intros H; injection H as <-; split; reflexivity.
Qed.

Lemma python_fields (parsed : string + PythonContractExtractor.node)
      (path : string) (b : ContractBoundary) :
  PythonContractExtractor.extract_parsed parsed path = Ok b ->
  file_path b = path /\ file_type b = PYTHON.
Proof.
  destruct parsed as [e|tree]; [discriminate|].
  rewrite PythonTheorems.extract_parsed_walk.
  intros H; injection H as <-; split; reflexivity.
Qed.

Lemma rego_fields (ps : string -> option string)
      (rh : string -> list (string * option string)) (ir : string -> list string)
      (text : string + string) (path : string) (b : ContractBoundary) :
  RegoContractExtractor.extract_text ps rh ir text path = Ok b ->
  file_path b = path /\ file_type b = REGO.
Proof.
  destruct text as [e|content]; [discriminate|].
  unfold RegoContractExtractor.extract_text.
  intros H; injection H as <-; split; reflexivity.
Qed.

Lemma markdown_fields (text : string + string) (path : string)
      (b : ContractBoundary) :
  MarkdownContractExtractor.extract_text text path = Ok b ->
  file_path b = path /\ file_type b = MARKDOWN.
Proof.
  destruct text as [e|content]; [discriminate|].
  unfold MarkdownContractExtractor.extract_text.
  intros H; injection H as <-; split; reflexivity.
Qed.

Lemma mem_string_true_iff (s : string) (l : list string) :
  mem_string s l = true <-> In s l.
Proof.
  unfold mem_string. rewrite existsb_exists. split.
  - intros [x [Hx E]]. apply String.eqb_eq in E as ->. exact Hx.
  - intros H. exists s. split; [exact H | apply String.eqb_refl].
Qed.

(** The table of [_detect_file_type], read from its result. *)
Lemma detect_by_suffix (path : string) :
  (_detect_file_type path = YAML
   <-> In (Str.lower (Path.suffix path)) [".yaml"; ".yml"])
  /\ (_detect_file_type path = PYTHON
      <-> Str.lower (Path.suffix path) = ".py")
  /\ (_detect_file_type path = REGO
      <-> Str.lower (Path.suffix path) = ".rego")
  /\ (_detect_file_type path = MARKDOWN
      <-> In (Str.lower (Path.suffix path)) [".md"; ".markdown"]).
Proof.
  unfold _detect_file_type. generalize (Str.lower (Path.suffix path)) as s.
  intros s. rewrite <- !mem_string_true_iff.
  destruct (mem_string s [".yaml"; ".yml"]) eqn:E1.
  - apply mem_string_true_iff in E1 as [<- | [<- | []]];
      repeat split; intros H; try reflexivity; discriminate H.
  - destruct (String.eqb_spec s ".py") as [-> | E2].
    + repeat split; intros H; try reflexivity; discriminate H.
    + destruct (String.eqb_spec s ".rego") as [-> | E3].
      * repeat split; intros H; try reflexivity; discriminate H.
      * destruct (mem_string s [".md"; ".markdown"]) eqn:E4;
          repeat split; intros H; try reflexivity; try discriminate H;
          contradiction.
Qed.

(** C9.  A boundary that [extract_contract_boundary] returns has the path it
    was called with as its [file_path], and as its [file_type] the type the
    suffix of that path gives, which is not [UNKNOWN]: [YAML] exactly for
    the suffixes [.yaml] and [.yml], [PYTHON] for [.py], [REGO] for [.rego],
    [MARKDOWN] for [.md] and [.markdown], the case of the letters set
    aside. *)
Theorem boundary_names_its_file (w : World) (path : string) (b : ContractBoundary) :
  extract_contract_boundary w path = Ok b ->
  file_path b = path
  /\ file_type b = _detect_file_type path
  /\ file_type b <> UNKNOWN
  /\ (file_type b = YAML
      <-> In (Str.lower (Path.suffix path)) [".yaml"; ".yml"])
  /\ (file_type b = PYTHON <-> Str.lower (Path.suffix path) = ".py")
  /\ (file_type b = REGO <-> Str.lower (Path.suffix path) = ".rego")
  /\ (file_type b = MARKDOWN
      <-> In (Str.lower (Path.suffix path)) [".md"; ".markdown"]).
Proof.
  intros H.
  assert (Hb : file_path b = path
               /\ file_type b = _detect_file_type path
               /\ file_type b <> UNKNOWN).
  { revert H. unfold extract_contract_boundary.
    destruct (path_exists w path); [|discriminate]. cbn [negb].
    destruct (_detect_file_type path); intros H.
    - apply yaml_fields in H as [Hp Ht]. rewrite Ht.
      repeat split; [exact Hp | discriminate].
    - apply python_fields in H as [Hp Ht]. rewrite Ht.
      repeat split; [exact Hp | discriminate].
    - apply rego_fields in H as [Hp Ht]. rewrite Ht.
      repeat split; [exact Hp | discriminate].
    - apply markdown_fields in H as [Hp Ht]. rewrite Ht.
      repeat split; [exact Hp | discriminate].
    - discriminate. }
  destruct Hb as [Hp [Ht Hu]].
  split; [exact Hp|]. split; [exact Ht|]. split; [exact Hu|].
  rewrite Ht. apply detect_by_suffix.
Qed.

Lemma boundary_names_its_file_witness :
  extract_contract_boundary yaml_world "test.yaml" = Ok YAMLSpec.test_boundary
  /\ file_path YAMLSpec.test_boundary = "test.yaml"
  /\ file_type YAMLSpec.test_boundary = _detect_file_type "test.yaml"
  /\ file_type YAMLSpec.test_boundary <> UNKNOWN
  /\ (file_type YAMLSpec.test_boundary = YAML
      <-> In (Str.lower (Path.suffix "test.yaml")) [".yaml"; ".yml"])
  /\ (file_type YAMLSpec.test_boundary = PYTHON
      <-> Str.lower (Path.suffix "test.yaml") = ".py")
  /\ (file_type YAMLSpec.test_boundary = REGO
      <-> Str.lower (Path.suffix "test.yaml") = ".rego")
  /\ (file_type YAMLSpec.test_boundary = MARKDOWN
      <-> In (Str.lower (Path.suffix "test.yaml")) [".md"; ".markdown"]).
Proof.
  split; [reflexivity|].
  apply (@boundary_names_its_file yaml_world "test.yaml"). reflexivity.
Defined.

End DispatcherTheorems.

(** ** The section extractor *)

Module MarkdownTheorems.
Import MarkdownContractExtractor MarkdownSpec.

Lemma fill_sections_fold (parts : list string) :
  forall acc, fill_sections acc parts = fold_left set_section (pairs parts) acc.
Proof.
  induction parts as [parts IH] using (induction_ltof1 _ (@List.length string)).
  intros acc. destruct parts as [|h [|b rest]]; try reflexivity.
  cbn [fill_sections pairs fold_left]. apply IH. unfold ltof. simpl. lia.
Qed.

Lemma mem_keys {V : Type} (d : Dict.t V) (k : string) :
  Dict.mem d k = mem_string k (Dict.keys d).
Proof.
  unfold Dict.mem, mem_string. induction d as [|[k0 v0] d IH]; [reflexivity|].
  simpl. rewrite (String.eqb_sym k k0).
  destruct (String.eqb k0 k); [reflexivity | exact IH].
Qed.

Lemma keys_set {V : Type} (d : Dict.t V) (k : string) (v : V) :
  Dict.keys (Dict.set d k v)
  = if Dict.mem d k then Dict.keys d else Dict.keys d ++ [k].
Proof.
  unfold Dict.mem. induction d as [|[k0 v0] d IH]; [reflexivity|].
  simpl. destruct (String.eqb k0 k) eqn:E; [reflexivity|].
  simpl. rewrite IH. now destruct (Dict.get d k).
Qed.

Lemma keys_fold (sections : list (string * string)) :
  forall acc,
    Dict.keys (fold_left set_section sections acc)
    = Dict.keys acc ++ first_occurrences (Dict.keys acc) (map fst sections).
Proof.
  induction sections as [|[h b] sections IH]; intros acc.
  - simpl. now rewrite app_nil_r.
  - cbn [fold_left map fst first_occurrences]. rewrite IH.
    unfold set_section. cbn [fst snd]. rewrite keys_set, <- mem_keys.
    destruct (Dict.mem acc h); [reflexivity|]. now rewrite <- app_assoc.
Qed.

Lemma get_fold (sections : list (string * string)) (k : string) :
  forall acc,
    Dict.get (fold_left set_section sections acc) k
    = match last_body k sections with
      | Some b => Some b
      | None => Dict.get acc k
      end.
Proof.
  induction sections as [|[h b] sections IH]; intros acc; simpl; [reflexivity|].
  rewrite IH. destruct (last_body k sections); [reflexivity|].
  unfold set_section. simpl.
  destruct (String.eqb_spec h k) as [->|Hne].
  - apply DictFacts.get_set_same.
  - apply DictFacts.get_set_other. now apply String.eqb_neq.
Qed.

Lemma mem_string_in_iff (s : string) (l : list string) :
  mem_string s l = true <-> In s l.
Proof.
  unfold mem_string. rewrite existsb_exists. split.
  - intros [x [Hx E]]. apply String.eqb_eq in E as ->. exact Hx.
  - intros H. exists s. split; [exact H | apply String.eqb_refl].
Qed.

Lemma first_occurrences_fresh (l : list string) :
  forall seen x, In x (first_occurrences seen l) -> ~ In x seen.
Proof.
  induction l as [|y l IH]; intros seen x H; [contradiction|].
  simpl in H. destruct (mem_string y seen) eqn:E; [now apply IH|].
  destruct H as [<- | H].
  - intros Hin. apply mem_string_in_iff in Hin. congruence.
  - apply IH in H. intros Hin. apply H. apply in_or_app. now left.
Qed.

Lemma first_occurrences_nodup (l : list string) :
  forall seen, NoDup (first_occurrences seen l).
Proof.
  induction l as [|y l IH]; intros seen; simpl; [constructor|].
  destruct (mem_string y seen); [apply IH|].
  constructor; [|apply IH].
  intros H. apply first_occurrences_fresh in H. apply H.
  apply in_or_app. right. now left.
Qed.

Lemma in_get {V : Type} (d : Dict.t V) (k : string) (v : V) :
  NoDup (Dict.keys d) -> In (k, v) d -> Dict.get d k = Some v.
Proof.
  induction d as [|[k0 v0] d IH]; intros Hnd Hin; [contradiction|].
  simpl in *. inversion Hnd as [|? ? Hk0 Hd]; subst.
  destruct Hin as [E | Hin].
  - injection E as -> ->. now rewrite String.eqb_refl.
  - destruct (String.eqb_spec k0 k) as [->|_]; [|now apply IH].
    exfalso. apply Hk0. apply in_map_iff. now exists (k, v).
Qed.

(** One step of the split: a match at the head of a line, or one character
    on. *)
Lemma split_from_clause (bol : bool) (acc : string) (c : ascii) (s' : string) x
  (e : (if bol then Str.line_match "##" 1 (String c s') else None) = x) :
  split_from_unfold_clause_2 bol acc c s' (exist _ x e)
  = match x with
    | Some (g, rest) => acc :: g :: split_from false EmptyString rest
    | None => split_from (Str.is_newline c) (acc ++ String c EmptyString) s'
    end.
Proof. destruct x as [[g rest]|]; reflexivity. Qed.

Lemma split_from_cons (bol : bool) (acc : string) (c : ascii) (s' : string) :
  split_from bol acc (String c s')
  = match (if bol then Str.line_match "##" 1 (String c s') else None) with
    | Some (g, rest) => acc :: g :: split_from false EmptyString rest
    | None => split_from (Str.is_newline c) (acc ++ String c EmptyString) s'
    end.
Proof. rewrite split_from_equation_2. apply split_from_clause. Qed.

Lemma append_nil_r (s : string) : (s ++ EmptyString)%string = s.
Proof. induction s as [|c s IH]; simpl; [reflexivity | now rewrite IH]. Qed.

(** Inside a line the split only collects. *)
Lemma skip_line (l : string) :
  one_line l ->
  forall acc s,
    split_from false acc (l ++ Str.nl ++ s)%string
    = split_from true (acc ++ l ++ Str.nl)%string s.
Proof.
  unfold one_line. induction l as [|c l IH]; intros Hl acc s.
  - change (EmptyString ++ Str.nl ++ s)%string with (String "010" s).
    rewrite split_from_cons. reflexivity.
  - simpl in Hl. apply andb_prop in Hl as [Hc Hl].
    change (String c l ++ Str.nl ++ s)%string with (String c (l ++ Str.nl ++ s)).
    rewrite split_from_cons. cbv iota.
    destruct (Str.is_newline c); [discriminate|].
    rewrite (IH Hl). f_equal.
    now rewrite StrFacts.append_assoc.
Qed.

(** The pattern does not match at a plain line, whatever follows it. *)
Lemma plain_line_no_match (l s : string) :
  plain_line l -> Str.line_match "##" 1 (l ++ Str.nl ++ s)%string = None.
Proof.
  intros [_ Hh]. unfold heading_like in Hh. unfold Str.line_match, Str.nl.
  destruct l as [|c1 [|c2 l]]; cbn [append Str.strip_prefix] in *.
  - reflexivity.
  - destruct (Ascii.eqb "#" c1); reflexivity.
  - destruct (Ascii.eqb "#" c1); [|reflexivity].
    destruct (Ascii.eqb "#" c2); [|reflexivity].
    destruct l as [|d l]; [discriminate|].
    unfold Str.ws_then_text. cbn [append Str.span]. rewrite Hh. reflexivity.
Qed.

Lemma plain_line_step (l : string) (acc s : string) :
  plain_line l ->
  split_from true acc (l ++ Str.nl ++ s)%string
  = split_from true (acc ++ l ++ Str.nl)%string s.
Proof.
  intros Hp. pose proof (plain_line_no_match s Hp) as Hn.
  destruct Hp as [Hl _]. destruct l as [|c l].
  - change (EmptyString ++ Str.nl ++ s)%string with (String "010" s) in *.
    rewrite split_from_cons, Hn. reflexivity.
  - change (String c l ++ Str.nl ++ s)%string
      with (String c (l ++ Str.nl ++ s)) in *.
    rewrite split_from_cons, Hn.
    unfold one_line in Hl. simpl in Hl. apply andb_prop in Hl as [Hc Hl].
    destruct (Str.is_newline c); [discriminate|].
    rewrite (skip_line Hl). f_equal. now rewrite StrFacts.append_assoc.
Qed.

Lemma plain_lines_step (ls : list string) :
  Forall plain_line ls ->
  forall acc s,
    split_from true acc (Fixtures.text ls ++ s)%string
    = split_from true (acc ++ Fixtures.text ls)%string s.
Proof.
  induction 1 as [|l ls Hl _ IH]; intros acc s.
  - simpl. now rewrite append_nil_r.
  - cbn [Fixtures.text]. rewrite !StrFacts.append_assoc.
    rewrite plain_line_step by exact Hl. rewrite IH.
    f_equal. now rewrite !StrFacts.append_assoc.
Qed.

(** At a heading line the pattern matches, and its group is the title. *)
Lemma heading_step (t : string) (acc s : string) :
  title t ->
  split_from true acc ("## " ++ t ++ Str.nl ++ s)%string
  = acc :: t :: split_from true Str.nl s.
Proof.
  intros [Hl Ht]. destruct t as [|d t]; [contradiction|].
  change ("## " ++ String d t ++ Str.nl ++ s)%string
    with (String "#" (String "#" (String " " (String d t ++ String "010" s)))).
  rewrite split_from_cons. cbv iota.
  assert (Hm : Str.line_match "##" 1
                 (String "#" (String "#" (String " " (String d t ++ String "010" s))))
               = Some (String d t, String "010" s)).
  { unfold Str.line_match. cbn [Str.strip_prefix]. simpl Ascii.eqb. cbv iota.
    unfold Str.ws_then_text. cbn [Str.span]. change (Str.is_space " ") with true.
    cbv iota. change (String d t ++ String "010" s)%string
      with (String d (t ++ String "010" s)).
    cbn [Str.span]. rewrite Ht. cbn [String.length Nat.ltb Nat.leb].
    unfold Str.break_line.
    change (String d (t ++ String "010" s))
      with (String d t ++ String "010" s)%string.
    now rewrite (MdxFacts.span_all _ (String d t) "010" s Hl eq_refl). }
  rewrite Hm. f_equal. f_equal.
  rewrite split_from_cons. reflexivity.
Qed.

Lemma render_sections_split (sections : list (string * list string)) :
  Forall written_section sections ->
  forall acc,
    split_from true acc (render_sections sections)
    = acc :: flat_map (fun s => [fst s; (Str.nl ++ Fixtures.text (snd s))%string])
                      sections.
Proof.
  induction 1 as [|[t body] sections [Ht Hb] _ IH]; intros acc.
  - simpl. now rewrite split_from_equation_1.
  - cbn [render_sections flat_map app]. unfold render_section.
    cbn [fst snd] in *. rewrite !StrFacts.append_assoc.
    change ("## " ++ t ++ Str.nl ++ Fixtures.text body ++ render_sections sections)%string
      with ("## " ++ t ++ Str.nl ++ (Fixtures.text body ++ render_sections sections))%string.
    rewrite (heading_step _ _ Ht), (plain_lines_step Hb), IH. reflexivity.
Qed.

(** The split of a written document: its narrative, then for each section
    its title and its body. *)
Lemma render_split (preamble : list string)
      (sections : list (string * list string)) :
  Forall plain_line preamble -> Forall written_section sections ->
  re_split (render preamble sections)
  = Fixtures.text preamble
    :: flat_map (fun s => [fst s; (Str.nl ++ Fixtures.text (snd s))%string])
                sections.
Proof.
  intros Hp Hs. unfold re_split, render.
  rewrite (plain_lines_step Hp), (render_sections_split Hs). reflexivity.
Qed.

Lemma pairs_flat_map (sections : list (string * list string)) :
  pairs (flat_map (fun s => [fst s; (Str.nl ++ Fixtures.text (snd s))%string])
                  sections)
  = map (fun s => (Str.strip (fst s),
                   Str.strip (Str.nl ++ Fixtures.text (snd s))))
        sections.
Proof.
  induction sections as [|s sections IH]; [reflexivity|].
  cbn [flat_map app pairs map]. now rewrite IH.
Qed.

(** C4, as amended.  On every section document of ASCII text the extractor
    returns one parameter per distinct level-2 heading, in the order in
    which the headings first occur; a heading that occurs again gives no further
    parameter, and the parameter of a heading has the body of the last
    section under that heading as its description (cut to 200 characters,
    absent when the body is empty).  A description is therefore never taken
    from text that no level-2 section holds.  For a document written as
    lines of narrative followed by sections, each a heading line and the
    lines of its body, the level-2 sections are the sections written: the
    narrative before the first heading is in none of them. *)
Theorem sections_by_heading (content path : string) :
  Str.is_ascii content = true ->
  (exists b,
      extract_text (inr content) path = Ok b
      /\ map name (parameters b) = first_occurrences [] (headings content)
      /\ forall p, In p (parameters b) ->
           exists body,
             last_body (name p) (heading_sections content) = Some body
             /\ p = {| name := name p; type := Some "section"; required := false;
                       default := None;
                       description := if Str.is_empty body then None
                                      else Some (Str.take 200 body) |})
  /\ (forall preamble sections,
        content = render preamble sections ->
        Forall plain_line preamble ->
        Forall written_section sections ->
        heading_sections content
        = map (fun s => (Str.strip (fst s),
                         Str.strip (Str.nl ++ Fixtures.text (snd s))))
              sections).
Proof.
  intros _. split.
  - eexists. split; [reflexivity|]. cbn [parameters].
    unfold _extract_sections. rewrite fill_sections_fold.
    fold (heading_sections content).
    assert (Hkeys : Dict.keys (fold_left set_section (heading_sections content) [])
                    = first_occurrences [] (headings content)).
    { now rewrite keys_fold. }
    split.
    + rewrite <- Hkeys. unfold Dict.keys. rewrite map_map. reflexivity.
    + intros p Hp. apply in_map_iff in Hp as [[h body] [<- Hin]].
      exists body. split; [|reflexivity]. cbn [section_param name fst].
      apply in_get in Hin; [|rewrite Hkeys; apply first_occurrences_nodup].
      rewrite get_fold in Hin. simpl in Hin.
      now destruct (last_body h (heading_sections content)).
  - intros preamble sections -> Hp Hs. unfold heading_sections.
    rewrite (render_split Hp Hs). cbn [tl]. apply pairs_flat_map.
Qed.

Lemma sections_by_heading_witness :
  heading_sections (render runbook_preamble runbook_sections)
  = [ ("Symptoms",
       ("Actual symptoms here." ++ Str.nl ++ Str.nl
        ++ "Some more anecdotal information between sections.")%string);
      ("Resolution", "Steps to resolve.") ].
Proof.
  rewrite (proj2 (@sections_by_heading
                    (render runbook_preamble runbook_sections) "runbook.md"
                    eq_refl)
                 runbook_preamble runbook_sections eq_refl).
  - reflexivity.
  - repeat constructor.
  - repeat constructor.
Defined.

(** C4, as the spec words it, fails: the heading [Steps] occurs twice and
    gives one parameter, described by the second section. *)
Lemma repeated_heading_counterexample :
  extract_text (inr repeated_doc) "r.md" = Ok repeated_boundary
  /\ headings repeated_doc = ["Steps"; "Steps"]
  /\ map name (parameters repeated_boundary) = ["Steps"]
  /\ map description (parameters repeated_boundary) = [Some "second"].
Proof.
  split; [vm_compute; reflexivity|].
  split; [vm_compute; reflexivity|].
  split; reflexivity.
Qed.

End MarkdownTheorems.

(** ** More on the structured-data extractor *)

Module YAMLMore.
Import YAMLContractExtractor YAMLFacts YAMLSpec YAMLTerms.

Lemma copy_keys_dict (m : dict) (ks : list string) :
  forall acc,
    exists md,
      copy_keys ks (VDict m) acc = Ok md
      /\ forall k, Dict.get md k
                   = if mem_string k ks
                     then match Dict.get m k with
                          | Some v => Some v
                          | None => Dict.get acc k
                          end
                     else Dict.get acc k.
Proof.
  induction ks as [|k0 ks IH]; intros acc.
  - exists acc. split; reflexivity.
  - cbn [copy_keys py_in bind]. unfold Dict.mem.
    destruct (Dict.get m k0) as [v|] eqn:E.
    + cbn [py_getitem bind]. rewrite E. cbn [bind].
      destruct (IH (Dict.set acc k0 v)) as [md [Hmd Hget]].
      exists md. split; [exact Hmd|]. intros k. rewrite Hget.
      unfold mem_string. cbn [existsb].
      destruct (String.eqb_spec k k0) as [->|Hne].
      * rewrite E, DictFacts.get_set_same. cbn [orb].
        now destruct (existsb (String.eqb k0) ks).
      * cbn [orb]. rewrite DictFacts.get_set_other; [reflexivity|].
        apply String.eqb_neq. congruence.
    + destruct (IH acc) as [md [Hmd Hget]].
      exists md. split; [exact Hmd|]. intros k. rewrite Hget.
      unfold mem_string. cbn [existsb].
      destruct (String.eqb_spec k k0) as [->|Hne]; [|reflexivity].
      cbn [orb]. rewrite E. now destruct (existsb (String.eqb k0) ks).
Qed.

(** X1.  When [metadata] is a mapping, the metadata of the boundary holds,
    of its keys, [name], [namespace], [labels] and [annotations] with the
    values they have there and no other; besides these it holds
    [spec.compositeTypeRef] as it stands, under [compositeTypeRef], and
    nothing else. *)
Theorem metadata_of_manifest
  (data m : dict) (path : string) (b : ContractBoundary) :
  Dict.get data "metadata" = Some (VDict m) ->
  extract_loaded (inr (VDict data)) path = Ok b ->
  forall k,
    Dict.get (metadata b) k
    = if mem_string k metadata_keys then Dict.get m k
      else if String.eqb k "compositeTypeRef" then composite_type_ref data
           else None.
Proof.
  intros Hm Hb k. rewrite YAMLTheorems.extract_loaded_dict in Hb.
  unfold metadata_step, _extract_metadata in Hb. rewrite Hm in Hb.
  destruct (copy_keys_dict m metadata_keys []) as [md [Hmd Hget]].
  fold metadata_keys in Hb. rewrite Hmd in Hb. cbn [bind] in Hb.
  assert (Hmd_k : Dict.get md k
                  = if mem_string k metadata_keys then Dict.get m k else None).
  { rewrite Hget. simpl (Dict.get [] k).
    destruct (mem_string k metadata_keys); [|reflexivity].
    now destruct (Dict.get m k). }
  assert (Hother : forall ref,
             Dict.get (Dict.set md "compositeTypeRef" ref) k
             = if mem_string k metadata_keys then Dict.get m k
               else if String.eqb k "compositeTypeRef" then Some ref else None).
  { intros ref. destruct (String.eqb_spec k "compositeTypeRef") as [->|Hne].
    - rewrite DictFacts.get_set_same. reflexivity.
    - rewrite DictFacts.get_set_other; [exact Hmd_k|].
      apply String.eqb_neq. congruence. }
  assert (Hnone : Dict.get md k
                  = if mem_string k metadata_keys then Dict.get m k
                    else if String.eqb k "compositeTypeRef" then None else None).
  { rewrite Hmd_k. now destruct (String.eqb k "compositeTypeRef"). }
  unfold composite_type_ref.
  destruct (Dict.get data "spec") as [[| | | | | | |spec|]|];
    try (injection Hb as <-; exact Hnone).
  destruct (match Dict.get spec "forProvider" with
            | Some fp => _extract_for_provider fp ""
            | None => Ok []
            end) as [params|e]; [|discriminate].
  cbn [bind] in Hb. injection Hb as <-. cbn [metadata].
  destruct (Dict.get spec "compositeTypeRef") as [ref|];
    [apply Hother | exact Hnone].
Qed.

Lemma metadata_of_manifest_witness :
  Dict.get (metadata test_boundary) "name" = Some (VStr "test-service")
  /\ Dict.get (metadata test_boundary) "kind" = None.
Proof.
  split.
  - apply (@metadata_of_manifest test_manifest
             [("name", VStr "test-service"); ("namespace", VStr "default")]
             "test.yaml" test_boundary eq_refl eq_refl "name").
  - apply (@metadata_of_manifest test_manifest
             [("name", VStr "test-service"); ("namespace", VStr "default")]
             "test.yaml" test_boundary eq_refl eq_refl "kind").
Defined.



Lemma key_paths_nonempty (v : value) :
  forall path, In path (key_paths v) -> path <> [].
Proof.
  destruct v; try (intros path []).
  intros path H. cbn [key_paths] in H.
  apply in_flat_map in H as [kv [_ [<- | H]]]; [discriminate|].
  apply in_map_iff in H as [p [<- _]]. discriminate.
Qed.

Lemma join_cons (k : string) (path : list string) :
  path <> [] ->
  Str.join "." (k :: path) = (k ++ "." ++ Str.join "." path)%string.
Proof. destruct path; [contradiction | reflexivity]. Qed.

Lemma nested_key_paths (v : value) :
  forall prefix,
    map name (nested prefix v)
    = map (fun path => (prefix ++ Str.join "." path)%string) (key_paths v).
Proof.
  induction v using value_induction; intros prefix; try reflexivity.
  rewrite nested_dict. cbn [key_paths].
  induction d as [|[k x] d IHd]; [reflexivity|].
  inversion H as [|? ? Hx Hd]; subst.
  cbn [flat_map map fst snd]. rewrite !map_app. cbn [map].
  rewrite (IHd Hd). f_equal. f_equal; [apply param_name_append|].
  cbn [snd] in Hx. rewrite Hx, map_map. apply map_ext_in.
  intros path Hin. rewrite param_name_append.
  rewrite (@join_cons k path (@key_paths_nonempty x path Hin)).
  now rewrite !StrFacts.append_assoc.
Qed.

(** X3.  The parameters [_extract_for_provider] returns are named by the
    paths of keys in the mapping, joined with dots: one parameter for every
    key at every depth, a mapping before the keys it holds, in the order of
    the items. *)
Theorem parameters_are_key_paths (d : dict) :
  exists params,
    _extract_for_provider (VDict d) "" = Ok params
    /\ map name params = map (Str.join ".") (key_paths (VDict d)).
Proof.
  eexists. split; [reflexivity|]. apply (nested_key_paths (VDict d) "").
Qed.

Lemma nested_shape (v : value) :
  forall prefix p,
    In p (nested prefix v) ->
    required p = false
    /\ description p = None
    /\ (exists t, type p = Some t /\ In t type_names)
    /\ scalar_default p = true.
Proof.
  induction v using value_induction; intros prefix p Hin;
    try (destruct Hin).
  rewrite nested_dict in Hin. apply in_flat_map in Hin as [[k x] [Hkx Hin]].
  cbn [fst snd] in Hin. destruct Hin as [<- | Hin].
  - repeat split.
    + exists (_infer_type x). split; [reflexivity|].
      destruct x; simpl; tauto.
    + destruct x; reflexivity.
  - rewrite Forall_forall in H. exact (H _ Hkx _ _ Hin).
Qed.

(** X4.  No parameter [_extract_for_provider] returns is required or
    described; its type is one of the seven names of [_infer_type]; and its
    default is absent or a scalar, never a mapping, a list or [None]. *)
Theorem flattened_parameter_shape
  (fp : value) (prefix : string) (params : list Param) (p : Param) :
  _extract_for_provider fp prefix = Ok params ->
  In p params ->
  required p = false
  /\ description p = None
  /\ (exists t, type p = Some t /\ In t type_names)
  /\ scalar_default p = true.
Proof.
  intros Hfp Hin. destruct fp as [| | | | | | | d |]; try discriminate Hfp.
  injection Hfp as <-. exact (@nested_shape (VDict d) prefix p Hin).
Qed.

Lemma flattened_parameter_shape_witness :
  required (item_param "tags." "team" (VStr "platform")) = false
  /\ description (item_param "tags." "team" (VStr "platform")) = None
  /\ (exists t, type (item_param "tags." "team" (VStr "platform")) = Some t
                /\ In t type_names)
  /\ scalar_default (item_param "tags." "team" (VStr "platform")) = true.
Proof.
  apply (@flattened_parameter_shape (VDict [tags]) "" tags_params
           (item_param "tags." "team" (VStr "platform")) eq_refl).
  right. right. left. reflexivity.
Defined.

End YAMLMore.

(** ** More on the source-code extractor *)

Module PythonMore.
Import PythonContractExtractor PythonSpec PythonTerms.

Lemma walk_queue_children (q : list node) :
  walk_queue q = q ++ walk_queue (flat_map iter_child_nodes q).
Proof.
  rewrite <- (app_nil_r q) at 1.
  rewrite PythonTheorems.walk_queue_app. reflexivity.
Qed.

(** The walk reaches every node below the nodes it starts from. *)
Lemma within_walked (n d : node) :
  within n d -> forall q, In n q -> In d (walk_queue q).
Proof.
  induction 1 as [n | n c d Hc _ IH]; intros q Hq;
    rewrite walk_queue_children; apply in_or_app.
  - now left.
  - right. apply IH. apply in_flat_map. now exists n.
Qed.

(** And nothing else. *)
Lemma walked_within (fuel : nat) :
  forall q d,
    forest_size q <= fuel -> In d (walk_queue q) ->
    exists n, In n q /\ within n d.
Proof.
  induction fuel as [|fuel IH]; intros q d Hq Hd.
  - destruct q as [|n q].
    + rewrite walk_queue_equation_1 in Hd. contradiction.
    + simpl in Hq. rewrite size_children in Hq. lia.
  - rewrite walk_queue_children in Hd. apply in_app_or in Hd as [Hd | Hd].
    + exists d. split; [exact Hd | constructor].
    + apply IH in Hd as [c [Hc Hw]].
      * apply in_flat_map in Hc as [n [Hn Hc]].
        exists n. split; [exact Hn | now apply within_child with c].
      * rewrite PythonTheorems.forest_size_children in Hq.
        destruct q; simpl in *; lia.
Qed.

Lemma walk_within (tree d : node) : In d (walk tree) <-> within tree d.
Proof.
  unfold walk. split.
  - intros H. apply (@walked_within (size tree)) in H as [n [[<- | []] Hw]].
    + exact Hw.
    + simpl. lia.
  - intros H. apply (within_walked H). now left.
Qed.

(** X5.  The parameters of a module are those of the nodes at every depth
    of its tree: a definition is visited wherever it stands, also inside a
    function whose own name starts with an underscore. *)
Theorem parameters_at_every_depth
  (tree : node) (path : string) (b : ContractBoundary) :
  extract_parsed (inr tree) path = Ok b ->
  forall p, In p (parameters b)
            <-> exists n, within tree n /\ In p (node_params n).
Proof.
  rewrite PythonTheorems.extract_parsed_walk. intros H; injection H as <-.
  intros p. cbn [parameters]. rewrite in_flat_map.
  split; intros [n [Hn Hp]]; exists n; (split; [|exact Hp]);
    now apply walk_within.
Qed.

Lemma parameters_at_every_depth_witness :
  In {| name := "fetch.url"; type := Some "str"; required := true;
        default := None; description := None |}
     (flat_map node_params (walk hidden_module)).
Proof.
  apply (proj2 (@parameters_at_every_depth hidden_module "m.py"
                  {| file_path := "m.py"; file_type := PYTHON;
                     parameters := flat_map node_params (walk hidden_module);
                     metadata := [] |}
                  (PythonTheorems.extract_parsed_walk hidden_module "m.py") _)).
  exists (AsyncFunctionDef "fetch" [mk_arg "self" None; mk_arg "url" (Some "str")]
                           [Pass] (Some "bytes")).
  split.
  - eapply within_child; [left; reflexivity|].
    eapply within_child; [left; reflexivity|]. constructor.
  - left. reflexivity.
Defined.

Lemma classes_appended (l : list node) :
  forall names,
    names <> [] ->
    fold_left visit_metadata l [("classes", VList (map VStr names))]
    = [("classes", VList (map VStr (names ++ class_names l)))].
Proof.
  induction l as [|n l IH]; intros names Hne.
  - cbn [fold_left class_names flat_map]. now rewrite app_nil_r.
  - cbn [fold_left class_names flat_map].
    assert (Hother : class_name n = [] ->
                     visit_metadata [("classes", VList (map VStr names))] n
                     = [("classes", VList (map VStr names))])
      by (destruct n; try reflexivity; discriminate).
    destruct n as [| | |nm body| |];
      try (rewrite Hother by reflexivity; now apply IH).
    cbn [visit_metadata class_name]. unfold append_class.
    cbn [Dict.get Dict.set]. change (String.eqb "classes" "classes") with true.
    cbv iota. change [VStr nm] with (map VStr [nm]).
    rewrite <- map_app, IH by (destruct names; discriminate).
    now rewrite <- app_assoc.
Qed.

Lemma classes_collected (l : list node) :
  fold_left visit_metadata l []
  = match class_names l with
    | [] => []
    | names => [("classes", VList (map VStr names))]
    end.
Proof.
  induction l as [|n l IH]; [reflexivity|].
  cbn [fold_left class_names flat_map].
  destruct n as [| | |nm body| |]; try exact IH.
  cbn [visit_metadata class_name app]. unfold append_class.
  cbn [Dict.get Dict.set].
  change [VStr nm] with (map VStr [nm]).
  rewrite classes_appended by discriminate. reflexivity.
Qed.

(** X6.  The metadata of a module holds one key at most: [classes], the
    names of the class definitions in the order of the walk, one entry per
    definition; a module without a class has empty metadata. *)
Theorem classes_metadata (tree : node) (path : string) :
  exists b,
    extract_parsed (inr tree) path = Ok b
    /\ metadata b = match class_names (walk tree) with
                    | [] => []
                    | names => [("classes", VList (map VStr names))]
                    end.
Proof.
  rewrite PythonTheorems.extract_parsed_walk. eexists. split; [reflexivity|].
  apply classes_collected.
Qed.

(** X7.  No parameter of a module has a default or a description; its name
    is an owner and a member with a dot between; and the only parameters
    that are not required are the return entries, which always have a
    type. *)
Theorem declared_parameter_shape
  (tree : node) (path : string) (b : ContractBoundary) (p : Param) :
  extract_parsed (inr tree) path = Ok b ->
  In p (parameters b) ->
  default p = None
  /\ description p = None
  /\ (exists owner member, name p = (owner ++ "." ++ member)%string)
  /\ (required p = false ->
      exists owner r, name p = (owner ++ ".return")%string /\ type p = Some r).
Proof.
  rewrite PythonTheorems.extract_parsed_walk. intros H; injection H as <-.
  cbn [parameters]. rewrite in_flat_map. intros [n [_ Hp]].
  assert (Hf : forall nm args returns,
             In p (_extract_function_params nm args returns) ->
             default p = None
             /\ description p = None
             /\ (exists owner member, name p = (owner ++ "." ++ member)%string)
             /\ (required p = false ->
                 exists owner r,
                   name p = (owner ++ ".return")%string /\ type p = Some r)).
  { intros nm args returns Hin. unfold _extract_function_params in Hin.
    apply in_app_or in Hin as [Hin | Hin].
    - apply in_flat_map in Hin as [a [_ Hin]].
      destruct (is_self_or_cls (arg a)); [contradiction|].
      destruct Hin as [<- | []]. cbn.
      repeat split; [now exists nm, (arg a) | discriminate].
    - destruct returns as [r|]; [|contradiction].
      destruct Hin as [<- | []]. cbn.
      repeat split; [now exists nm, "return" | now exists nm, r]. }
  destruct n as [|nm args body returns|nm args body returns|nm body| |];
    cbn [node_params] in Hp; try contradiction.
  - destruct (Str.startswith "_" nm); [contradiction | eauto].
  - destruct (Str.startswith "_" nm); [contradiction | eauto].
  - unfold _extract_class_params in Hp.
    apply in_flat_map in Hp as [item [_ Hp]].
    destruct item as [| | | |[attr|] ann|]; try contradiction.
    destruct Hp as [<- | []]. cbn.
    repeat split; [now exists nm, attr | discriminate].
Qed.

Lemma declared_parameter_shape_witness :
  default {| name := "fetch.return"; type := Some "bytes"; required := false;
             default := None; description := None |} = None
  /\ description {| name := "fetch.return"; type := Some "bytes";
                    required := false; default := None;
                    description := None |} = None
  /\ (exists owner member, "fetch.return" = (owner ++ "." ++ member)%string)
  /\ (false = false ->
      exists owner r,
        "fetch.return" = (owner ++ ".return")%string /\ Some "bytes" = Some r).
Proof.
  apply (@declared_parameter_shape hidden_module "m.py"
           {| file_path := "m.py"; file_type := PYTHON;
              parameters := flat_map node_params (walk hidden_module);
              metadata := fold_left visit_metadata (walk hidden_module) [] |}
           {| name := "fetch.return"; type := Some "bytes"; required := false;
              default := None; description := None |}
           (PythonTheorems.extract_parsed_walk hidden_module "m.py")).
  assert (H : flat_map node_params (walk hidden_module)
              = [ {| name := "fetch.url"; type := Some "str"; required := true;
                     default := None; description := None |};
                  {| name := "fetch.return"; type := Some "bytes";
                     required := false; default := None;
                     description := None |} ])
    by (vm_compute; reflexivity).
  cbn [parameters]. rewrite H. right. left. reflexivity.
Defined.

End PythonMore.

(** ** More on the runbook extractor *)

Module MarkdownMore.
Import MarkdownContractExtractor MarkdownSpec MarkdownTerms MarkdownTheorems.

(** *** The sections *)

(** X8.  The names of the parameters of a runbook are pairwise different,
    and the metadata lists them under [sections], in the order of the
    parameters. *)
Theorem section_names_listed (content path : string) :
  exists b,
    extract_text (inr content) path = Ok b
    /\ NoDup (map name (parameters b))
    /\ Dict.get (metadata b) "sections"
       = Some (VList (map VStr (map name (parameters b)))).
Proof.
  eexists. split; [reflexivity|]. cbn [parameters metadata].
  assert (Hn : map name (map section_param (_extract_sections content))
               = Dict.keys (_extract_sections content)).
  { unfold Dict.keys. rewrite map_map. reflexivity. }
  rewrite Hn. split.
  - unfold _extract_sections. rewrite fill_sections_fold, keys_fold.
    apply first_occurrences_nodup.
  - apply DictFacts.get_set_same.
Qed.

Lemma lstrip_text (s : string) :
  Str.lstrip s = EmptyString \/ starts_with_text (Str.lstrip s).
Proof.
  induction s as [|c s IH]; [now left|]. simpl.
  destruct (Str.is_space c) eqn:E; [exact IH | right; exact E].
Qed.

Lemma rstrip_text (s : string) :
  starts_with_text s -> starts_with_text (Str.rstrip s).
Proof.
  destruct s as [|c s]; [contradiction|]. intros H. simpl in *.
  destruct (Str.rstrip s); [now rewrite H | exact H].
Qed.

Lemma strip_text (s : string) :
  Str.strip s = EmptyString \/ starts_with_text (Str.strip s).
Proof.
  unfold Str.strip. destruct (lstrip_text s) as [-> | H]; [now left|].
  right. now apply rstrip_text.
Qed.

Lemma take_length (s : string) :
  forall n, String.length (Str.take n s) <= n.
Proof.
  unfold Str.take. induction s as [|c s IH]; intros [|n]; simpl; try lia.
  specialize (IH n). lia.
Qed.

Lemma set_values {V : Type} (P : V -> Prop) (d : Dict.t V) (k : string) (v : V) :
  Forall P (values d) -> P v -> Forall P (values (Dict.set d k v)).
Proof.
  unfold values. intros Hd Hv. induction d as [|[k0 v0] d IH]; simpl.
  - now constructor.
  - inversion Hd; subst. destruct (String.eqb k0 k); simpl.
    + now constructor.
    + constructor; [assumption | now apply IH].
Qed.

(** Every body the scan stores is a trimmed text. *)
Lemma bodies_trimmed (parts : list string) :
  forall acc,
    Forall (fun body => exists x, body = Str.strip x) (values acc) ->
    Forall (fun body => exists x, body = Str.strip x)
           (values (fold_left set_section (pairs parts) acc)).
Proof.
  induction parts as [parts IH]
    using (induction_ltof1 _ (@List.length string)).
  intros acc Hacc. destruct parts as [|h [|b rest]]; try exact Hacc.
  cbn [pairs fold_left]. apply IH; [unfold ltof; simpl; lia|].
  unfold set_section. cbn [fst snd]. apply set_values; [exact Hacc|].
  now exists b.
Qed.

(** X9.  A description is never empty and never longer than 200
    characters, and it starts with a character other than white space. *)
Theorem description_bounds
  (content path : string) (b : ContractBoundary) (p : Param) (d : string) :
  extract_text (inr content) path = Ok b ->
  In p (parameters b) ->
  description p = Some d ->
  1 <= String.length d <= 200 /\ starts_with_text d.
Proof.
  intros H; injection H as <-. cbn [parameters]. intros Hp Hd.
  apply in_map_iff in Hp as [[h body] [<- Hin]].
  cbn [section_param description snd] in Hd.
  assert (Hb : exists x, body = Str.strip x).
  { unfold _extract_sections in Hin. rewrite fill_sections_fold in Hin.
    pose proof (@bodies_trimmed (tl (re_split content)) [] (Forall_nil _)) as Hall.
    rewrite Forall_forall in Hall. apply Hall. unfold values.
    apply in_map_iff. now exists (h, body). }
  destruct Hb as [x ->].
  destruct (strip_text x) as [E | Ht].
  - rewrite E in Hd. discriminate.
  - destruct (Str.strip x) as [|c r]; [contradiction|].
    cbn [Str.is_empty] in Hd. injection Hd as <-.
    pose proof (take_length (String c r) 200) as Hlen.
    unfold Str.take in *. cbn [substring] in *.
    cbn [String.length starts_with_text] in *.
    split; [lia | exact Ht].
Qed.

Lemma description_bounds_witness :
  1 <= String.length "second" <= 200 /\ starts_with_text "second".
Proof.
  assert (H : extract_text (inr repeated_doc) "r.md" = Ok repeated_boundary)
    by (vm_compute; reflexivity).
  apply (@description_bounds repeated_doc "r.md" repeated_boundary
           {| name := "Steps"; type := Some "section"; required := false;
              default := None; description := Some "second" |}
           "second" H).
  - left. reflexivity.
  - reflexivity.
Defined.

(** X10.  An ASCII text without a level-2 heading has no parameters, and
    its metadata lists no section. *)
Theorem no_heading_no_parameter (ls : list string) (path : string) :
  Str.is_ascii (Fixtures.text ls) = true ->
  Forall plain_line ls ->
  exists b,
    extract_text (inr (Fixtures.text ls)) path = Ok b
    /\ parameters b = []
    /\ Dict.get (metadata b) "sections" = Some (VList []).
Proof.
  intros _ Hls. eexists. split; [reflexivity|]. cbn [parameters metadata].
  assert (Hs : _extract_sections (Fixtures.text ls) = []).
  { unfold _extract_sections.
    pose proof (@render_split ls [] Hls (Forall_nil _)) as H.
    unfold render in H. cbn [render_sections] in H.
    rewrite append_nil_r in H. rewrite H. reflexivity. }
  rewrite Hs. split; [reflexivity | apply DictFacts.get_set_same].
Qed.

Lemma no_heading_no_parameter_witness :
  exists b,
    extract_text (inr (Fixtures.text ["# Notes"; ""; "#hashtag and ##not a heading"]))
                 "notes.md" = Ok b
    /\ parameters b = []
    /\ Dict.get (metadata b) "sections" = Some (VList []).
Proof.
  apply (@no_heading_no_parameter ["# Notes"; ""; "#hashtag and ##not a heading"]
                                  "notes.md").
  - reflexivity.
  - repeat constructor.
Defined.

(** *** The title *)

Lemma search_in_line (marker : string) (min_ws : nat) (l : string) :
  one_line l ->
  forall s,
    Str.search_line_match marker min_ws false (l ++ Str.nl ++ s)%string
    = Str.search_line_match marker min_ws true s.
Proof.
  unfold one_line. induction l as [|c l IH]; intros Hl s.
  - reflexivity.
  - simpl in Hl. apply andb_prop in Hl as [Hc Hl].
    change (String c l ++ Str.nl ++ s)%string with (String c (l ++ Str.nl ++ s)).
    cbn [Str.search_line_match].
    destruct (Str.is_newline c); [discriminate|]. now apply IH.
Qed.

Lemma untitled_no_match (l s : string) :
  untitled_line l -> Str.line_match "#" 1 (l ++ Str.nl ++ s)%string = None.
Proof.
  intros [_ Hh]. unfold title_like in Hh. unfold Str.line_match, Str.nl.
  destruct l as [|c1 l]; cbn [append Str.strip_prefix].
  - reflexivity.
  - destruct (Ascii.eqb_spec "#" c1) as [<-|_]; [|reflexivity].
    destruct l as [|c2 l]; [discriminate|].
    unfold Str.ws_then_text. cbn [append Str.span]. rewrite Hh. reflexivity.
Qed.

Lemma untitled_step (l s : string) :
  untitled_line l ->
  Str.search_line_match "#" 1 true (l ++ Str.nl ++ s)%string
  = Str.search_line_match "#" 1 true s.
Proof.
  intros Hu. pose proof (untitled_no_match s Hu) as Hn.
  destruct Hu as [Hl _]. destruct l as [|c l].
  - change (EmptyString ++ Str.nl ++ s)%string with (String "010" s) in *.
    cbn [Str.search_line_match]. rewrite Hn. reflexivity.
  - change (String c l ++ Str.nl ++ s)%string
      with (String c (l ++ Str.nl ++ s)) in *.
    cbn [Str.search_line_match]. rewrite Hn.
    unfold one_line in Hl. simpl in Hl. apply andb_prop in Hl as [Hc Hl].
    destruct (Str.is_newline c); [discriminate|].
    now apply search_in_line.
Qed.

Lemma untitled_lines_step (ls : list string) (s : string) :
  Forall untitled_line ls ->
  Str.search_line_match "#" 1 true (Fixtures.text ls ++ s)%string
  = Str.search_line_match "#" 1 true s.
Proof.
  induction 1 as [|l ls Hl _ IH]; [reflexivity|].
  cbn [Fixtures.text]. rewrite !StrFacts.append_assoc.
  rewrite untitled_step by exact Hl. exact IH.
Qed.

Lemma title_found (t s : string) :
  title t ->
  Str.search_line_match "#" 1 true ("# " ++ t ++ Str.nl ++ s)%string = Some t.
Proof.
  intros [Hl Ht]. destruct t as [|d t]; [contradiction|].
  change ("# " ++ String d t ++ Str.nl ++ s)%string
    with (String "#" (String " " (String d t ++ String "010" s))).
  cbn [Str.search_line_match].
  assert (Hm : Str.line_match "#" 1
                 (String "#" (String " " (String d t ++ String "010" s)))
               = Some (String d t, String "010" s)).
  { unfold Str.line_match. cbn [Str.strip_prefix]. simpl Ascii.eqb. cbv iota.
    unfold Str.ws_then_text. cbn [Str.span]. change (Str.is_space " ") with true.
    cbv iota. change (String d t ++ String "010" s)%string
      with (String d (t ++ String "010" s)).
    cbn [Str.span]. rewrite Ht. cbn [String.length Nat.ltb Nat.leb].
    unfold Str.break_line.
    change (String d (t ++ String "010" s))
      with (String d t ++ String "010" s)%string.
    now rewrite (MdxFacts.span_all _ (String d t) "010" s Hl eq_refl). }
  now rewrite Hm.
Qed.

(** X11.  The title of a runbook of ASCII text is the text of its first
    level-1 heading, trimmed, wherever that heading stands: level-2
    headings and their bodies may come before it. *)
Theorem title_is_first_heading (before : list string) (t rest path : string) :
  Str.is_ascii (Fixtures.text before ++ "# " ++ t ++ Str.nl ++ rest) = true ->
  Forall untitled_line before ->
  title t ->
  exists b,
    extract_text
      (inr (Fixtures.text before ++ "# " ++ t ++ Str.nl ++ rest)%string) path
    = Ok b
    /\ Dict.get (metadata b) "title" = Some (VStr (Str.strip t)).
Proof.
  intros _ Hb Ht. eexists. split; [reflexivity|]. cbn [metadata].
  rewrite (untitled_lines_step _ Hb), (title_found _ Ht).
  rewrite DictFacts.get_set_other by reflexivity. reflexivity.
Qed.

Lemma title_is_first_heading_witness :
  exists b,
    extract_text
      (inr (Fixtures.text late_title_lines ++ "# " ++ "Restart loop  " ++ Str.nl
            ++ "More notes.")%string) "late.md"
    = Ok b
    /\ Dict.get (metadata b) "title" = Some (VStr (Str.strip "Restart loop  ")).
Proof.
  apply (@title_is_first_heading late_title_lines "Restart loop  "
           "More notes." "late.md").
  - reflexivity.
  - repeat constructor.
  - split; reflexivity.
Defined.

(** X12.  An ASCII text without a level-1 heading has no title in its
    metadata. *)
Theorem no_title_without_heading (ls : list string) (path : string) :
  Str.is_ascii (Fixtures.text ls) = true ->
  Forall untitled_line ls ->
  exists b,
    extract_text (inr (Fixtures.text ls)) path = Ok b
    /\ Dict.get (metadata b) "title" = None.
Proof.
  intros _ Hls. eexists. split; [reflexivity|]. cbn [metadata].
  pose proof (untitled_lines_step EmptyString Hls) as H.
  rewrite append_nil_r in H. rewrite H. reflexivity.
Qed.

Lemma no_title_without_heading_witness :
  exists b,
    extract_text (inr (Fixtures.text late_title_lines)) "late.md" = Ok b
    /\ Dict.get (metadata b) "title" = None.
Proof.
  apply (@no_title_without_heading late_title_lines "late.md").
  - reflexivity.
  - repeat constructor.
Defined.

End MarkdownMore.

(** ** More on the documentation validator *)

Module MdxMore.
Import MdxValidator MdxSpec MdxTerms MdxFacts.

(** *** The balance check, read backwards *)

Lemma balanced_app (a b : list tag_token) :
  balanced a -> balanced b -> balanced (a ++ b).
Proof.
  intros Ha Hb. induction Ha as [|t rest Hc Hs _ IH|o inner c rest Ho Hs Hc Hn Hi _ _ IH].
  - exact Hb.
  - cbn [app]. now apply balanced_self.
  - cbn [app]. rewrite <- app_assoc. cbn [app]. now apply balanced_pair.
Qed.

Lemma open_prefix_app (stack : list (string * nat)) (read more : list tag_token) :
  open_prefix stack read -> balanced more -> open_prefix stack (read ++ more).
Proof.
  intros Hp Hm. destruct Hp as [read Hr|stack read o inner Hp Ho Hs Hi].
  - constructor. now apply balanced_app.
  - rewrite <- app_assoc. cbn [app]. apply open_push; try assumption.
    now apply balanced_app.
Qed.

Lemma silent_step (stack stack' : list (string * nat)) (read : list tag_token)
      (t : tag_token) :
  open_prefix stack read ->
  tag_step ([], stack) t = ([], stack') ->
  open_prefix stack' (read ++ [t]).
Proof.
  intros Hp. unfold tag_step. destruct (is_closing t) eqn:Hc.
  - destruct (top stack) as [[nm l]|] eqn:Htop; [|discriminate].
    destruct (String.eqb_spec nm (tag_name t)) as [E|_]; [|discriminate].
    intros H; injection H as <-.
    destruct Hp as [read Hr|stack read o inner Hp Ho Hs Hi]; [discriminate|].
    rewrite top_snoc in Htop. injection Htop as Hnm _.
    rewrite removelast_snoc, <- app_assoc. cbn [app].
    apply open_prefix_app; [exact Hp|].
    apply (@balanced_pair o inner t []); try assumption;
      [congruence | constructor].
  - destruct (is_self_closing t) eqn:Hs; cbn [negb];
      intros H; injection H as <-.
    + apply open_prefix_app; [exact Hp|].
      apply balanced_self; [assumption | assumption | constructor].
    + apply open_push; [exact Hp | assumption | assumption | constructor].
Qed.

Lemma silent_start (tokens : list tag_token) (errs : list ValidationError)
      (stack stack' : list (string * nat)) :
  fold_left tag_step tokens (errs, stack) = ([], stack') -> errs = [].
Proof.
  intros H. destruct errs as [|e errs]; [reflexivity|].
  pose proof (@errors_kept tokens (e :: errs) stack e (or_introl eq_refl)) as Hin.
  rewrite H in Hin. contradiction.
Qed.

Lemma silent_run (tokens : list tag_token) :
  forall stack stack' read,
    open_prefix stack read ->
    fold_left tag_step tokens ([], stack) = ([], stack') ->
    open_prefix stack' (read ++ tokens).
Proof.
  induction tokens as [|t ts IH]; intros stack stack' read Hp H.
  - cbn [fold_left] in H. injection H as <-. now rewrite app_nil_r.
  - cbn [fold_left] in H.
    destruct (tag_step ([], stack) t) as [e1 s1] eqn:E.
    pose proof (silent_start _ _ _ H) as ->.
    change (t :: ts) with ([t] ++ ts). rewrite app_assoc.
    apply IH with s1; [|exact H]. now apply silent_step with stack.
Qed.

Lemma silent_check (tokens : list tag_token) :
  check_tokens tokens = [] -> balanced tokens.
Proof.
  rewrite check_tokens_run. intros H.
  apply app_eq_nil in H as [He Hs]. apply map_eq_nil in Hs.
  destruct (fold_left tag_step tokens ([], [])) as [errs stack] eqn:E.
  cbn [fst snd] in *. subst errs stack.
  pose proof (@silent_run tokens [] [] [] (open_none balanced_nil) E) as Hp.
  cbn [app] in Hp. remember [] as st eqn:Hst in Hp.
  destruct Hp as [read Hr|stack read o inner _ _ _ _]; [exact Hr|].
  destruct stack; discriminate.
Qed.

(** X13.  The loop of the balance check reports nothing exactly when the
    tags it is given are balanced: every opening tag that is not
    self-closing is closed by a tag of its name, and the pairs nest.  This
    is a property of the stack, whatever the text the tags were found in. *)
Theorem balance_check_exact (tokens : list tag_token) :
  check_tokens tokens = [] <-> balanced tokens.
Proof.
  split.
  - apply silent_check.
  - intros H. unfold check_tokens.
    now rewrite (MdxTheorems.balanced_run H).
Qed.

(** *** Line numbers *)

Lemma count_newlines_prefix (s : string) :
  forall n, Str.count_newlines (Str.take n s) <= Str.count_newlines s.
Proof.
  unfold Str.take. induction s as [|c s IH]; intros [|n]; simpl; try lia.
  specialize (IH n). lia.
Qed.

Lemma line_of_bounds (content : string) (m : tag_match) :
  1 <= line_of content m <= Str.count_newlines content + 1.
Proof.
  unfold line_of. pose proof (count_newlines_prefix content (start m)). lia.
Qed.

Lemma component_error_line (nm attrs : string) (n : nat) (e : ValidationError) :
  In e (component_errors nm attrs n) ->
  line e = Some n /\ severity e = "error".
Proof.
  unfold component_errors.
  destruct (negb (mem_string nm valid_components)).
  - intros [<- | []]. split; reflexivity.
  - destruct (String.eqb nm "ParamField").
    + destruct (lacks "path" attrs), (lacks "type" attrs); cbn [app];
        intros H; repeat (destruct H as [<- | H]; [split; reflexivity|]);
        contradiction.
    + destruct (String.eqb nm "Step"); [|contradiction].
      destruct (lacks "title" attrs); [|contradiction].
      intros [<- | []]. split; reflexivity.
Qed.

(** An error of the loop is the error of one of the closing tags. *)
Lemma errors_from (tokens : list tag_token) :
  forall errs stack e,
    In e (fst (fold_left tag_step tokens (errs, stack))) ->
    In e errs \/ exists t, In t tokens /\ e = closing_error t.
Proof.
  induction tokens as [|t ts IH]; intros errs stack e H; [now left|].
  cbn [fold_left] in H. unfold tag_step at 2 in H.
  assert (Hlater : (exists u, In u ts /\ e = closing_error u) ->
                   exists u, In u (t :: ts) /\ e = closing_error u).
  { intros [u [Hu Hr]]. exists u. split; [now right | exact Hr]. }
  assert (Hnew : In e (errs ++ [closing_error t]) ->
                 In e errs \/ exists u, In u (t :: ts) /\ e = closing_error u).
  { intros Hin. apply in_app_or in Hin as [Hin | [<- | []]]; [now left|].
    right. exists t. split; [now left | reflexivity]. }
  destruct (is_closing t).
  - destruct (top stack) as [[nm l]|].
    + destruct (String.eqb nm (tag_name t));
        apply IH in H as [H | H]; auto.
    + apply IH in H as [H | H]; auto.
  - destruct (is_self_closing t); cbn [negb] in H;
      apply IH in H as [H | H]; auto.
Qed.

Lemma balance_error_line (content : string) (e : ValidationError) :
  In e (_check_unclosed_tags content) ->
  (exists m, line e = Some (line_of content m)) /\ severity e = "error".
Proof.
  unfold _check_unclosed_tags. rewrite check_tokens_run. intros H.
  apply in_app_or in H as [H | H].
  - apply errors_from in H as [[] | [t [Ht ->]]].
    unfold tag_tokens in Ht. apply in_map_iff in Ht as [m [<- _]].
    split; [now exists m | reflexivity].
  - apply in_map_iff in H as [entry [<- Hentry]].
    apply stack_entries in Hentry as [[] | [t [Ht [_ [_ ->]]]]].
    unfold tag_tokens in Ht. apply in_map_iff in Ht as [m [<- _]].
    split; [now exists m | reflexivity].
Qed.

(** X14.  Every error of the component check carries a line number, and
    that number is a line of the text: between 1 and the number of its
    newlines plus one. *)
Theorem component_errors_have_lines (content : string) (e : ValidationError) :
  In e (_validate_components content) ->
  exists n, line e = Some n /\ 1 <= n <= Str.count_newlines content + 1.
Proof.
  unfold _validate_components. intros H. apply in_app_or in H as [H | H].
  - apply in_flat_map in H as [m [_ H]].
    apply component_error_line in H as [H _].
    exists (line_of content m). split; [exact H | apply line_of_bounds].
  - apply balance_error_line in H as [[m H] _].
    exists (line_of content m). split; [exact H | apply line_of_bounds].
Qed.

Lemma component_errors_have_lines_witness :
  exists n,
    line (error (Some 8) "Step requires 'title' attribute") = Some n
    /\ 1 <= n <= Str.count_newlines steps_doc + 1.
Proof.
  apply (@component_errors_have_lines steps_doc).
  assert (H : _validate_components steps_doc
              = [ error (Some 8) "Step requires 'title' attribute";
                  error (Some 7) "Unclosed tag: <Steps>" ])
    by (vm_compute; reflexivity).
  rewrite H. left. reflexivity.
Defined.

(** *** Text without tags *)

Lemma all_chars_append (p : ascii -> bool) (a b : string) :
  Str.all_chars p (a ++ b)%string = Str.all_chars p a && Str.all_chars p b.
Proof.
  induction a as [|c a IH]; [reflexivity|]. simpl.
  now rewrite IH, andb_assoc.
Qed.

Lemma find_sub_char_none (c : ascii) (s : string) :
  lacks_char c s = true -> Str.find_sub (String c EmptyString) s = None.
Proof.
  unfold lacks_char. induction s as [|x s IH]; [reflexivity|].
  cbn [Str.all_chars]. intros H. apply andb_prop in H as [Hx Hs].
  cbn [Str.find_sub Str.strip_prefix]. rewrite Ascii.eqb_sym.
  destruct (Ascii.eqb x c); [discriminate|]. now rewrite IH.
Qed.

Lemma match_tag_needs_close (b : bool) (s : string) :
  lacks_char ">" s = true -> match_tag b s = None.
Proof.
  intros H. unfold match_tag.
  set (p := match s with
            | String "/" s' => if b then (true, s') else (false, s)
            | _ => (false, s)
            end).
  assert (Hp : lacks_char ">" (snd p) = true).
  { subst p. destruct s as [|c s]; [exact H|].
    destruct c as [[] [] [] [] [] [] [] []]; try exact H.
    destruct b; [|exact H]. unfold lacks_char in *. cbn [Str.all_chars] in H.
    now apply andb_prop in H as [_ H]. }
  destruct p as [cl s1]. cbn [snd] in Hp.
  pose proof (Str.span_append Str.is_word s1) as Hs.
  destruct (Str.span Str.is_word s1) as [nm s2]. cbn [fst snd] in Hs.
  destruct (Str.is_empty nm); [reflexivity|].
  rewrite find_sub_char_none; [reflexivity|].
  unfold lacks_char in *. rewrite <- Hs, all_chars_append in Hp.
  now apply andb_prop in Hp as [_ Hp].
Qed.

Lemma no_tag_found (b : bool) (s : string) :
  lacks_char "<" s = true \/ lacks_char ">" s = true ->
  forall pos, finditer b pos s = [].
Proof.
  induction s as [|c s IH]; intros H pos.
  - now rewrite finditer_equation_1.
  - rewrite finditer_cons.
    assert (Hs : lacks_char "<" s = true \/ lacks_char ">" s = true).
    { unfold lacks_char in *. cbn [Str.all_chars] in H.
      destruct H as [H | H]; apply andb_prop in H as [_ H]; auto. }
    assert (Hm : (if Ascii.eqb c "<" then match_tag b s else None) = None).
    { destruct H as [H | H].
      - unfold lacks_char in H. cbn [Str.all_chars] in H.
        apply andb_prop in H as [H _]. now destruct (Ascii.eqb c "<").
      - destruct (Ascii.eqb c "<"); [|reflexivity].
        apply match_tag_needs_close. unfold lacks_char in *.
        cbn [Str.all_chars] in H. now apply andb_prop in H as [_ H]. }
    rewrite Hm. now apply IH.
Qed.

(** X15.  A text in which no [<] is written, or no [>], has no component
    error. *)
Theorem text_without_tags_passes (content : string) :
  lacks_char "<" content = true \/ lacks_char ">" content = true ->
  _validate_components content = [].
Proof.
  intros H. unfold _validate_components, _check_unclosed_tags, tag_tokens.
  now rewrite !(@no_tag_found _ content H).
Qed.

Lemma text_without_tags_passes_witness :
  _validate_components "if a < b then stop" = [].
Proof.
  apply (@text_without_tags_passes "if a < b then stop").
  right. reflexivity.
Defined.

(** *** The result *)

Lemma filename_error_severity (path : string) :
  Forall (fun e => severity e = "error") (_validate_filename path).
Proof.
  unfold _validate_filename.
  repeat (apply Forall_app; split);
    match goal with
    | |- Forall _ (if ?c then _ else _) => destruct c
    end; repeat constructor.
Qed.

Lemma frontmatter_error_severity (content : string) :
  Forall (fun e => severity e = "error") (_validate_frontmatter content).
Proof.
  unfold _validate_frontmatter.
  destruct (frontmatter_of content) as [fm|]; [|repeat constructor].
  apply Forall_app; split.
  - apply Forall_forall. intros e H. apply in_flat_map in H as [f [_ H]].
    destruct (Str.line_startswith (f ++ ":") true fm); [contradiction|].
    now destruct H as [<- | []].
  - destruct (Str.search_line_match "category:" 0 true fm) as [g|];
      [|constructor].
    destruct (mem_string (Str.strip g) valid_categories); repeat constructor.
Qed.

Lemma component_error_severity (content : string) :
  Forall (fun e => severity e = "error") (_validate_components content).
Proof.
  unfold _validate_components. apply Forall_app; split; apply Forall_forall;
    intros e H.
  - apply in_flat_map in H as [m [_ H]].
    now apply component_error_line in H as [_ H].
  - now apply balance_error_line in H as [_ H].
Qed.

(** X16.  For a file that is found to exist, the validator gives no
    warning; every entry of [errors] has the severity [error]; and the
    result is valid exactly when [errors] is empty, also when the file
    cannot be read. *)
Theorem only_errors (w : World) (path : string) :
  path_exists w path = true ->
  warnings (validate_mdx w path) = []
  /\ Forall (fun e => severity e = "error") (errors (validate_mdx w path))
  /\ (valid (validate_mdx w path) = true <-> errors (validate_mdx w path) = []).
Proof.
  intros _. unfold validate_mdx. destruct (negb (path_exists w path)).
  - repeat split; try discriminate. repeat constructor.
  - destruct (read_text w path) as [e|content].
    + repeat split; try discriminate. repeat constructor.
    + cbn [warnings errors valid]. split; [reflexivity|]. split.
      * apply Forall_app; split; [apply filename_error_severity|].
        apply Forall_app; split;
          [apply frontmatter_error_severity | apply component_error_severity].
      * destruct (_validate_filename path ++ _validate_frontmatter content
                  ++ _validate_components content); split;
          try reflexivity; discriminate.
Qed.

Lemma only_errors_witness :
  warnings (validate_mdx (Fixtures.world_of [("TestSpec.mdx", steps_doc)])
                         "TestSpec.mdx") = []
  /\ Forall (fun e => severity e = "error")
            (errors (validate_mdx (Fixtures.world_of [("TestSpec.mdx", steps_doc)])
                                  "TestSpec.mdx"))
  /\ (valid (validate_mdx (Fixtures.world_of [("TestSpec.mdx", steps_doc)])
                          "TestSpec.mdx") = true
      <-> errors (validate_mdx (Fixtures.world_of [("TestSpec.mdx", steps_doc)])
                               "TestSpec.mdx") = []).
Proof.
  apply (@only_errors (Fixtures.world_of [("TestSpec.mdx", steps_doc)])
                      "TestSpec.mdx").
  reflexivity.
Defined.

End MdxMore.

(** ** The filename check *)

Module MdxFilename.
Import MdxValidator MdxSpec MdxTerms.

Lemma digits_run (run after : string) :
  Str.all_chars Str.is_digit run = true ->
  digits (String.length run) (run ++ after)%string = Some after.
Proof.
  induction run as [|c run IH]; [reflexivity|]. cbn [Str.all_chars].
  intros H. apply andb_prop in H as [Hc Hr].
  cbn [String.length append digits]. rewrite Hc. now apply IH.
Qed.

Lemma has_timestamp_here (s : string) :
  timestamp_at s = true -> has_timestamp s = true.
Proof. intros H. destruct s; cbn [has_timestamp]; now rewrite H. Qed.

Lemma has_timestamp_later (before s : string) :
  has_timestamp s = true -> has_timestamp (before ++ s)%string = true.
Proof.
  intros H. induction before as [|c before IH]; [exact H|].
  cbn [append has_timestamp]. rewrite IH. apply orb_true_r.
Qed.

(** X17.  A run of eight digits anywhere in the stem is reported as a
    timestamp, whatever stands before and after it. *)
Theorem digit_run_is_timestamp (path before run after : string) :
  Path.stem path = (before ++ run ++ after)%string ->
  Str.all_chars Str.is_digit run = true ->
  String.length run = 8 ->
  In (timestamp_error (Path.stem path)) (_validate_filename path).
Proof.
  intros Hstem Hd Hl. unfold _validate_filename.
  assert (Ht : has_timestamp (Path.stem path) = true).
  { rewrite Hstem. apply has_timestamp_later, has_timestamp_here.
    unfold timestamp_at. rewrite <- Hl, (@digits_run run after Hd).
    cbn [is_some]. now rewrite orb_true_r. }
  rewrite Ht. do 3 (apply in_or_app; right). now left.
Qed.

Lemma digit_run_is_timestamp_witness :
  In (timestamp_error (Path.stem "docs/notes-20240115.mdx"))
     (_validate_filename "docs/notes-20240115.mdx").
Proof.
  apply (@digit_run_is_timestamp "docs/notes-20240115.mdx" "notes-" "20240115" "");
    reflexivity.
Defined.

Lemma split_length (sep : ascii) (s : string) :
  List.length (Str.split sep s) = S (count_char sep s).
Proof.
  induction s as [|c s IH]; [reflexivity|]. cbn [Str.split count_char].
  destruct (Ascii.eqb c sep); cbn [List.length]; [now rewrite IH|].
  destruct (Str.split sep s) as [|w ws]; [discriminate|]. exact IH.
Qed.

(** X18.  The word limit counts hyphens: the error is given exactly when
    the stem holds more than two of them, empty words counted. *)
Theorem word_limit_counts_hyphens (path : string) :
  existsb is_word_limit_error (_validate_filename path)
  = Nat.ltb 2 (count_char "-" (Path.stem path)).
Proof.
  unfold _validate_filename. rewrite !existsb_app, split_length.
  assert (H1 : existsb is_word_limit_error
                 (if String.eqb (Path.suffix path) ".mdx" then []
                  else [error None ("File must have .mdx extension, got: "
                                    ++ Path.suffix path)]) = false)
    by (destruct (String.eqb (Path.suffix path) ".mdx"); reflexivity).
  assert (H2 : existsb is_word_limit_error
                 (if is_kebab (Path.stem path) then []
                  else [error None ("Filename must be kebab-case: "
                                    ++ Path.stem path)]) = false)
    by (destruct (is_kebab (Path.stem path)); reflexivity).
  assert (H3 : existsb is_word_limit_error
                 (if has_timestamp (Path.stem path)
                  then [error None ("Filename must not contain timestamps: "
                                    ++ Path.stem path)]
                  else []) = false)
    by (destruct (has_timestamp (Path.stem path)); reflexivity).
  rewrite H1, H2, H3, orb_false_r. cbn [orb].
  change (Nat.ltb 3 (S (count_char "-" (Path.stem path))))
    with (Nat.ltb 2 (count_char "-" (Path.stem path))).
  destruct (Nat.ltb 2 (count_char "-" (Path.stem path))); reflexivity.
Qed.

Lemma all_chars_impl (p r : ascii -> bool) (s : string) :
  (forall c, p c = true -> r c = true) ->
  Str.all_chars p s = true -> Str.all_chars r s = true.
Proof.
  intros Hpr. induction s as [|c s IH]; [reflexivity|]. cbn [Str.all_chars].
  intros H. apply andb_prop in H as [Hc Hs]. now rewrite (Hpr c Hc), IH.
Qed.

Lemma split_word (sep : ascii) (w : string) :
  lacks_char sep w = true -> Str.split sep w = [w].
Proof.
  unfold lacks_char. induction w as [|c w IH]; [reflexivity|].
  cbn [Str.all_chars Str.split]. intros H. apply andb_prop in H as [Hc Hw].
  destruct (Ascii.eqb c sep); [discriminate|]. now rewrite IH.
Qed.

Lemma split_word_then (sep : ascii) (w s : string) :
  lacks_char sep w = true ->
  Str.split sep (w ++ String sep s)%string = w :: Str.split sep s.
Proof.
  unfold lacks_char. induction w as [|c w IH].
  - intros _. cbn [append Str.split]. now rewrite Ascii.eqb_refl.
  - cbn [Str.all_chars append Str.split]. intros H.
    apply andb_prop in H as [Hc Hw].
    destruct (Ascii.eqb c sep); [discriminate|]. now rewrite IH.
Qed.

(** Splitting what was joined gives the words back. *)
Lemma split_join (sep : ascii) (ws : list string) :
  forall w,
    Forall (fun x => lacks_char sep x = true) (w :: ws) ->
    Str.split sep (Str.join (String sep EmptyString) (w :: ws)) = w :: ws.
Proof.
  induction ws as [|x ws IH]; intros w H; inversion H as [|? ? Hw Hws]; subst.
  - cbn [Str.join]. now apply split_word.
  - change (Str.join (String sep EmptyString) (w :: x :: ws))
      with (w ++ String sep (Str.join (String sep EmptyString) (x :: ws)))%string.
    rewrite split_word_then by exact Hw. now rewrite IH.
Qed.

Lemma lower_char_facts (c : ascii) :
  Str.is_lower c = true ->
  Ascii.eqb c "-" = false /\ Str.is_newline c = false /\ Str.is_digit c = false.
Proof.
  destruct c as [[] [] [] [] [] [] [] []]; intros H;
    try discriminate H; repeat split.
Qed.

Lemma chomp_line (s : string) :
  Str.all_chars (fun c => negb (Str.is_newline c)) s = true -> chomp s = s.
Proof.
  induction s as [|c s IH]; [reflexivity|]. cbn [Str.all_chars].
  intros H. apply andb_prop in H as [Hc Hs].
  cbn [chomp]. destruct s as [|d s].
  - now destruct (Str.is_newline c).
  - now rewrite IH.
Qed.

Lemma no_digit_no_timestamp (s : string) :
  Str.all_chars (fun c => negb (Str.is_digit c)) s = true ->
  has_timestamp s = false.
Proof.
  induction s as [|c s IH]; [reflexivity|]. cbn [Str.all_chars].
  intros H. apply andb_prop in H as [Hc Hs]. cbn [has_timestamp].
  rewrite IH by exact Hs. rewrite orb_false_r.
  unfold timestamp_at. cbn [digits]. destruct (Str.is_digit c); [discriminate|].
  reflexivity.
Qed.

Lemma join_chars (p : ascii -> bool) (sep : ascii) (ws : list string) :
  p sep = true ->
  Forall (fun w => Str.all_chars p w = true) ws ->
  Str.all_chars p (Str.join (String sep EmptyString) ws) = true.
Proof.
  intros Hsep H. induction H as [|w ws Hw Hws IH]; [reflexivity|].
  destruct ws as [|x ws]; [exact Hw|].
  change (Str.join (String sep EmptyString) (w :: x :: ws))
    with (w ++ String sep (Str.join (String sep EmptyString) (x :: ws)))%string.
  rewrite MdxMore.all_chars_append, Hw. cbn [Str.all_chars andb].
  now rewrite Hsep, IH.
Qed.

(** X19.  A file with the suffix [.mdx] whose stem is one, two or three
    words of lower-case letters joined by hyphens passes the filename
    check. *)
Theorem kebab_name_accepted (path : string) (words : list string) :
  Path.suffix path = ".mdx" ->
  Path.stem path = Str.join "-" words ->
  words <> [] ->
  List.length words <= 3 ->
  Forall lower_word words ->
  _validate_filename path = [].
Proof.
  intros Hsuffix Hstem Hne Hlen Hwords. unfold _validate_filename.
  rewrite Hsuffix, Hstem. change (String.eqb ".mdx" ".mdx") with true.
  cbv iota. destruct words as [|w ws]; [contradiction|].
  assert (Hsep : Forall (fun x => lacks_char "-" x = true) (w :: ws)).
  { eapply Forall_impl; [|exact Hwords]. intros x [_ Hx].
    eapply all_chars_impl; [|exact Hx]. intros c Hc.
    now destruct (lower_char_facts c Hc) as [-> _]. }
  assert (Hall : forall p : ascii -> bool,
             p "-"%char = true -> (forall c, Str.is_lower c = true -> p c = true) ->
             Str.all_chars p (Str.join "-" (w :: ws)) = true).
  { intros p Hp Hl. apply join_chars; [exact Hp|].
    eapply Forall_impl; [|exact Hwords]. intros x [_ Hx].
    now apply all_chars_impl with Str.is_lower. }
  assert (Hk : is_kebab (Str.join "-" (w :: ws)) = true).
  { unfold is_kebab. rewrite chomp_line.
    - rewrite (@split_join "-"%char ws w Hsep). apply forallb_forall. intros x Hx.
      rewrite Forall_forall in Hwords. destruct (Hwords x Hx) as [Hxne Hxl].
      apply andb_true_intro. split; [now destruct x|].
      eapply all_chars_impl; [|exact Hxl]. intros c Hc. now rewrite Hc.
    - apply Hall; [reflexivity|]. intros c Hc.
      now destruct (lower_char_facts c Hc) as [_ [-> _]]. }
  assert (Ht : has_timestamp (Str.join "-" (w :: ws)) = false).
  { apply no_digit_no_timestamp, Hall; [reflexivity|]. intros c Hc.
    now destruct (lower_char_facts c Hc) as [_ [_ ->]]. }
  rewrite Hk, Ht, (@split_join "-"%char ws w Hsep).
  destruct (Nat.ltb_spec 3 (List.length (w :: ws))) as [Hgt|_]; [lia|].
  reflexivity.
Qed.

Lemma kebab_name_accepted_witness :
  _validate_filename "docs/test-runbook.mdx" = [].
Proof.
  apply (@kebab_name_accepted "docs/test-runbook.mdx" ["test"; "runbook"]).
  - reflexivity.
  - reflexivity.
  - discriminate.
  - simpl. lia.
  - repeat constructor; discriminate.
Defined.

End MdxFilename.
(** ** The frontmatter check *)

Module MdxFrontmatter.
Import MdxValidator MdxSpec MdxTerms MarkdownSpec.





(** *** Where the block ends *)






(** *** The fields *)




(** *** The category *)

Lemma span_to_end (p : ascii -> bool) (a : string) :
  Str.all_chars p a = true -> Str.span p a = (a, EmptyString).
Proof.
  induction a as [|c a IH]; [reflexivity|]. cbn [Str.all_chars Str.span].
  intros H. apply andb_prop in H as [Hc Ha]. now rewrite Hc, IH.
Qed.













End MdxFrontmatter.

(** ** More on the dispatcher *)

Module DispatcherMore.
Import MdxTerms DispatcherTerms.

Lemma split_nonempty (sep : ascii) (s : string) : Str.split sep s <> [].
Proof.
  destruct s as [|c s]; [discriminate|]. cbn [Str.split].
  destruct (Ascii.eqb c sep); [discriminate|].
  destruct (Str.split sep s); discriminate.
Qed.

Lemma split_app (sep : ascii) (a b : string) :
  Str.split sep (a ++ String sep b)%string = Str.split sep a ++ Str.split sep b.
Proof.
  induction a as [|c a IH].
  - cbn [append Str.split app]. now rewrite Ascii.eqb_refl.
  - cbn [append Str.split]. destruct (Ascii.eqb c sep).
    + now rewrite IH.
    + rewrite IH. pose proof (split_nonempty sep a) as Hne.
      destruct (Str.split sep a) as [|w ws]; [contradiction | reflexivity].
Qed.

Lemma components_of_name (file : string) :
  file <> EmptyString -> lacks_char "/" file = true -> file <> "." ->
  Path.components file = [file].
Proof.
  intros Hne Hslash Hdot. unfold Path.components.
  rewrite MdxFilename.split_word by exact Hslash. cbn [filter].
  destruct file as [|c file]; [contradiction|]. cbn [Str.is_empty negb andb].
  destruct (String.eqb_spec (String c file) "."); [contradiction | reflexivity].
Qed.

(** The name of a path is its last component. *)
Lemma name_in_directory (path file : string) :
  in_directory path file ->
  file <> EmptyString -> lacks_char "/" file = true -> file <> "." ->
  Path.name path = file.
Proof.
  intros Hin Hne Hslash Hdot. unfold Path.name.
  pose proof (components_of_name Hne Hslash Hdot) as Hc.
  destruct Hin as [-> | [dir ->]].
  - now rewrite Hc.
  - unfold Path.components in *.
    change (dir ++ "/" ++ file)%string with (dir ++ String "/" file)%string.
    rewrite split_app, filter_app, Hc. apply last_last.
Qed.

Lemma rsplit_none (c : ascii) (s : string) :
  lacks_char c s = true -> Path.rsplit c s = None.
Proof.
  unfold lacks_char. induction s as [|x s IH]; [reflexivity|].
  cbn [Str.all_chars Path.rsplit]. intros H. apply andb_prop in H as [Hx Hs].
  rewrite IH by exact Hs. now destruct (Ascii.eqb x c).
Qed.

Lemma rsplit_last (c : ascii) (a b : string) :
  lacks_char c b = true -> Path.rsplit c (a ++ String c b)%string = Some (a, b).
Proof.
  intros Hb. induction a as [|x a IH].
  - cbn [append Path.rsplit]. rewrite (@rsplit_none c b Hb).
    now rewrite Ascii.eqb_refl.
  - cbn [append Path.rsplit]. now rewrite IH.
Qed.

Lemma lower_dot (ext : string) :
  Str.lower (String "." ext) = String "." (Str.lower ext).
Proof. reflexivity. Qed.

Lemma type_of_dotted (e : string) :
  (if mem_string (String "." e) [".yaml"; ".yml"] then YAML
   else if String.eqb (String "." e) ".py" then PYTHON
   else if String.eqb (String "." e) ".rego" then REGO
   else if mem_string (String "." e) [".md"; ".markdown"] then MARKDOWN
   else UNKNOWN)
  = type_of_extension e.
Proof.
  unfold mem_string, type_of_extension, extension_types. cbn [existsb Dict.get].
  change (String.eqb (String "." e) ".yaml") with (String.eqb e "yaml").
  change (String.eqb (String "." e) ".yml") with (String.eqb e "yml").
  change (String.eqb (String "." e) ".py") with (String.eqb e "py").
  change (String.eqb (String "." e) ".rego") with (String.eqb e "rego").
  change (String.eqb (String "." e) ".md") with (String.eqb e "md").
  change (String.eqb (String "." e) ".markdown") with (String.eqb e "markdown").
  rewrite !(String.eqb_sym e).
  destruct (String.eqb "yaml" e); [reflexivity|].
  destruct (String.eqb "yml" e); [reflexivity|].
  destruct (String.eqb "py" e); [reflexivity|].
  destruct (String.eqb "rego" e); [reflexivity|].
  destruct (String.eqb "md" e); [reflexivity|].
  destruct (String.eqb "markdown" e); reflexivity.
Qed.

(** X21.  The type of a file is read off the text after the last dot of
    the last component of its path, whatever the case of its letters: the
    directory plays no part, and the name may hold other dots. *)
Theorem type_from_extension (path base ext : string) :
  in_directory path (base ++ "." ++ ext) ->
  base <> EmptyString -> lacks_char "/" base = true ->
  ext <> EmptyString -> lacks_char "/" ext = true -> lacks_char "." ext = true ->
  _detect_file_type path = type_of_extension (Str.lower ext).
Proof.
  intros Hin Hb Hbs He Hes Hed.
  assert (Hname : Path.name path = (base ++ "." ++ ext)%string).
  { apply name_in_directory; [exact Hin | now destruct base | |].
    - unfold lacks_char in *. rewrite MdxMore.all_chars_append, Hbs.
      cbn [append Str.all_chars andb]. exact Hes.
    - intros E. apply (f_equal String.length) in E.
      rewrite Str.append_length in E.
      destruct base; [contradiction | simpl in E; lia]. }
  unfold _detect_file_type, Path.suffix. rewrite Hname.
  change (base ++ "." ++ ext)%string with (base ++ String "." ext)%string.
  rewrite (@rsplit_last "."%char base ext Hed).
  destruct base as [|c base]; [contradiction|].
  destruct ext as [|d ext]; [contradiction|].
  cbn [Str.is_empty orb]. rewrite lower_dot. apply type_of_dotted.
Qed.

Lemma type_from_extension_witness :
  _detect_file_type "charts/v1.2/Values.YAML" = type_of_extension (Str.lower "YAML").
Proof.
  apply (@type_from_extension "charts/v1.2/Values.YAML" "Values" "YAML");
    try reflexivity; try discriminate.
  right. now exists "charts/v1.2".
Defined.

(** X22.  A file whose name has no dot, or only the dot it starts with, has
    no extension for the dispatcher: [config] and [.yaml] are refused as
    unsupported. *)
Theorem no_extension_unsupported (w : World) (path file : string) :
  path_exists w path = true ->
  in_directory path file ->
  lacks_char "/" file = true ->
  no_extension file ->
  extract_contract_boundary w path
  = Raise (ContractExtractionError ("Unsupported file type: " ++ path)).
Proof.
  intros Hex Hin Hslash [Hne Hdots].
  assert (Hname : Path.name path = file).
  { apply name_in_directory; try assumption.
    destruct Hdots as [Hd | [rest [-> [Hr _]]]].
    - intros ->. discriminate Hd.
    - intros E. injection E as ->. contradiction. }
  assert (Hsuffix : Path.suffix path = EmptyString).
  { unfold Path.suffix. rewrite Hname.
    destruct Hdots as [Hd | [rest [-> [_ Hr]]]].
    - now rewrite (@rsplit_none "."%char file Hd).
    - change (String "." rest) with (EmptyString ++ String "." rest)%string.
      now rewrite (@rsplit_last "."%char EmptyString rest Hr). }
  unfold extract_contract_boundary, _detect_file_type.
  rewrite Hex, Hsuffix. reflexivity.
Qed.

Lemma no_extension_unsupported_witness :
  extract_contract_boundary
    (Fixtures.world_of [("conf/.yaml", "a: 1")]) "conf/.yaml"
  = Raise (ContractExtractionError "Unsupported file type: conf/.yaml").
Proof.
  apply (@no_extension_unsupported
           (Fixtures.world_of [("conf/.yaml", "a: 1")]) "conf/.yaml" ".yaml").
  - reflexivity.
  - right. now exists "conf".
  - reflexivity.
  - split; [discriminate|]. right. exists "yaml".
    split; [reflexivity | split; [discriminate | reflexivity]].
Defined.

(** X23.  For a policy or runbook file that is found to exist, the
    dispatcher fails only when the file cannot be read, and then with
    [ContractExtractionError]; every text that can be read gives a
    boundary. *)
Theorem text_files_fail_only_on_read (w : World) (path : string) :
  path_exists w path = true ->
  _detect_file_type path = REGO \/ _detect_file_type path = MARKDOWN ->
  match read_text w path with
  | inr content => exists b, extract_contract_boundary w path = Ok b
  | inl e =>
      exists msg,
        extract_contract_boundary w path = Raise (ContractExtractionError msg)
  end.
Proof.
  intros Hex Hty. unfold extract_contract_boundary. rewrite Hex. cbn [negb].
  destruct Hty as [-> | ->].
  - unfold RegoContractExtractor.extract, RegoContractExtractor.extract_text.
    destruct (read_text w path); eexists; reflexivity.
  - unfold MarkdownContractExtractor.extract,
      MarkdownContractExtractor.extract_text.
    destruct (read_text w path); eexists; reflexivity.
Qed.

Lemma text_files_fail_only_on_read_witness :
  exists b,
    extract_contract_boundary
      (Fixtures.world_of [("docs/other.md", "# Other")]) "docs/other.md"
    = Ok b.
Proof.
  apply (@text_files_fail_only_on_read
           (Fixtures.world_of [("docs/other.md", "# Other")]) "docs/other.md").
  - reflexivity.
  - right. reflexivity.
Defined.

End DispatcherMore.

(** ** More on the policy extractor *)

Module RegoMore.
Import RegoContractExtractor.

Section AnyScans.
Variable package_search : string -> option string.
Variable rule_heads : string -> list (string * option string).
Variable input_refs : string -> list string.

Lemma head_params_no_rule (rule_name : string) (rule_params : option string) :
  filter is_rule (head_params rule_name rule_params) = [].
Proof.
  unfold head_params. destruct rule_params as [ps|]; [|reflexivity].
  destruct (Str.is_empty ps); [reflexivity|].
  induction (Str.split "," ps) as [|p l IH]; [reflexivity | exact IH].
Qed.

Lemma rules_of_heads (heads : list (string * option string)) :
  map name
      (filter is_rule
         (flat_map (fun head =>
                      if is_keyword (fst head) then []
                      else rule_param (fst head)
                           :: head_params (fst head) (snd head))
                   heads))
  = filter (fun r => negb (is_keyword r)) (map fst heads).
Proof.
  induction heads as [|[nm ps] heads IH]; [reflexivity|].
  cbn [flat_map map fst snd filter]. rewrite filter_app, map_app, IH.
  destruct (is_keyword nm); [reflexivity|].
  cbn [filter is_rule rule_param type negb]. cbn [String.eqb Ascii.eqb Bool.eqb].
  cbn [map name app]. now rewrite head_params_no_rule.
Qed.

(** X24.  [metadata['rules']] lists the names of the rule heads the scan
    finds, in their order and as often as they are found, the three
    keywords left out; the names of rule parameters and of input
    references are not in it. *)
Theorem rules_metadata (content path : string) :
  exists b,
    extract_text package_search rule_heads input_refs (inr content) path = Ok b
    /\ Dict.get (metadata b) "rules"
       = Some (VList (map VStr
                          (filter (fun r => negb (is_keyword r))
                                  (map fst (rule_heads content))))).
Proof.
  eexists. split; [reflexivity|]. cbn [metadata].
  rewrite DictFacts.get_set_same. f_equal. f_equal.
  rewrite filter_app.
  assert (Hi : filter is_rule
                 (map (fun r => input_param ("input." ++ r) false)
                      (input_refs content)) = []).
  { induction (input_refs content) as [|r l IH]; [reflexivity | exact IH]. }
  rewrite Hi, app_nil_r, <- rules_of_heads, map_map. reflexivity.
Qed.

End AnyScans.

End RegoMore.

(** ** The scans of the policy extractor *)

Module RegoScans.
Import RegoContractExtractor RegoScan RegoTerms MdxTerms.

Lemma rule_heads_clause (c : ascii) (s' : string) x
      (e : rule_at (String c s') = x) :
  rule_heads_unfold_clause_2 c s' (exist _ x e)
  = match x with
    | Some (nm, ps, rest) => (nm, ps) :: rule_heads rest
    | None => rule_heads s'
    end.
Proof. destruct x as [[[nm ps] rest]|]; reflexivity. Qed.

Lemma rule_heads_cons (c : ascii) (s' : string) :
  rule_heads (String c s')
  = match rule_at (String c s') with
    | Some (nm, ps, rest) => (nm, ps) :: rule_heads rest
    | None => rule_heads s'
    end.
Proof. rewrite rule_heads_equation_2. apply rule_heads_clause. Qed.

Lemma input_findall_clause (c : ascii) (s' : string) x
      (e : input_at (String c s') = x) :
  input_findall_unfold_clause_2 c s' (exist _ x e)
  = match x with
    | Some (g, rest) => g :: input_findall rest
    | None => input_findall s'
    end.
Proof. destruct x as [[g rest]|]; reflexivity. Qed.

Lemma input_findall_cons (c : ascii) (s' : string) :
  input_findall (String c s')
  = match input_at (String c s') with
    | Some (g, rest) => g :: input_findall rest
    | None => input_findall s'
    end.
Proof. rewrite input_findall_equation_2. apply input_findall_clause. Qed.

(** *** What a match is made of *)

Lemma span_satisfies (p : ascii -> bool) (s : string) :
  Str.all_chars p (fst (Str.span p s)) = true.
Proof.
  induction s as [|c s IH]; [reflexivity|]. cbn [Str.span].
  destruct (p c) eqn:E; [|reflexivity].
  destruct (Str.span p s). cbn [fst Str.all_chars] in *. now rewrite E, IH.
Qed.

Lemma head_operator_text (s r : string) :
  head_operator s = Some r -> exists op, s = (op ++ r)%string.
Proof.
  unfold head_operator. intros H. destruct s as [|c s]; [discriminate|].
  destruct c as [[] [] [] [] [] [] [] []]; try discriminate;
    try (injection H as <-; first [now exists "=" | now exists "{"]).
  destruct s as [|d s]; [discriminate|].
  destruct d as [[] [] [] [] [] [] [] []]; try discriminate.
  injection H as <-. now exists ":=".
Qed.

Lemma ws_operator_text (s r : string) :
  ws_operator s = Some r -> exists read, s = (read ++ r)%string.
Proof.
  unfold ws_operator. intros H. apply head_operator_text in H as [op Hop].
  pose proof (Str.span_append Str.is_space s) as Hs. rewrite Hop in Hs.
  exists (fst (Str.span Str.is_space s) ++ op)%string.
  now rewrite StrFacts.append_assoc.
Qed.

Lemma bracket_group_text (s inner r : string) :
  bracket_group s = Some (inner, r) ->
  s = ("[" ++ inner ++ "]" ++ r)%string
  /\ inner <> EmptyString /\ lacks_char "]" inner = true.
Proof.
  unfold bracket_group. destruct s as [|c s]; [discriminate|].
  destruct c as [[] [] [] [] [] [] [] []]; try discriminate.
  pose proof (Str.span_append (fun c => negb (Ascii.eqb c "]")) s) as Hs.
  pose proof (span_satisfies (fun c => negb (Ascii.eqb c "]")) s) as Hi.
  destruct (Str.span (fun c => negb (Ascii.eqb c "]")) s) as [i s2].
  cbn [fst snd] in *. destruct i as [|x i]; [discriminate|].
  cbn [Str.is_empty]. destruct s2 as [|d s3]; [discriminate|].
  destruct d as [[] [] [] [] [] [] [] []]; try discriminate.
  intros H; injection H as <- <-. rewrite <- Hs.
  split; [reflexivity | split; [discriminate | exact Hi]].
Qed.

(** A match starts with its name, and the scan goes on in what is left of
    the text. *)
Lemma rule_at_text (s nm : string) (ps : option string) (rest : string) :
  rule_at s = Some (nm, ps, rest) ->
  word nm
  /\ (exists tail, s = (nm ++ tail)%string)
  /\ (exists read, s = (read ++ rest)%string)
  /\ (forall inner, ps = Some inner ->
        inner <> EmptyString /\ lacks_char "]" inner = true).
Proof.
  unfold rule_at. pose proof (Str.span_append Str.is_word s) as Hs.
  pose proof (span_satisfies Str.is_word s) as Hw.
  destruct (Str.span Str.is_word s) as [w s1]. cbn [fst snd] in *.
  destruct w as [|x w]; [discriminate|]. cbn [Str.is_empty].
  assert (Hplain : forall r,
             ws_operator s1 = Some r ->
             Some (String x w, @None string, r) = Some (nm, ps, rest) ->
             word nm
             /\ (exists tail, s = (nm ++ tail)%string)
             /\ (exists read, s = (read ++ rest)%string)
             /\ (forall inner, ps = Some inner ->
                   inner <> EmptyString /\ lacks_char "]" inner = true)).
  { intros r Ho H. injection H as <- <- <-.
    apply ws_operator_text in Ho as [read Hr].
    split; [split; [discriminate | exact Hw]|].
    split; [now exists s1|].
    split; [|discriminate].
    exists (String x w ++ read)%string.
    now rewrite StrFacts.append_assoc, <- Hr. }
  destruct (bracket_group s1) as [[inner s2]|] eqn:Eb.
  - destruct (ws_operator s2) as [r|] eqn:Eo.
    + intros H; injection H as <- <- <-.
      apply bracket_group_text in Eb as [Hs1 [Hne Hl]].
      apply ws_operator_text in Eo as [read Hr].
      split; [split; [discriminate | exact Hw]|].
      split; [now exists s1|].
      split.
      * exists (String x w ++ "[" ++ inner ++ "]" ++ read)%string.
        rewrite <- Hs, Hs1, Hr. now rewrite !StrFacts.append_assoc.
      * intros i Hi. injection Hi as <-. now split.
    + destruct (ws_operator s1) as [r|] eqn:Eo1; [|discriminate].
      now apply Hplain.
  - destruct (ws_operator s1) as [r|] eqn:Eo1; [|discriminate].
    now apply Hplain.
Qed.

Lemma contains_head (p tail : string) :
  Str.contains p (p ++ tail)%string = true.
Proof.
  pose proof (StrFacts.startswith_append p tail) as H.
  destruct (p ++ tail)%string; cbn [Str.contains]; now rewrite H.
Qed.

Lemma contains_later (p read s : string) :
  Str.contains p s = true -> Str.contains p (read ++ s)%string = true.
Proof.
  intros H. induction read as [|c read IH]; [exact H|].
  cbn [append Str.contains]. rewrite IH. apply orb_true_r.
Qed.

(** Every head the scan gives is a name that is written in the text; its
    bracket group, when it has one, is not empty. *)
Lemma rule_heads_found (n : nat) :
  forall s nm ps,
    String.length s <= n ->
    In (nm, ps) (rule_heads s) ->
    word nm /\ Str.contains nm s = true
    /\ (forall inner, ps = Some inner ->
          inner <> EmptyString /\ lacks_char "]" inner = true).
Proof.
  induction n as [|n IH]; intros s nm ps Hn Hin.
  - destruct s; [|simpl in Hn; lia].
    rewrite rule_heads_equation_1 in Hin. contradiction.
  - destruct s as [|c s']; [rewrite rule_heads_equation_1 in Hin; contradiction|].
    rewrite rule_heads_cons in Hin.
    destruct (rule_at (String c s')) as [[[nm0 ps0] rest]|] eqn:E.
    + pose proof (rule_at_length _ E) as Hlen.
      apply rule_at_text in E as [Hw [[tail Ht] [[read Hr] Hps]]].
      destruct Hin as [Heq | Hin].
      * injection Heq as <- <-.
        split; [exact Hw|]. split; [|exact Hps].
        rewrite Ht. apply contains_head.
      * apply IH in Hin as [Hw' [Hc' Hps']]; [|simpl in *; lia].
        split; [exact Hw'|]. split; [|exact Hps'].
        rewrite Hr. now apply contains_later.
    + apply IH in Hin as [Hw' [Hc' Hps']]; [|simpl in *; lia].
      split; [exact Hw'|]. split; [|exact Hps'].
      now apply (contains_later nm (String c EmptyString) s').
Qed.

(** X25.  In a policy of ASCII text, a parameter of type [rule] is a name
    of word characters that is written in the text and is none of the three
    keywords; it is never required. *)
Theorem rule_names_are_words
  (order : list string -> list string) (content path : string)
  (b : ContractBoundary) (p : Param) :
  Str.is_ascii content = true ->
  extract_content order content path = Ok b ->
  In p (parameters b) ->
  type p = Some "rule" ->
  word (name p)
  /\ Str.contains (name p) content = true
  /\ is_keyword (name p) = false
  /\ required p = false.
Proof.
  intros _. unfold extract_content, extract_text. intros H; injection H as <-.
  cbn [parameters]. intros Hin Hty. apply in_app_or in Hin as [Hin | Hin].
  - apply in_flat_map in Hin as [[nm ps] [Hhead Hin]]. cbn [fst snd] in Hin.
    destruct (is_keyword nm) eqn:Hk; [contradiction|].
    destruct Hin as [<- | Hin].
    + apply (@rule_heads_found (String.length content)) in Hhead
        as [Hw [Hc _]]; [|lia].
      cbn [rule_param name required]. auto.
    + exfalso. unfold head_params in Hin. destruct ps as [inner|]; [|contradiction].
      destruct (Str.is_empty inner); [contradiction|].
      apply in_map_iff in Hin as [a [<- _]]. discriminate Hty.
  - exfalso. apply in_map_iff in Hin as [r [<- _]]. discriminate Hty.
Qed.

Lemma first_found_order (l : list string) : set_order l (first_found l).
Proof.
  unfold set_order, first_found. split.
  - apply MarkdownTheorems.first_occurrences_nodup.
  - assert (H : forall l seen x,
               In x (MarkdownSpec.first_occurrences seen l)
               <-> In x l /\ ~ In x seen).
    { clear. induction l as [|y l IH]; intros seen x; cbn [MarkdownSpec.first_occurrences].
      - simpl. tauto.
      - destruct (mem_string y seen) eqn:E.
        + rewrite IH. apply MarkdownTheorems.mem_string_in_iff in E.
          split; [intros [H1 H2]; split; [now right | exact H2]|].
          intros [[-> | H1] H2]; [contradiction | now split].
        + assert (Hy : ~ In y seen).
          { intros Hin. apply MarkdownTheorems.mem_string_in_iff in Hin.
            congruence. }
          cbn [In]. rewrite IH. split.
          * intros [<- | [H1 H2]]; [split; [now left | exact Hy]|].
            split; [now right|]. intros Hs. apply H2, in_or_app. now left.
          * intros [[<- | H1] H2]; [now left|].
            destruct (string_dec y x) as [->|Hne]; [now left|]. right.
            split; [exact H1|]. intros Hs. apply in_app_or in Hs as [Hs | [Hs | []]];
              [contradiction | congruence]. }
    intros x. rewrite H. simpl. tauto.
Qed.

Lemma rule_names_are_words_witness :
  word "level"
  /\ Str.contains "level" authz_policy = true
  /\ is_keyword "level" = false
  /\ false = false.
Proof.
  assert (H : exists b,
             extract_content first_found authz_policy "authz.rego" = Ok b
             /\ In (rule_param "level") (parameters b)).
  { eexists. split; [reflexivity|]. cbn [parameters].
    assert (Hh : rule_heads authz_policy
                 = [("allow", None); ("role", None); ("level", None)])
      by (vm_compute; reflexivity).
    rewrite Hh. right. right. left. reflexivity. }
  destruct H as [b [Hb Hin]].
  exact (@rule_names_are_words first_found authz_policy "authz.rego" b
           (rule_param "level") eq_refl Hb Hin eq_refl).
Defined.

(** *** The input references *)

Lemma dotted_name_append (s : string) :
  (fst (dotted_name s) ++ snd (dotted_name s))%string = s.
Proof.
  induction s as [|c s IH]; [reflexivity|]. cbn [dotted_name].
  destruct (Str.is_word c).
  - destruct (dotted_name s). cbn [fst snd append] in *. now rewrite IH.
  - destruct (Ascii.eqb c "."); [|reflexivity].
    destruct s as [|d s]; [reflexivity|].
    destruct (Str.is_word d); [|reflexivity].
    destruct (dotted_name (String d s)). cbn [fst snd append] in *.
    now rewrite IH.
Qed.

Lemma strip_prefix_text (p s r : string) :
  Str.strip_prefix p s = Some r -> s = (p ++ r)%string.
Proof.
  revert s; induction p as [|a p IH]; intros [|x s] H; cbn in H;
    try discriminate; try (injection H as <-; reflexivity).
  destruct (Ascii.eqb_spec a x) as [<-|_]; [|discriminate].
  cbn [append]. f_equal. now apply IH.
Qed.

Lemma input_at_text (s g rest : string) :
  input_at s = Some (g, rest) ->
  s = ("input." ++ g ++ rest)%string /\ g <> EmptyString.
Proof.
  unfold input_at.
  destruct (Str.strip_prefix "input." s) as [s1|] eqn:E; [|discriminate].
  apply strip_prefix_text in E. destruct s1 as [|c r]; [discriminate|].
  destruct (Str.is_word c) eqn:Hc; [|discriminate].
  pose proof (dotted_name_append (String c r)) as Ha.
  cbn [dotted_name] in *. rewrite Hc in *.
  destruct (dotted_name r) as [g' r']. cbn [fst snd] in Ha.
  intros H; injection H as <- <-. rewrite Ha. split; [exact E | discriminate].
Qed.

Lemma input_findall_found (n : nat) :
  forall s g,
    String.length s <= n ->
    In g (input_findall s) ->
    g <> EmptyString /\ Str.contains ("input." ++ g) s = true.
Proof.
  induction n as [|n IH]; intros s g Hn Hin.
  - destruct s; [|simpl in Hn; lia].
    rewrite input_findall_equation_1 in Hin. contradiction.
  - destruct s as [|c s'];
      [rewrite input_findall_equation_1 in Hin; contradiction|].
    rewrite input_findall_cons in Hin.
    destruct (input_at (String c s')) as [[g0 rest]|] eqn:E.
    + pose proof (input_at_length _ E) as Hlen.
      apply input_at_text in E as [Ht Hne].
      destruct Hin as [<- | Hin].
      * split; [exact Hne|]. rewrite Ht, <- StrFacts.append_assoc.
        apply contains_head.
      * apply IH in Hin as [Hg Hc]; [|simpl in *; lia].
        split; [exact Hg|]. rewrite Ht, <- StrFacts.append_assoc.
        now apply contains_later.
    + apply IH in Hin as [Hg Hc]; [|simpl in *; lia].
      split; [exact Hg|].
      now apply (contains_later ("input." ++ g) (String c EmptyString) s').
Qed.

Lemma map_nodup {A B : Type} (f : A -> B) (l : list A) :
  (forall x y, f x = f y -> x = y) -> NoDup l -> NoDup (map f l).
Proof.
  intros Hf H. induction H as [|x l Hx _ IH]; [constructor|].
  cbn [map]. constructor; [|exact IH]. intros Hin.
  apply in_map_iff in Hin as [y [Hy Hin]]. apply Hf in Hy. now subst.
Qed.

Lemma rules_are_no_references (heads : list (string * option string)) :
  filter is_input_reference
         (flat_map (fun head =>
                      if is_keyword (fst head) then []
                      else rule_param (fst head)
                           :: head_params (fst head) (snd head))
                   heads) = [].
Proof.
  induction heads as [|[nm ps] heads IH]; [reflexivity|].
  cbn [flat_map fst snd]. rewrite filter_app, IH, app_nil_r.
  destruct (is_keyword nm); [reflexivity|].
  change (filter is_input_reference
            (rule_param nm :: head_params nm ps))
    with (filter is_input_reference (head_params nm ps)).
  unfold head_params. destruct ps as [inner|]; [|reflexivity].
  destruct (Str.is_empty inner); [reflexivity|].
  induction (Str.split "," inner) as [|a l IHl]; [reflexivity | exact IHl].
Qed.

Lemma references_kept (l : list string) :
  filter is_input_reference
         (map (fun r => input_param ("input." ++ r) false) l)
  = map (fun r => input_param ("input." ++ r) false) l.
Proof.
  induction l as [|r l IH]; [reflexivity|]. cbn [map filter].
  change (is_input_reference (input_param ("input." ++ r) false)) with true.
  cbv iota. now rewrite IH.
Qed.

Lemma content_parameters
      (order : list string -> list string) (content path : string)
      (b : ContractBoundary) :
  extract_content order content path = Ok b ->
  parameters b
  = flat_map (fun head =>
                if is_keyword (fst head) then []
                else rule_param (fst head)
                     :: head_params (fst head) (snd head))
             (rule_heads content)
    ++ map (fun r => input_param ("input." ++ r) false)
           (order (input_findall content)).
Proof.
  unfold extract_content, extract_text. intros H; injection H as <-.
  reflexivity.
Qed.

(** X26.  In a policy of ASCII text, whatever the order in which the set of
    references is met, the parameters made from input references are
    pairwise different; each is
    [input.<reference>] for a reference found in the text, where it is
    written out; and every reference found is among them. *)
Theorem input_references_listed
  (order : list string -> list string) (content path : string)
  (b : ContractBoundary) :
  Str.is_ascii content = true ->
  (forall l, set_order l (order l)) ->
  extract_content order content path = Ok b ->
  NoDup (filter is_input_reference (parameters b))
  /\ (forall p,
        In p (parameters b) -> is_input_reference p = true ->
        exists r,
          p = input_param ("input." ++ r) false
          /\ In r (input_findall content)
          /\ r <> EmptyString
          /\ Str.contains (name p) content = true)
  /\ (forall r,
        In r (input_findall content) ->
        In (input_param ("input." ++ r) false) (parameters b)).
Proof.
  intros _ Horder H. rewrite (content_parameters H). clear H.
  destruct (Horder (input_findall content)) as [Hnd Hiff].
  assert (Hfilter : filter is_input_reference
                      (flat_map (fun head =>
                                   if is_keyword (fst head) then []
                                   else rule_param (fst head)
                                        :: head_params (fst head) (snd head))
                                (rule_heads content)
                       ++ map (fun r => input_param ("input." ++ r) false)
                              (order (input_findall content)))
                    = map (fun r => input_param ("input." ++ r) false)
                          (order (input_findall content))).
  { now rewrite filter_app, rules_are_no_references, references_kept. }
  split; [|split].
  - rewrite Hfilter. apply map_nodup; [|exact Hnd].
    intros x y E. now injection E.
  - intros p Hin Hp.
    assert (Hp' : In p (map (fun r => input_param ("input." ++ r) false)
                            (order (input_findall content)))).
    { rewrite <- Hfilter. apply filter_In. now split. }
    apply in_map_iff in Hp' as [r [<- Hr]]. apply Hiff in Hr.
    exists r. split; [reflexivity|]. split; [exact Hr|].
    now apply (@input_findall_found (String.length content)) in Hr.
  - intros r Hr. apply in_or_app. right. apply in_map_iff.
    exists r. split; [reflexivity | now apply Hiff].
Qed.

Lemma input_references_listed_witness :
  In (input_param "input.user.role" false)
     (flat_map (fun head =>
                  if is_keyword (fst head) then []
                  else rule_param (fst head)
                       :: head_params (fst head) (snd head))
               (rule_heads authz_policy)
      ++ map (fun r => input_param ("input." ++ r) false)
             (first_found (input_findall authz_policy))).
Proof.
  assert (H : input_findall authz_policy = ["user.role"; "level"])
    by (vm_compute; reflexivity).
  apply (proj2 (proj2 (@input_references_listed first_found authz_policy
                         "authz.rego" _ eq_refl first_found_order eq_refl))
               "user.role").
  rewrite H. left. reflexivity.
Defined.

(** *** Where a head is found *)

Lemma span_then (p : ascii -> bool) (a rest : string) :
  Str.all_chars p a = true ->
  match rest with
  | EmptyString => True
  | String c _ => p c = false
  end ->
  Str.span p (a ++ rest)%string = (a, rest).
Proof.
  intros Ha Hr. destruct rest as [|c rest].
  - rewrite MarkdownTheorems.append_nil_r. now apply MdxFrontmatter.span_to_end.
  - now apply MdxFacts.span_all.
Qed.

Lemma space_is_no_word (c : ascii) :
  Str.is_space c = true -> Str.is_word c = false.
Proof.
  destruct c as [[] [] [] [] [] [] [] []]; intros H;
    try discriminate H; reflexivity.
Qed.

(** What stands after a name whose head is complete: white space, then the
    operator. *)
Lemma operator_found (ws op post : string) :
  blank ws -> operator op ->
  ws_operator (ws ++ op ++ post)%string = Some post
  /\ match (ws ++ op ++ post)%string with
     | EmptyString => True
     | String c _ => Str.is_word c = false /\ Ascii.eqb c "[" = false
     end.
Proof.
  intros Hws Hop. unfold ws_operator. split.
  - rewrite (@span_then Str.is_space ws (op ++ post)%string Hws);
      destruct Hop as [-> | [-> | ->]]; reflexivity.
  - destruct ws as [|c ws].
    + destruct Hop as [-> | [-> | ->]]; split; reflexivity.
    + cbn [append]. unfold blank in Hws. cbn [Str.all_chars] in Hws.
      apply andb_prop in Hws as [Hc _]. split.
      * now apply space_is_no_word.
      * destruct c as [[] [] [] [] [] [] [] []]; try discriminate Hc;
          reflexivity.
Qed.

Lemma skip_no_word (junk s : string) :
  no_word junk -> rule_heads (junk ++ s)%string = rule_heads s.
Proof.
  unfold no_word. induction junk as [|c junk IH]; intros H; [reflexivity|].
  cbn [Str.all_chars] in H. apply andb_prop in H as [Hc Hj].
  cbn [append]. rewrite rule_heads_cons.
  unfold rule_at. cbn [Str.span]. destruct (Str.is_word c); [discriminate|].
  cbn [Str.is_empty]. now apply IH.
Qed.

Lemma plain_head_at (nm ws op post : string) :
  word nm -> blank ws -> operator op ->
  rule_at (nm ++ ws ++ op ++ post)%string = Some (nm, None, post).
Proof.
  intros [Hne Hw] Hws Hop. unfold rule_at.
  destruct (operator_found post Hws Hop) as [Ho Hfirst].
  rewrite (@span_then Str.is_word nm (ws ++ op ++ post)%string Hw)
    by (destruct (ws ++ op ++ post)%string; [exact I | apply Hfirst]).
  destruct nm as [|x nm]; [contradiction|]. cbn [Str.is_empty].
  assert (Hb : bracket_group (ws ++ op ++ post)%string = None).
  { unfold bracket_group. destruct (ws ++ op ++ post)%string as [|c r];
      [reflexivity|]. destruct Hfirst as [_ Hc].
    destruct c as [[] [] [] [] [] [] [] []]; try reflexivity; discriminate. }
  now rewrite Hb, Ho.
Qed.

(** X27.  In ASCII text a name followed by [:=], [=] or an opening brace,
    with or without white space between, is taken for a rule head wherever
    it stands after text other than word characters: also the left side of
    a comparison in the body of a rule. *)
Theorem head_found_anywhere (junk nm ws op post : string) :
  Str.is_ascii (junk ++ nm ++ ws ++ op ++ post) = true ->
  no_word junk -> word nm -> blank ws -> operator op ->
  rule_heads (junk ++ nm ++ ws ++ op ++ post)%string
  = (nm, None) :: rule_heads post.
Proof.
  intros _ Hj Hn Hws Hop. rewrite (skip_no_word _ Hj).
  pose proof (plain_head_at post Hn Hws Hop) as Hat.
  destruct Hn as [Hne _]. destruct nm as [|x nm]; [contradiction|].
  change (String x nm ++ ws ++ op ++ post)%string
    with (String x (nm ++ ws ++ op ++ post)) in *.
  rewrite rule_heads_cons, Hat. reflexivity.
Qed.

Lemma head_found_anywhere_witness :
  rule_heads (" { " ++ "count" ++ " " ++ "=" ++ "= 3 }")
  = ("count", None) :: rule_heads "= 3 }".
Proof.
  apply (@head_found_anywhere " { " "count" " " "=" "= 3 }").
  - reflexivity.
  - reflexivity.
  - split; [discriminate | reflexivity].
  - reflexivity.
  - right. left. reflexivity.
Defined.

(** *** The parameters of a head *)

Lemma join_args_head (a : string) (rest : list string) :
  Forall argument (a :: rest) ->
  Str.split "," (Str.join ", " (a :: rest)) = a :: map (String " ") rest
  /\ Str.join ", " (a :: rest) <> EmptyString
  /\ lacks_char "]" (Str.join ", " (a :: rest)) = true.
Proof.
  revert a. induction rest as [|x rest IH]; intros a H;
    inversion H as [|? ? [Hne [_ [Hc Hb]]] Hrest]; subst.
  - cbn [Str.join map]. split; [now apply MdxFilename.split_word|].
    split; [exact Hne | exact Hb].
  - change (Str.join ", " (a :: x :: rest))
      with (a ++ String "," (String " " (Str.join ", " (x :: rest))))%string.
    destruct (IH x Hrest) as [Hsplit [_ Hl]].
    split; [|split].
    + rewrite MdxFilename.split_word_then by exact Hc.
      cbn [Str.split]. change (Ascii.eqb " " ",") with false. cbv iota.
      rewrite Hsplit. reflexivity.
    + destruct a; [contradiction | discriminate].
    + unfold lacks_char in *. rewrite MdxMore.all_chars_append, Hb.
      cbn [Str.all_chars andb]. exact Hl.
Qed.

Lemma bracket_head_at (nm : string) (args : list string) (ws op post : string) :
  word nm -> args <> [] -> Forall argument args -> blank ws -> operator op ->
  rule_at (nm ++ "[" ++ Str.join ", " args ++ "]" ++ ws ++ op ++ post)%string
  = Some (nm, Some (Str.join ", " args), post).
Proof.
  intros [Hne Hw] Hargs Hall Hws Hop. unfold rule_at.
  destruct args as [|a rest]; [contradiction|].
  destruct (join_args_head Hall) as [_ [Hj Hl]].
  rewrite (@span_then Str.is_word nm
             ("[" ++ Str.join ", " (a :: rest) ++ "]" ++ ws ++ op ++ post)%string
             Hw eq_refl).
  destruct nm as [|x nm]; [contradiction|]. cbn [Str.is_empty].
  destruct (operator_found post Hws Hop) as [Ho _].
  assert (Hb : bracket_group
                 ("[" ++ Str.join ", " (a :: rest) ++ "]" ++ ws ++ op ++ post)%string
               = Some (Str.join ", " (a :: rest), (ws ++ op ++ post)%string)).
  { unfold bracket_group.
    change ("[" ++ Str.join ", " (a :: rest) ++ "]" ++ ws ++ op ++ post)%string
      with (String "[" (Str.join ", " (a :: rest)
                        ++ String "]" (ws ++ op ++ post))).
    cbv iota.
    rewrite (@MdxFacts.span_all (fun c => negb (Ascii.eqb c "]"))
               (Str.join ", " (a :: rest)) "]" (ws ++ op ++ post)%string
               Hl eq_refl).
    destruct (Str.join ", " (a :: rest)); [contradiction | reflexivity]. }
  now rewrite Hb, Ho.
Qed.

(** X28.  In a policy of ASCII text, a head with arguments in brackets
    gives the rule, then one required parameter [<rule>.<argument>] for
    each argument, in their order and trimmed. *)
Theorem bracket_parameters
  (order : list string -> list string) (junk nm : string) (args : list string)
  (ws op post path : string) :
  Str.is_ascii
    (junk ++ nm ++ "[" ++ Str.join ", " args ++ "]" ++ ws ++ op ++ post)
  = true ->
  no_word junk -> word nm -> is_keyword nm = false ->
  args <> [] -> Forall argument args -> blank ws -> operator op ->
  exists b others,
    extract_content order
      (junk ++ nm ++ "[" ++ Str.join ", " args ++ "]" ++ ws ++ op ++ post)%string
      path = Ok b
    /\ parameters b
       = rule_param nm
         :: map (fun a => input_param (nm ++ "." ++ a) true) args ++ others.
Proof.
  intros _ Hj Hn Hk Hargs Hall Hws Hop.
  assert (Hheads :
            rule_heads (junk ++ nm ++ "[" ++ Str.join ", " args ++ "]"
                        ++ ws ++ op ++ post)%string
            = (nm, Some (Str.join ", " args)) :: rule_heads post).
  { rewrite (skip_no_word _ Hj).
    pose proof (bracket_head_at post Hn Hargs Hall Hws Hop) as Hat.
    destruct Hn as [Hne _]. destruct nm as [|x nm]; [contradiction|].
    change (String x nm ++ "[" ++ Str.join ", " args ++ "]" ++ ws ++ op ++ post)%string
      with (String x (nm ++ "[" ++ Str.join ", " args ++ "]" ++ ws ++ op ++ post))
      in *.
    rewrite rule_heads_cons, Hat. reflexivity. }
  assert (Hparams : head_params nm (Some (Str.join ", " args))
                    = map (fun a => input_param (nm ++ "." ++ a) true) args).
  { unfold head_params. destruct args as [|a rest]; [contradiction|].
    destruct (join_args_head Hall) as [Hsplit [Hne' _]].
    destruct (Str.join ", " (a :: rest)) eqn:E; [contradiction|].
    cbn [Str.is_empty]. rewrite Hsplit.
    inversion Hall as [|? ? [_ [Ha _]] Hrest]; subst.
    cbn [map]. rewrite Ha. f_equal. rewrite map_map.
    apply map_ext_in. intros y Hy. rewrite Forall_forall in Hrest.
    destruct (Hrest y Hy) as [_ [Hs _]].
    assert (Hstrip : Str.strip (String " " y) = Str.strip y) by reflexivity.
    now rewrite Hstrip, Hs. }
  assert (Hex : exists b,
             extract_content order
               (junk ++ nm ++ "[" ++ Str.join ", " args ++ "]" ++ ws ++ op ++ post)%string
               path = Ok b) by (eexists; reflexivity).
  destruct Hex as [b Hb]. exists b. eexists. split; [exact Hb|].
  rewrite (content_parameters Hb), Hheads. cbn [flat_map fst snd].
  rewrite Hk, Hparams. cbn [app]. f_equal. rewrite <- app_assoc. reflexivity.
Qed.

Lemma bracket_parameters_witness :
  exists b others,
    extract_content first_found
      ("" ++ "deny" ++ "[" ++ Str.join ", " ["msg"; "code"] ++ "]" ++ " " ++ "{"
       ++ " msg := input.reason }")%string
      "deny.rego" = Ok b
    /\ parameters b
       = rule_param "deny"
         :: map (fun a => input_param ("deny" ++ "." ++ a) true) ["msg"; "code"]
            ++ others.
Proof.
  apply (@bracket_parameters first_found "" "deny" ["msg"; "code"] " " "{"
           " msg := input.reason }" "deny.rego").
  - reflexivity.
  - reflexivity.
  - split; [discriminate | reflexivity].
  - reflexivity.
  - discriminate.
  - repeat constructor; discriminate.
  - reflexivity.
  - right. right. reflexivity.
Defined.

(** *** The package *)

Lemma package_at_text (s g : string) :
  package_at s = Some g ->
  g <> EmptyString
  /\ Str.all_chars is_word_or_dot g = true
  /\ exists ws tail,
       ws <> EmptyString /\ blank ws
       /\ s = ("package" ++ ws ++ g ++ tail)%string.
Proof.
  unfold package_at.
  destruct (Str.strip_prefix "package" s) as [s1|] eqn:E; [|discriminate].
  apply strip_prefix_text in E.
  pose proof (Str.span_append Str.is_space s1) as Hs.
  pose proof (span_satisfies Str.is_space s1) as Hw.
  destruct (Str.span Str.is_space s1) as [w s2]. cbn [fst snd] in *.
  destruct w as [|x w]; [discriminate|]. cbn [Str.is_empty].
  pose proof (Str.span_append is_word_or_dot s2) as Hs2.
  pose proof (span_satisfies is_word_or_dot s2) as Hg.
  destruct (Str.span is_word_or_dot s2) as [g' tail]. cbn [fst snd] in *.
  destruct g' as [|y g']; [discriminate|]. cbn [Str.is_empty].
  intros H; injection H as <-.
  split; [discriminate|]. split; [exact Hg|].
  exists (String x w), tail. split; [discriminate|]. split; [exact Hw|].
  now rewrite Hs2, Hs.
Qed.

Lemma package_search_text (s g : string) :
  package_search s = Some g ->
  g <> EmptyString
  /\ Str.all_chars is_word_or_dot g = true
  /\ exists ws,
       ws <> EmptyString /\ blank ws
       /\ Str.contains ("package" ++ ws ++ g) s = true.
Proof.
  induction s as [|c s IH]; cbn [package_search].
  - destruct (package_at EmptyString) eqn:E; [discriminate E | discriminate].
  - destruct (package_at (String c s)) as [g0|] eqn:E.
    + intros H; injection H as ->.
      apply package_at_text in E as [Hne [Hg [ws [tail [Hws [Hb Ht]]]]]].
      split; [exact Hne|]. split; [exact Hg|].
      exists ws. split; [exact Hws|]. split; [exact Hb|].
      rewrite Ht.
      replace ("package" ++ ws ++ g ++ tail)%string
        with (("package" ++ ws ++ g) ++ tail)%string
        by now rewrite !StrFacts.append_assoc.
      apply contains_head.
    + intros H. apply IH in H as [Hne [Hg [ws [Hws [Hb Hc]]]]].
      split; [exact Hne|]. split; [exact Hg|].
      exists ws. split; [exact Hws|]. split; [exact Hb|].
      now apply (contains_later _ (String c EmptyString) s).
Qed.

(** X29.  The metadata of a policy of ASCII text names a package only when
    the word [package], white space and a name are written in the text; the
    name is a run of word characters and dots that is not empty. *)
Theorem package_is_written
  (order : list string -> list string) (content path : string) :
  Str.is_ascii content = true ->
  exists b,
    extract_content order content path = Ok b
    /\ match Dict.get (metadata b) "package" with
       | Some v =>
           exists g ws,
             v = VStr g
             /\ g <> EmptyString
             /\ Str.all_chars is_word_or_dot g = true
             /\ ws <> EmptyString /\ blank ws
             /\ Str.contains ("package" ++ ws ++ g) content = true
       | None => package_search content = None
       end.
Proof.
  intros _. eexists. split; [reflexivity|]. cbn [metadata].
  destruct (package_search content) as [g|] eqn:E.
  - rewrite DictFacts.get_set_other by reflexivity.
    cbn [Dict.set Dict.get]. change (String.eqb "package" "package") with true.
    cbv iota.
    apply package_search_text in E as [Hne [Hg [ws [Hws [Hb Hc]]]]].
    exists g, ws. repeat split; assumption.
  - reflexivity.
Qed.

Lemma package_is_written_witness :
  exists b,
    extract_content first_found authz_policy "authz.rego" = Ok b
    /\ match Dict.get (metadata b) "package" with
       | Some v =>
           exists g ws,
             v = VStr g
             /\ g <> EmptyString
             /\ Str.all_chars is_word_or_dot g = true
             /\ ws <> EmptyString /\ blank ws
             /\ Str.contains ("package" ++ ws ++ g) authz_policy = true
       | None => package_search authz_policy = None
       end.
Proof.
  apply (@package_is_written first_found authz_policy "authz.rego").
  reflexivity.
Defined.

End RegoScans.
